(** * pyhydra: a shallow embedding of the Hydra Head client

    The definitions follow the Python package module by module:

    - [Py]          the fragment of Python the package relies on: exceptions,
                    [raise], [await], text, [bytes.fromhex] and dictionaries
                    in insertion order;
    - [Status]      [pyhydra/types/hydra_status.py];
    - [Connection]  [pyhydra/connections/hydra_connection.py];
    - [Provider]    [pyhydra/utils/parse_error.py] and
                    [pyhydra/providers/hydra_provider.py];
    - [Assets]      [pyhydra/models/assets.py];
    - [Script]      [pyhydra/models/hydra_reference_script.py];
    - [Utxos]       [pyhydra/types/hydra_utxos.py];
    - [Blockfrost]  [pyhydra/providers/blockfrost_provider.py];
    - [Instance]    [pyhydra/instances/hydra_instance.py].

    The statements come after all definitions, one section per component.

    Python integers are [Z]; Python text is [string], one character per code
    point (code points below 256); [bytes] are lists of 8-bit characters;
    a JSON object received from the node is a
    [gmap string json]; a dictionary whose iteration order is observable is
    an association list in insertion order. *)

From Stdlib Require Import ZArith NArith List String Ascii Bool Lia.
From stdpp Require Import base option list strings gmap pretty.
From Equations Require Import Equations.

Set Warnings "-register-all,-clear-no-such-hyp".

Open Scope Z_scope.

(* ===================================================================== *)
(** * The Python fragment                                                 *)
(* ===================================================================== *)

Module Py.

(** JSON values as [json.loads] produces them. *)
Inductive json :=
| JNull
| JBool (b : bool)
| JNum (z : Z)
| JStr (s : string)
| JArr (l : list json)
| JObj (m : gmap string json).

(** The exception classes the package raises, catches or lets through.
    [RequestException] carries what [parse_error] reads from it. *)
Record Response := {
  status_code : Z;
  text : string;
  headers : list (string * string);
  body : option json              (* [response.json()]; [None]: not JSON *)
}.

Record Request := {
  method : string;
  url : string;
  request_headers : list (string * string)
}.

Inductive exn :=
| ValueError (msg : string)
| TypeError (msg : string)
| AssertionError (msg : string)
| KeyError (key : string)
| AttributeError (msg : string)
| InvalidStateError (msg : string)
| CBORDecodeError (msg : string)             (* subclass of cbor2.CBORError *)
| JSONDecodeError (msg : string)             (* subclass of ValueError *)
| DeserializeException (msg : string)        (* pycardano *)
| Exception (msg : string)
| RequestException (response : option Response) (request : option Request)
                   (errno : option Z) (msg : string).

(** A call either returns or raises. *)
Inductive outcome (A : Type) :=
| Return (a : A)
| Raise (e : exn).
Arguments Return {A} a.
Arguments Raise {A} e.

Definition bind {A B} (x : outcome A) (f : A -> outcome B) : outcome B :=
  match x with
  | Return a => f a
  | Raise e => Raise e
  end.

Definition returns {A} (x : outcome A) : bool :=
  match x with Return _ => true | Raise _ => false end.

(** [isinstance(e, ValueError)]. [cbor2]'s decode errors are not included:
    the package names [cbor2.CBORError] separately where it catches them. *)
Definition is_ValueError (e : exn) : bool :=
  match e with ValueError _ | JSONDecodeError _ => true | _ => false end.

(** [isinstance(e, json.JSONDecodeError)]. *)
Definition is_JSONDecodeError (e : exn) : bool :=
  match e with JSONDecodeError _ => true | _ => false end.

Definition is_CBORError (e : exn) : bool :=
  match e with CBORDecodeError _ => true | _ => false end.

(** [isinstance(e, Exception)]: every class above derives from it. *)
Definition is_Exception (e : exn) : bool := true.

(** [try: x  except <cls> as e: h e]. *)
Definition try_except {A} (x : outcome A) (cls : exn -> bool)
    (h : exn -> outcome A) : outcome A :=
  match x with
  | Return a => Return a
  | Raise e => if cls e then h e else Raise e
  end.

(** Python values that reach a [raise] or an [await] in the package. *)
Inductive value :=
| VNone
| VStr (s : string)
| VJson (j : json)
| VExn (e : exn).

(** [raise v]: only instances of [BaseException] can be raised. *)
Definition raise_ {A} (v : value) : outcome A :=
  match v with
  | VExn e => Raise e
  | _ => Raise (TypeError "exceptions must derive from BaseException")
  end.

(** [await v] on a value that is no awaitable.  The package awaits the
    result of a plain function; coroutines and futures it awaits properly
    are modelled where they occur. *)
Definition await_non_awaitable {A} (v : value) : outcome A :=
  match v with
  | VNone => Raise (TypeError "object NoneType can't be used in 'await' expression")
  | VStr _ => Raise (TypeError "object str can't be used in 'await' expression")
  | VJson _ => Raise (TypeError "object dict can't be used in 'await' expression")
  | VExn _ => Raise (TypeError "object Exception can't be used in 'await' expression")
  end.

(** ** Text and bytes *)

Definition bytes := list ascii.

(** [len(s)], [s[:n]] and [s[n:]] on text. *)
Definition len (s : string) : Z := Z.of_nat (String.length s).

Fixpoint prefix (n : nat) (s : string) : string :=
  match n, s with
  | S n', String c s' => String c (prefix n' s')
  | _, _ => EmptyString
  end.

Fixpoint suffix (n : nat) (s : string) : string :=
  match n, s with
  | S n', String _ s' => suffix n' s'
  | _, _ => s
  end.

(** The value of a hexadecimal digit ([_PyLong_DigitValue] below 16). *)
Definition hex_digit (c : ascii) : option N :=
  let n := N_of_ascii c in
  if ((48 <=? n) && (n <=? 57))%N then Some (n - 48)%N
  else if ((97 <=? n) && (n <=? 102))%N then Some (n - 87)%N
  else if ((65 <=? n) && (n <=? 70))%N then Some (n - 55)%N
  else None.

(** [Py_ISSPACE]: space, tab, line feed, vertical tab, form feed, carriage
    return. *)
Definition is_space (c : ascii) : bool :=
  let n := N_of_ascii c in
  ((n =? 32) || ((9 <=? n) && (n <=? 13)))%N.

Definition fromhex_error : exn :=
  ValueError "non-hexadecimal number found in fromhex() arg".

(** [bytes.fromhex]: white space is skipped before a pair of digits, never
    inside one.  [top] holds the first digit of the pair being read. *)
Fixpoint fromhex_from (s : string) (top : option N) : outcome bytes :=
  match s, top with
  | EmptyString, None => Return []
  | EmptyString, Some _ => Raise fromhex_error
  | String c s', None =>
      if is_space c then fromhex_from s' None
      else match hex_digit c with
           | Some h => fromhex_from s' (Some h)
           | None => Raise fromhex_error
           end
  | String c s', Some h =>
      match hex_digit c with
      | Some l =>
          match fromhex_from s' None with
          | Return b => Return (ascii_of_N (16 * h + l) :: b)
          | Raise e => Raise e
          end
      | None => Raise fromhex_error
      end
  end.

Definition fromhex (s : string) : outcome bytes := fromhex_from s None.

(** [b.hex()]. *)
Definition hex_char (n : N) : ascii :=
  if (n <? 10)%N then ascii_of_N (48 + n) else ascii_of_N (87 + n).

Fixpoint hex (b : bytes) : string :=
  match b with
  | [] => EmptyString
  | c :: r =>
      let n := N_of_ascii c in
      String (hex_char (n / 16)) (String (hex_char (n mod 16)) (hex r))
  end.

(** [s.encode("utf-8")] for code points below 256. *)
Fixpoint encode_utf8 (s : string) : bytes :=
  match s with
  | EmptyString => []
  | String c s' =>
      let n := N_of_ascii c in
      if (n <? 128)%N then c :: encode_utf8 s'
      else ascii_of_N (192 + n / 64) :: ascii_of_N (128 + n mod 64)
             :: encode_utf8 s'
  end.

(** ** Dictionaries in insertion order *)

Section Dict.
Context {K V : Type} `{EqDecision K}.

Fixpoint dict_get (d : list (K * V)) (k : K) : option V :=
  match d with
  | [] => None
  | (k', v) :: r => if decide (k = k') then Some v else dict_get r k
  end.

(** [d[k] = v]: an existing key keeps its place, a new one goes last. *)
Fixpoint dict_set (d : list (K * V)) (k : K) (v : V) : list (K * V) :=
  match d with
  | [] => [(k, v)]
  | (k', v') :: r =>
      if decide (k = k') then (k, v) :: r else (k', v') :: dict_set r k v
  end.

Definition dict_keys (d : list (K * V)) : list K := fst <$> d.

End Dict.

End Py.

Export Py.

(** Sequencing with stdpp's monad notation: [x ← c; k]. *)
#[global] Instance outcome_ret : MRet outcome := @Return.
#[global] Instance outcome_bind : MBind outcome := fun A B f x => Py.bind x f.

(* ===================================================================== *)
(** * More text: [str.replace] and [str.split]                            *)
(* ===================================================================== *)

Module Text.

(** [s.replace(old, new)] for a non-empty [old]: the occurrences of [old]
    are taken from the left and do not overlap.  [skip] counts the
    characters of an occurrence that are still to be passed over. *)
Fixpoint replace_from (old new : string) (skip : nat) (s : string) : string :=
  match s with
  | EmptyString => EmptyString
  | String c s' =>
      match skip with
      | S k => replace_from old new k s'
      | O =>
          if String.prefix old s
          then new +:+ replace_from old new (String.length old - 1) s'
          else String c (replace_from old new O s')
      end
  end.

Definition replace (old new s : string) : string := replace_from old new O s.

(** [s.split(sep)] for a separator of one character: the pieces between
    the occurrences of [sep], one more than there are occurrences. *)
Fixpoint split (sep : ascii) (s : string) : list string :=
  match s with
  | EmptyString => [EmptyString]
  | String c s' =>
      if Ascii.eqb c sep then EmptyString :: split sep s'
      else match split sep s' with
           | piece :: rest => String c piece :: rest
           | [] => [String c EmptyString]
           end
  end.

(** [old in s]. *)
Fixpoint contains (old s : string) : bool :=
  String.prefix old s ||
  match s with
  | EmptyString => false
  | String _ s' => contains old s'
  end.

(** The number of occurrences of a character. *)
Fixpoint count (sep : ascii) (s : string) : nat :=
  match s with
  | EmptyString => O
  | String c s' => (if Ascii.eqb c sep then 1 else 0) + count sep s'
  end.

End Text.

(* ===================================================================== *)
(** * types/hydra_status.py                                               *)
(* ===================================================================== *)

Module Status.

Inductive HydraStatus :=
| IDLE | DISCONNECTED | CONNECTING | CONNECTED
| INITIALIZING | OPEN | CLOSED | FANOUT_POSSIBLE | FINAL.

#[global] Instance HydraStatus_eq_dec : EqDecision HydraStatus.
Proof. solve_decision. Defined.

(** [d.get(k) == s] for a text literal [s]. *)
Definition get_is (d : gmap string json) (k s : string) : bool :=
  match d !! k with
  | Some (JStr v) => String.eqb v s
  | _ => false
  end.

(** [hydra_status]: the [headStatus] test comes first, then the [match] on
    the tag. *)
Definition hydra_status (value : gmap string json) : option HydraStatus :=
  if get_is value "headStatus" "Open" then Some OPEN
  else if get_is value "tag" "HeadIsInitializing" then Some INITIALIZING
  else if get_is value "tag" "HeadIsOpen" then Some OPEN
  else if get_is value "tag" "HeadIsClosed" then Some CLOSED
  else if get_is value "tag" "ReadyToFanout" then Some FANOUT_POSSIBLE
  else if get_is value "tag" "HeadIsFinalized" then Some FINAL
  else None.

(** The tags the [match] statement names. *)
Definition lifecycle_tags : list string :=
  ["HeadIsInitializing"; "HeadIsOpen"; "HeadIsClosed"; "ReadyToFanout";
   "HeadIsFinalized"].

End Status.

Export Status.

(* ===================================================================== *)
(** * connections/hydra_connection.py                                     *)
(* ===================================================================== *)

Module Connection.

(** The [WebSocketApp] the connection owns.  Its socket is driven by the
    background thread that runs [run_forever]: [sock_connected t] says
    whether [self.sock and self.sock.connected] holds at instant [t] of the
    clock (milliseconds). *)
Record WebSocketApp := {
  app_url : string;
  sock_connected : Z -> bool
}.

Inductive event :=
| OnMessage (m : json)
| OnStatusChange (s : HydraStatus).

Inductive log_line :=
| LogConnected
| LogReceived (m : json)
| LogParseFailure
| LogSendFailed (data : json)
| LogError
| LogClosed (code : option Z) (reason : option string).

(** What a method does to the world, in program order. *)
Inductive effect :=
| Emit (e : event)                 (* [self._event_emitter.emit] *)
| WsSend (payload : json)          (* [self._websocket.send(json.dumps(data))] *)
| WsClose (status : Z)             (* [self._websocket.close(status=...)] *)
| ThreadStart (url : string)       (* [threading.Thread(run_forever).start()] *)
| Sleep (seconds : Z)              (* [time.sleep] *)
| Print (l : log_line).

(** The connection, with the two things around it that decide what its
    methods do: the subscribers of its event emitter, and the network
    under its transport.  [_event_emitter e] is what
    [self._event_emitter.emit] does with the event [e]: it returns when
    every subscriber returns (or there is none), and raises what a
    subscriber raised when one does, since pyee lets the exception
    through.  [transport_error t] is what [self._websocket.send] raises
    when it is called at instant [t], [None] when the frame goes out. *)
Record HydraConnection := {
  _websocket_url : string;
  _websocket : option WebSocketApp;
  _status : HydraStatus;
  _connected : bool;
  _event_emitter : event -> outcome unit;
  transport_error : Z -> option exn;
  clock : Z;                       (* [time.time()], in milliseconds *)
  trace : list effect              (* oldest first *)
}.

Definition with_websocket (w : option WebSocketApp) (c : HydraConnection) :=
  {| _websocket_url := _websocket_url c; _websocket := w;
     _status := _status c; _connected := _connected c;
     _event_emitter := _event_emitter c; transport_error := transport_error c;
     clock := clock c; trace := trace c |}.

Definition with_status (s : HydraStatus) (c : HydraConnection) :=
  {| _websocket_url := _websocket_url c; _websocket := _websocket c;
     _status := s; _connected := _connected c;
     _event_emitter := _event_emitter c; transport_error := transport_error c;
     clock := clock c; trace := trace c |}.

Definition with_connected (b : bool) (c : HydraConnection) :=
  {| _websocket_url := _websocket_url c; _websocket := _websocket c;
     _status := _status c; _connected := b;
     _event_emitter := _event_emitter c; transport_error := transport_error c;
     clock := clock c; trace := trace c |}.

Definition with_clock (t : Z) (c : HydraConnection) :=
  {| _websocket_url := _websocket_url c; _websocket := _websocket c;
     _status := _status c; _connected := _connected c;
     _event_emitter := _event_emitter c; transport_error := transport_error c;
     clock := t; trace := trace c |}.

(** Subscribers come and go ([on], [remove_listener]); the network is not
    the connection's to choose. *)
Definition with_event_emitter (f : event -> outcome unit) (c : HydraConnection) :=
  {| _websocket_url := _websocket_url c; _websocket := _websocket c;
     _status := _status c; _connected := _connected c;
     _event_emitter := f; transport_error := transport_error c;
     clock := clock c; trace := trace c |}.

Definition with_transport_error (f : Z -> option exn) (c : HydraConnection) :=
  {| _websocket_url := _websocket_url c; _websocket := _websocket c;
     _status := _status c; _connected := _connected c;
     _event_emitter := _event_emitter c; transport_error := f;
     clock := clock c; trace := trace c |}.

Definition perform (e : effect) (c : HydraConnection) :=
  {| _websocket_url := _websocket_url c; _websocket := _websocket c;
     _status := _status c; _connected := _connected c;
     _event_emitter := _event_emitter c; transport_error := transport_error c;
     clock := clock c; trace := trace c ++ [e] |}.

(** [__init__], after the URL has been put together: a connection that
    nobody has subscribed to yet, on a network that takes every frame. *)
Definition init (websocket_url : string) (now : Z) : HydraConnection :=
  {| _websocket_url := websocket_url; _websocket := None;
     _status := IDLE; _connected := false;
     _event_emitter := fun _ => Return tt; transport_error := fun _ => None;
     clock := now; trace := [] |}.

(** [connect]: a fresh [WebSocketApp], status [CONNECTING], and a thread
    for [run_forever].  [net] is how the new socket will fare. *)
Definition connect (net : Z -> bool) (c : HydraConnection) : HydraConnection :=
  let url := _websocket_url c in
  perform (ThreadStart url)
    (with_status CONNECTING
       (with_websocket (Some {| app_url := url; sock_connected := net |}) c)).

(** [self._websocket and self._websocket.sock and
    self._websocket.sock.connected]. *)
Definition transport_open (c : HydraConnection) : bool :=
  match _websocket c with
  | Some ws => sock_connected ws (clock c)
  | None => false
  end.

(** [self._websocket.send(json.dumps(data), ...)]: the frame goes out, or
    the call raises and nothing was sent. *)
Definition websocket_send (data : json) (c : HydraConnection)
    : outcome bool * HydraConnection :=
  match transport_error c (clock c) with
  | None => (Return true, perform (WsSend data) c)
  | Some e => (Raise e, c)
  end.

(** The local function [send_data] of [send]. *)
Definition send_data (data : json) (c : HydraConnection)
    : outcome bool * HydraConnection :=
  if transport_open c then websocket_send data c else (Return false, c).

(** [time.sleep(1)]. *)
Definition sleep (seconds : Z) (c : HydraConnection) : HydraConnection :=
  perform (Sleep seconds) (with_clock (clock c + 1000 * seconds) c).

(** The [while] loop of [send]: [send_success] is false on entry of every
    iteration, so the condition is the test on the clock.  The loop ends
    with [send_data] having sent ([true]), with the window closed
    ([false]), or with the exception of the transport. *)
Equations? send_loop (data : json) (start_time : Z) (c : HydraConnection)
    : outcome bool * HydraConnection
    by wf (Z.to_nat (5000 - (clock c - start_time))) lt :=
  send_loop data start_time c with Z_lt_dec (clock c - start_time) 5000 := {
    | left _ with transport_open c := {
        | true => websocket_send data c
        | false => send_loop data start_time (sleep 1 c) }
    | right _ => (Return false, c) }.
Proof. simpl. lia. Qed.

(** [send]: it returns [None], unless the transport raises: nothing in
    [send] catches that. *)
Definition send (data : json) (c : HydraConnection)
    : outcome value * HydraConnection :=
  let '(sent, c1) := send_data data c in
  match sent with
  | Raise e => (Raise e, c1)
  | Return true => (Return VNone, c1)
  | Return false =>
      let start_time := clock c1 in
      let '(send_success, c2) := send_loop data start_time c1 in
      match send_success with
      | Raise e => (Raise e, c2)
      | Return true => (Return VNone, c2)
      | Return false => (Return VNone, perform (Print (LogSendFailed data)) c2)
      end
  end.

(** [self._websocket.close(status=...)]: the close frame goes out and the
    application drops its socket. *)
Definition close_websocket (status : Z) (c : HydraConnection) : HydraConnection :=
  match _websocket c with
  | Some ws =>
      perform (WsClose status)
        (with_websocket
           (Some {| app_url := app_url ws; sock_connected := fun _ => false |}) c)
  | None => c
  end.

Definition emit (e : event) (c : HydraConnection) : HydraConnection :=
  perform (Emit e) c.

(** What [self._event_emitter.emit] gives back to the method that calls
    it: nothing, or the exception of a subscriber. *)
Definition emit_outcome (e : event) (c : HydraConnection) : outcome unit :=
  _event_emitter c e.

(** [disconnect]: the connection after the call.  The event is emitted
    last, so this is the connection whether or not a subscriber raises. *)
Definition disconnect (c : HydraConnection) : HydraConnection :=
  if decide (_status c = IDLE) then c
  else
    let c1 := if transport_open c then close_websocket 1007 c else c in
    let c2 := with_connected false (with_status IDLE c1) in
    emit (OnStatusChange (_status c2)) c2.

(** [process_status]: the connection after the call, and what the caller
    gets; here too the event is emitted last. *)
Definition process_status (message : gmap string json) (c : HydraConnection)
    : HydraConnection :=
  match hydra_status message with
  | Some status => emit (OnStatusChange status) (with_status status c)
  | None => c
  end.

Definition process_status_outcome (message : gmap string json)
    (c : HydraConnection) : outcome unit :=
  match hydra_status message with
  | Some status => emit_outcome (OnStatusChange status) c
  | None => Return tt
  end.

(** [_on_open]. *)
Definition _on_open (c : HydraConnection) : HydraConnection :=
  perform (Print LogConnected) (with_status CONNECTED (with_connected true c)).

(** The [except json.JSONDecodeError] clause of [_on_message], applied to
    an exception raised inside the [try] block. *)
Definition except_JSONDecodeError (e : exn) (c : HydraConnection)
    : outcome unit * HydraConnection :=
  if is_JSONDecodeError e then (Return tt, perform (Print LogParseFailure) c)
  else (Raise e, c).

(** [_on_message].  [parsed] is what [json.loads(message)] gives, [None]
    when it raises [JSONDecodeError].  Only that error is caught.  The
    exception of a subscriber of ["onmessage"] leaves the [try] block
    before [process_status] is reached; a frame that is JSON but no object
    fails in [hydra_status] at [value.get]; the exception of a subscriber
    of ["onstatuschange"] comes after the status is set. *)
Definition _on_message (parsed : option json) (c : HydraConnection)
    : outcome unit * HydraConnection :=
  match parsed with
  | None => (Return tt, perform (Print LogParseFailure) c)
  | Some message_data =>
      let c1 := emit (OnMessage message_data)
                  (perform (Print (LogReceived message_data)) c) in
      match emit_outcome (OnMessage message_data) c with
      | Raise e => except_JSONDecodeError e c1
      | Return _ =>
          match message_data with
          | JObj m =>
              match process_status_outcome m c1 with
              | Raise e => except_JSONDecodeError e (process_status m c1)
              | Return _ => (Return tt, process_status m c1)
              end
          | _ => (Raise (AttributeError "object has no attribute 'get'"), c1)
          end
      end
  end.

(** [_on_error]. *)
Definition _on_error (c : HydraConnection) : HydraConnection :=
  with_connected false (perform (Print LogError) c).

(** [_on_close]: the connection after the call; here again the event is
    emitted last. *)
Definition _on_close (close_status_code : option Z) (close_msg : option string)
    (c : HydraConnection) : HydraConnection :=
  let c1 := perform (Print (LogClosed close_status_code close_msg)) c in
  let c2 := with_connected false (with_status DISCONNECTED c1) in
  emit (OnStatusChange (_status c2)) c2.

(** The status-change events among some effects. *)
Definition status_events (l : list effect) : list HydraStatus :=
  omap (fun e => match e with Emit (OnStatusChange s) => Some s | _ => None end) l.

Definition closes (l : list effect) : list Z :=
  omap (fun e => match e with WsClose s => Some s | _ => None end) l.

Definition sent_frames (l : list effect) : list json :=
  omap (fun e => match e with WsSend p => Some p | _ => None end) l.

Definition threads_started (l : list effect) : list string :=
  omap (fun e => match e with ThreadStart u => Some u | _ => None end) l.

(** [__init__]: the websocket URL is the given one, or the HTTP URL with
    every ["http"] replaced by ["ws"]; the history parameter is always
    there, the address parameter only for a non-empty address. *)
Definition websocket_url (http_url : string) (history : bool)
    (address ws_url : option string) : string :=
  let ws_url :=
    match ws_url with
    | Some (String c s) => String c s
    | _ => Text.replace "http" "ws" http_url
    end in
  let history_param := "history=" +:+ (if history then "yes" else "no") in
  let address_param :=
    match address with
    | Some (String c s) => "&address=" +:+ String c s
    | _ => ""
    end in
  ws_url +:+ "/?" +:+ history_param +:+ address_param.

Definition __init__ (http_url : string) (event_emitter : event -> outcome unit)
    (history : bool) (address ws_url : option string) (now : Z)
    : HydraConnection :=
  with_event_emitter event_emitter
    (init (websocket_url http_url history address ws_url) now).

End Connection.

(* ===================================================================== *)
(** * utils/parse_error.py and providers/hydra_provider.py                *)
(* ===================================================================== *)

Module Provider.

Section WithBuiltins.

(** [str(...)] and [json.dumps(...)] of the standard library.  Their exact
    output plays no part below, so they are taken as given. *)
Variable str : value -> string.
Variable json_dumps : json -> string.

Definition headers_json (h : list (string * string)) : json :=
  JObj (list_to_map (prod_map id JStr <$> h)).

Definition option_json {A} (f : A -> json) (o : option A) : json :=
  match o with Some a => f a | None => JNull end.

(** [parse_error]: it returns text, for any argument. *)
Definition parse_error (error : value) : string :=
  match error with
  | VExn (RequestException response request errno _) =>
      match response with
      | Some r =>
          json_dumps (JObj (list_to_map
            [("data", JStr (text r)); ("headers", headers_json (headers r));
             ("status", JNum (status_code r))]))
      | None =>
          match request with
          | Some q =>
              json_dumps (JObj (list_to_map
                [("method", JStr (method q)); ("url", JStr (url q));
                 ("headers", headers_json (request_headers q))]))
          | None =>
              json_dumps (JObj (list_to_map
                [("code", option_json JNum errno); ("message", JStr (str error))]))
          end
      end
  | _ => json_dumps (JStr (str error))
  end.

(** The provider.  Its own [_status] is the flag [connect] tests; the
    ["onmessage"] listeners of [wait_for_tx_response] are recorded by the
    transaction each waits for. *)
Record HydraProvider := {
  _status : HydraStatus;
  _http_url : string;
  _connection : Connection.HydraConnection;
  listeners : list string
}.

Definition with_connection (c : Connection.HydraConnection) (p : HydraProvider) :=
  {| _status := _status p; _http_url := _http_url p; _connection := c;
     listeners := listeners p |}.

Definition with_status (s : HydraStatus) (p : HydraProvider) :=
  {| _status := s; _http_url := _http_url p; _connection := _connection p;
     listeners := listeners p |}.

Definition with_listeners (l : list string) (p : HydraProvider) :=
  {| _status := _status p; _http_url := _http_url p;
     _connection := _connection p; listeners := l |}.

(** [__init__]. *)
Definition init (http_url websocket_url : string) (now : Z) : HydraProvider :=
  {| _status := DISCONNECTED; _http_url := http_url;
     _connection := Connection.init websocket_url now; listeners := [] |}.

(** [connect]. *)
Definition connect (net : Z -> bool) (p : HydraProvider) : HydraProvider :=
  if decide (_status p <> DISCONNECTED) then p
  else with_status CONNECTED
         (with_connection (Connection.connect net (_connection p)) p).

(** The payload of [new_tx]. *)
Definition new_tx_payload (cbor_hex type description : string)
    (tx_id : option string) : json :=
  JObj (list_to_map
    [("tag", JStr "NewTx");
     ("transaction", JObj (list_to_map
        [("type", JStr type); ("description", JStr description);
         ("cborHex", JStr cbor_hex); ("txId", option_json JStr tx_id)]))]).

(** [new_tx]: it awaits what [HydraConnection.send] returned. *)
Definition new_tx (cbor_hex type description : string) (tx_id : option string)
    (p : HydraProvider) : outcome unit * HydraProvider :=
  let payload := new_tx_payload cbor_hex type description tx_id in
  let '(r, c) := Connection.send payload (_connection p) in
  let p1 := with_connection c p in
  match r with
  | Return v => (await_non_awaitable v, p1)
  | Raise e => (Raise e, p1)
  end.

(** [message.get("transaction", {}).get("cborHex") == tx]. *)
Definition cbor_hex_is (message : gmap string json) (tx : string)
    : outcome bool :=
  match message !! "transaction" with
  | None => Return false
  | Some (JObj t) => Return (get_is t "cborHex" tx)
  | Some _ => Raise (AttributeError "object has no attribute 'get'")
  end.

(** [d[k]]. *)
Definition getitem (d : gmap string json) (k : string) : outcome json :=
  match d !! k with
  | Some v => Return v
  | None => Raise (KeyError k)
  end.

Definition getitem_json (j : json) (k : string) : outcome json :=
  match j with
  | JObj d => getitem d k
  | _ => Raise (TypeError "object is not subscriptable")
  end.

(** What the listener [callback] of [wait_for_tx_response] does to the
    pending future on one message: [None] leaves it pending, [Some r]
    completes it with a result or an exception. *)
Definition callback (tx : string) (message : gmap string json)
    : outcome (option (outcome json)) :=
  if get_is message "tag" "TxValid" then
    hit ← cbor_hex_is message tx;
    if hit : bool then
      t ← getitem message "transaction";
      id ← getitem_json t "txId";
      mret (Some (Return id))
    else mret None
  else if get_is message "tag" "TxInvalid" then
    hit ← cbor_hex_is message tx;
    if hit : bool then
      v ← getitem message "validationError";
      mret (Some (Raise (Exception (json_dumps v))))
    else mret None
  else mret None.

(** [wait_for_tx_response] against the messages the listener is called
    with, in order.  The listener is registered, the future is awaited,
    and the [finally] clause removes the listener when the wait ends.
    [None]: the future is still pending when the messages run out.  The
    waiter is taken to resume as soon as the listener has completed its
    future, as it does when the events are emitted on the waiter's own
    event loop; how an event loop treats a future that another thread
    completes is not modelled. *)
Fixpoint await_future (tx : string) (inbox : list (gmap string json))
    : option (outcome json) :=
  match inbox with
  | [] => None
  | message :: rest =>
      match callback tx message with
      | Return (Some r) => Some r
      | Return None => await_future tx rest
      | Raise _ => await_future tx rest   (* the listener failed; still pending *)
      end
  end.

Fixpoint remove_listener (tx : string) (l : list string) : list string :=
  match l with
  | [] => []
  | t :: r => if String.eqb t tx then r else t :: remove_listener tx r
  end.

Definition wait_for_tx_response (tx : string)
    (inbox : list (gmap string json)) (p : HydraProvider)
    : option (outcome json) * HydraProvider :=
  let p1 := with_listeners (listeners p ++ [tx]) p in
  match await_future tx inbox with
  | Some r => (Some r, with_listeners (remove_listener tx (listeners p1)) p1)
  | None => (None, p1)
  end.

(** [submit_tx].  [None]: the caller is still suspended. *)
Definition submit_tx (tx : string) (inbox : list (gmap string json))
    (p : HydraProvider) : option (outcome json) * HydraProvider :=
  let '(r, p1) := new_tx tx "Witnessed Tx ConwayEra" "" None p in
  let '(body, p2) :=
    match r with
    | Return _ => wait_for_tx_response tx inbox p1
    | Raise e => (Some (Raise e), p1)
    end in
  match body with
  | Some (Raise error) =>
      (* except Exception as error: raise parse_error(error) *)
      (Some (raise_ (VStr (parse_error (VExn error)))), p2)
  | _ => (body, p2)
  end.

(** [response.json()]. *)
Definition response_json (r : Response) : outcome json :=
  match body r with
  | Some j => Return j
  | None => Raise (RequestException None None None "Expecting value")
  end.

(** The body shared by [get] and [post]; [response] is the outcome of
    [self._session.get(...)], respectively [self._session.post(...)]. *)
Definition request (response : outcome Response) : outcome json :=
  try_except
    (r ← response;
     if decide (status_code r = 200 \/ status_code r = 202)
     then response_json r
     else j ← response_json r; raise_ (VStr (parse_error (VJson j))))
    is_Exception
    (fun error => raise_ (VStr (parse_error (VExn error)))).

Definition get (response : outcome Response) : outcome json := request response.

Definition post (response : outcome Response) : outcome json := request response.

End WithBuiltins.

(** ** The commands *)

(** What every command method does: hand one payload to the connection,
    drop what [send] returned, and return [None]. *)
Definition send_command (payload : json) (p : HydraProvider)
    : outcome value * HydraProvider :=
  let '(r, c) := Connection.send payload (_connection p) in
  (_ ← r; mret VNone, with_connection c p).

Definition tagged (tag : string) : json :=
  JObj (list_to_map [("tag", JStr tag)]).


(** [decommit]. *)
Definition decommit_payload (cbor_hex type description : string) : json :=
  JObj (list_to_map
    [("tag", JStr "Decommit");
     ("decommitTx", JObj (list_to_map
        [("type", JStr type); ("description", JStr description);
         ("cborHex", JStr cbor_hex)]))]).

Definition decommit (cbor_hex type description : string) (p : HydraProvider) :=
  send_command (decommit_payload cbor_hex type description) p.

End Provider.

(* ===================================================================== *)
(** * models/assets.py                                                    *)
(* ===================================================================== *)

Module Assets.

(** [HydraAssets = Dict[str, int]]. *)
Abbreviation HydraAssets := (list (string * Z)).

(** pycardano's [ScriptHash] and [AssetName] are [ConstrainedBytes]: the
    constructor asserts the size of the payload (28 bytes exactly for a
    script hash, at most 32 for an asset name) and keeps it. *)
Definition ScriptHash (payload : bytes) : outcome bytes :=
  if decide (length payload = 28%nat) then Return payload
  else Raise (AssertionError "Invalid byte size for class ScriptHash").

Definition AssetName (payload : bytes) : outcome bytes :=
  if decide (length payload <= 32)%nat then Return payload
  else Raise (AssertionError "Invalid byte size for class AssetName").

(** pycardano's [MultiAsset] and [Asset] are dictionaries; a [Value] is a
    coin and a multi-asset.  [to_assets] returns the same two parts under
    the keys ["coin"] and ["multi_asset"]. *)
Abbreviation Asset := (list (bytes * Z)).
Abbreviation MultiAsset := (list (bytes * list (bytes * Z))).

Record Value := {
  coin : Z;
  multi_asset : MultiAsset
}.

(** The tuples a caller hands to [hydra_assets]: the loop unpacks two
    names, the annotation and [hydra_assets_from_value] give three. *)
Inductive entry :=
| Pair (unit : string) (quantity : Z)
| Triple (policy_id : string) (asset_name : bytes) (quantity : Z).

Definition negative_asset (unit : string) (quantity : Z) : exn :=
  ValueError ("Negative quantity for asset " +:+ unit +:+ ": " +:+ pretty quantity).

(** The body of the [for] loop of [hydra_assets]. *)
Fixpoint hydra_assets_loop (assets : list entry) (result : HydraAssets)
    : outcome HydraAssets :=
  match assets with
  | [] => Return result
  | Pair unit quantity :: rest =>
      if quantity <? 0 then Raise (negative_asset unit quantity)
      else
        let unit := if String.eqb unit "" then "lovelace" else unit in
        hydra_assets_loop rest
          (dict_set result unit (default 0 (dict_get result unit) + quantity))
  | Triple _ _ _ :: _ =>
      Raise (ValueError "too many values to unpack (expected 2)")
  end.

(** [hydra_assets]. *)
Definition hydra_assets (assets : list entry) : outcome HydraAssets :=
  result ← hydra_assets_loop assets [("lovelace", 0)];
  mret (filter (fun kv => snd kv <> 0) result).

(** [multi_asset[policy_hash][asset_name] = quantity], after
    [if policy_hash not in multi_asset: multi_asset[policy_hash] = {}]. *)
Definition set_asset (ma : MultiAsset) (policy_hash asset_name : bytes)
    (quantity : Z) : MultiAsset :=
  dict_set ma policy_hash
    (dict_set (default [] (dict_get ma policy_hash)) asset_name quantity).

Definition invalid_policy_id (unit : string) : exn :=
  ValueError ("Invalid policy_id in unit: " +:+ unit).

(** The [try] block shared by [to_assets] and [hydra_assets_to_value],
    with its [except ValueError] clause.  The test on an empty policy id is
    the one of [hydra_assets_to_value]; in [to_assets] the policy id has 56
    characters, and the empty asset name gives [AssetName(b"")] either
    way. *)
Definition add_asset (unit policy_id asset_name : string) (quantity : Z)
    (ma : MultiAsset) : outcome MultiAsset :=
  try_except
    (policy_hash ← (if String.eqb policy_id "" then ScriptHash []
                    else b ← fromhex policy_id; ScriptHash b);
     asset_name_obj ← (if String.eqb asset_name "" then AssetName []
                       else AssetName (encode_utf8 asset_name));
     mret (set_asset ma policy_hash asset_name_obj quantity))
    is_ValueError
    (fun _ => Raise (invalid_policy_id unit)).

(** [to_assets]. *)
Fixpoint to_assets_loop (items : HydraAssets) (result : Value)
    : outcome Value :=
  match items with
  | [] => Return result
  | (unit, quantity) :: rest =>
      if quantity =? 0 then to_assets_loop rest result
      else if quantity <? 0 then
        Raise (ValueError ("Negative quantity for unit " +:+ unit +:+ ": "
                             +:+ pretty quantity))
      else if String.eqb unit "lovelace" then
        to_assets_loop rest {| coin := quantity; multi_asset := multi_asset result |}
      else if len unit <? 56 then
        Raise (ValueError ("Invalid unit length: " +:+ unit))
      else
        ma ← add_asset unit (prefix 56 unit) (suffix 56 unit) quantity
               (multi_asset result);
        to_assets_loop rest {| coin := coin result; multi_asset := ma |}
  end.

Definition to_assets (hydra_assets : HydraAssets) : outcome Value :=
  to_assets_loop hydra_assets {| coin := 0; multi_asset := [] |}.

(** [hydra_assets_from_value]. *)
Definition value_entries (value : Value) : list entry :=
  (if 0 <? coin value then [Triple "" [] (coin value)] else [])
  ++ (policy ← multi_asset value;
      (fun a => Triple (hex policy.1) a.1 a.2) <$> policy.2).

Definition hydra_assets_from_value (value : Value) : outcome HydraAssets :=
  hydra_assets (value_entries value).

(** [hydra_assets_to_value]. *)
Fixpoint hydra_assets_to_value_loop (items : HydraAssets) (result : Value)
    : outcome Value :=
  match items with
  | [] => Return result
  | (unit, quantity) :: rest =>
      if String.eqb unit "lovelace" then
        hydra_assets_to_value_loop rest
          {| coin := quantity; multi_asset := multi_asset result |}
      else
        let policy_id := if 56 <=? len unit then prefix 56 unit else "" in
        let asset_name := if 56 <? len unit then suffix 56 unit else "" in
        ma ← add_asset unit policy_id asset_name quantity (multi_asset result);
        hydra_assets_to_value_loop rest {| coin := coin result; multi_asset := ma |}
  end.

Definition hydra_assets_to_value (hydra_assets : HydraAssets) : outcome Value :=
  hydra_assets_to_value_loop hydra_assets {| coin := 0; multi_asset := [] |}.

End Assets.

(* ===================================================================== *)
(** * models/hydra_reference_script.py                                    *)
(* ===================================================================== *)

Module Script.

(** What [cbor2.loads] returns: integers, byte and text strings, lists,
    maps, tagged values ([CBORTag]) and the simple values. *)
Inductive cbor :=
| CInt (z : Z)
| CBytes (b : bytes)
| CText (s : string)
| CList (l : list cbor)
| CMap (l : list (cbor * cbor))
| CTag (tag : Z) (v : cbor)
| CBool (b : bool)
| CNone
| CUndefined.

Record HydraScriptInfomation (script : Type) := {
  script_instance : option script;
  script_type : string;
  script_language : option string
}.
Arguments script_instance {script} _.
Arguments script_type {script} _.
Arguments script_language {script} _.

Record HydraReferenceScript := {
  ref_script_language : string;
  ref_cborHex : string;
  ref_description : string;
  ref_type : string
}.

Section WithLibraries.

(** The library calls of the module: [cbor2.loads] (applied first to
    bytes, then to whatever the tag wraps), pycardano's
    [NativeScript.from_primitive] and [PlutusScript.from_version], and the
    truth value of a script instance. *)
Variable script : Type.
Variable loads : cbor -> outcome cbor.
Variable NativeScript_from_primitive : cbor -> outcome script.
Variable PlutusScript_from_version : cbor -> cbor -> outcome script.
Variable truthy : script -> bool.

Definition unknown : HydraScriptInfomation script :=
  {| script_instance := None; script_type := "Unknown"; script_language := None |}.

(** [v == n] for an integer literal [n]: [True] and [False] compare as 1
    and 0. *)
Definition eq_int (v : cbor) (n : Z) : bool :=
  match v with
  | CInt z => z =? n
  | CBool b => (if b then 1 else 0) =? n
  | _ => false
  end.

(** [f"{v}"] for the values that pass [v in (1, 2, 3)]. *)
Definition format (v : cbor) : string :=
  match v with
  | CInt z => pretty z
  | CBool true => "True"
  | CBool false => "False"
  | _ => ""
  end.

(** The body of the [try] block of [get_reference_script_info]. *)
Definition classify (script_ref : string)
    : outcome (HydraScriptInfomation script) :=
  cbor_bytes ← fromhex script_ref;
  cbor_data ← loads (CBytes cbor_bytes);
  match cbor_data with
  | CTag 24 value =>
      script_data ← loads value;
      match script_data with
      | CList [script_type_id; script_content] =>
          if eq_int script_type_id 0 then
            instance ← NativeScript_from_primitive script_content;
            mret {| script_instance := Some instance;
                    script_type := "SimpleScript";
                    script_language := Some "NativeScriptLanguage SimpleScript" |}
          else if eq_int script_type_id 1 || eq_int script_type_id 2
                  || eq_int script_type_id 3 then
            instance ← PlutusScript_from_version script_type_id script_content;
            mret {| script_instance := Some instance;
                    script_type := "PlutusScriptV" +:+ format script_type_id;
                    script_language :=
                      Some ("PlutusScriptLanguage PlutusScriptV"
                              +:+ format script_type_id) |}
          else mret unknown
      | _ => mret unknown
      end
  | _ => mret unknown
  end.

(** [get_reference_script_info]: [except (ValueError, cbor2.CBORError)]
    prints the error and leaves the three defaults. *)
Definition get_reference_script_info (script_ref : option string)
    : outcome (HydraScriptInfomation script) :=
  match script_ref with
  | None => Return unknown
  | Some "" => Return unknown
  | Some ref =>
      try_except (classify ref)
        (fun e => is_ValueError e || is_CBORError e)
        (fun _ => Return unknown)
  end.

(** [hydra_reference_script]. *)
Definition hydra_reference_script (script_reference : option string)
    : outcome (option HydraReferenceScript) :=
  info ← get_reference_script_info script_reference;
  match script_reference, script_instance info, script_language info with
  | Some (String c s), Some instance, Some language =>
      if truthy instance && negb (String.eqb language "") then
        mret (Some {| ref_script_language := language;
                      ref_cborHex := String c s;
                      ref_description := "";
                      ref_type := script_type info |})
      else mret None
  | _, _, _ => mret None
  end.

End WithLibraries.

(** ** A reference decoder

    [cbor2.loads] on definite-length items (RFC 8949): unsigned and negative
    integers, byte strings, text strings, arrays, maps, tags and the simple
    values false, true, null and undefined.  Trailing bytes are ignored, as
    [loads] does.  Tags are returned as [CBORTag]; floats, indefinite
    lengths and text beyond code point 255 are outside this fragment and
    are reported as decode errors. *)

Definition eof : exn := CBORDecodeError "premature end of stream".

Fixpoint big_endian (acc : N) (b : bytes) : N :=
  match b with
  | [] => acc
  | c :: r => big_endian (256 * acc + N_of_ascii c) r
  end.

Definition split_bytes (n : N) (b : bytes) : outcome (bytes * bytes) :=
  if (N.of_nat (length b) <? n)%N then Raise eof
  else Return (take (N.to_nat n) b, drop (N.to_nat n) b).

(** The argument that follows an initial byte with additional
    information [ai]. *)
Definition read_argument (ai : N) (b : bytes) : outcome (N * bytes) :=
  if (ai <? 24)%N then Return (ai, b)
  else if (ai =? 24)%N then '(h, r) ← split_bytes 1 b; mret (big_endian 0 h, r)
  else if (ai =? 25)%N then '(h, r) ← split_bytes 2 b; mret (big_endian 0 h, r)
  else if (ai =? 26)%N then '(h, r) ← split_bytes 4 b; mret (big_endian 0 h, r)
  else if (ai =? 27)%N then '(h, r) ← split_bytes 8 b; mret (big_endian 0 h, r)
  else Raise (CBORDecodeError "unknown unsigned integer subtype").

(** UTF-8 text of code points below 256. *)
Fixpoint decode_utf8 (b : bytes) : option string :=
  match b with
  | [] => Some EmptyString
  | c :: r =>
      let n := N_of_ascii c in
      if (n <? 128)%N then String c <$> decode_utf8 r
      else if ((n =? 194) || (n =? 195))%N then
        match r with
        | d :: r' =>
            let m := N_of_ascii d in
            if ((128 <=? m) && (m <? 192))%N
            then String (ascii_of_N ((n - 192) * 64 + (m - 128))) <$> decode_utf8 r'
            else None
        | [] => None
        end
      else None
  end.

Section Items.
Variable decode_item : bytes -> outcome (cbor * bytes).

Fixpoint decode_items (n : nat) (b : bytes) : outcome (list cbor * bytes) :=
  match n with
  | O => Return ([], b)
  | S n' =>
      '(x, r) ← decode_item b;
      '(xs, r') ← decode_items n' r;
      mret (x :: xs, r')
  end.

Fixpoint decode_pairs (n : nat) (b : bytes)
    : outcome (list (cbor * cbor) * bytes) :=
  match n with
  | O => Return ([], b)
  | S n' =>
      '(k, r) ← decode_item b;
      '(v, r') ← decode_item r;
      '(xs, r'') ← decode_pairs n' r';
      mret ((k, v) :: xs, r'')
  end.
End Items.

(** One data item.  Every nested item starts at least one byte further,
    so [fuel] above the length of the input is never exhausted. *)
Fixpoint decode (fuel : nat) (b : bytes) : outcome (cbor * bytes) :=
  match fuel, b with
  | O, _ => Raise eof
  | _, [] => Raise eof
  | S fuel', c :: rest =>
      let major := (N_of_ascii c / 32)%N in
      let ai := (N_of_ascii c mod 32)%N in
      if (major =? 7)%N then
        if (ai =? 20)%N then Return (CBool false, rest)
        else if (ai =? 21)%N then Return (CBool true, rest)
        else if (ai =? 22)%N then Return (CNone, rest)
        else if (ai =? 23)%N then Return (CUndefined, rest)
        else Raise (CBORDecodeError "special value outside the fragment")
      else
        '(arg, r) ← read_argument ai rest;
        if (major =? 0)%N then Return (CInt (Z.of_N arg), r)
        else if (major =? 1)%N then Return (CInt (- 1 - Z.of_N arg), r)
        else if (major =? 2)%N then
          '(s, r') ← split_bytes arg r; mret (CBytes s, r')
        else if (major =? 3)%N then
          '(s, r') ← split_bytes arg r;
          match decode_utf8 s with
          | Some t => mret (CText t, r')
          | None => Raise (CBORDecodeError "error decoding unicode string")
          end
        else if (major =? 4)%N then
          if (N.of_nat (length r) <? arg)%N then Raise eof
          else '(xs, r') ← decode_items (decode fuel') (N.to_nat arg) r;
               mret (CList xs, r')
        else if (major =? 5)%N then
          if (N.of_nat (length r) <? arg)%N then Raise eof
          else '(xs, r') ← decode_pairs (decode fuel') (N.to_nat arg) r;
               mret (CMap xs, r')
        else
          '(v, r') ← decode fuel' r; mret (CTag (Z.of_N arg) v, r')
  end.

(** [cbor2.loads]: the argument goes through [BytesIO], which takes
    [None] for no bytes at all and refuses whatever else is not
    bytes-like. *)
Definition cbor2_loads (s : cbor) : outcome cbor :=
  match s with
  | CBytes b => '(v, _) ← decode (S (length b)) b; mret v
  | CNone => Raise eof
  | _ => Raise (TypeError "a bytes-like object is required")
  end.

(** pycardano's [PlutusScript.from_version] and
    [NativeScript.from_primitive], as far as the classifier's examples go:
    a Plutus script is the byte string under its version, which is one of
    the integers 1, 2 and 3; a native script is a list that starts with a
    known type indicator, and what follows the indicator is not validated
    here. *)
Inductive script_model :=
| Native (primitive : list cbor)
| Plutus (version : Z) (script_data : bytes).

(** [bytes(x)] for what a decoded item can be. *)
Fixpoint byte_values (l : list cbor) : outcome bytes :=
  match l with
  | [] => Return []
  | CInt n :: r =>
      if (0 <=? n) && (n <? 256)
      then b ← byte_values r; mret (ascii_of_N (Z.to_N n) :: b)
      else Raise (ValueError "bytes must be in range(0, 256)")
  | _ :: _ => Raise (TypeError "object cannot be interpreted as an integer")
  end.

Definition to_bytes (x : cbor) : outcome bytes :=
  match x with
  | CBytes b => Return b
  | CInt n =>
      if n <? 0 then Raise (ValueError "negative count")
      else Return (replicate (Z.to_nat n) Ascii.zero)
  | CBool b => Return (if b then [Ascii.zero] else [])
  | CList l => byte_values l
  | _ => Raise (TypeError "cannot convert object to bytes")
  end.

Definition from_version (version script_data : cbor) : outcome script_model :=
  match version with
  | CInt n =>
      if (1 <=? n) && (n <=? 3) then b ← to_bytes script_data; mret (Plutus n b)
      else Raise (ValueError "No plutus script class found for version")
  | _ => Raise (ValueError "No plutus script class found for version")
  end.

Definition from_primitive (value : cbor) : outcome script_model :=
  match value with
  | CList (CInt t :: args) =>
      if (0 <=? t) && (t <=? 5) then Return (Native (CInt t :: args))
      else Raise (DeserializeException "Unknown script type indicator")
  | _ => Raise (DeserializeException "not a list")
  end.

Definition script_truthy (s : script_model) : bool :=
  match s with
  | Native _ => true
  | Plutus _ b => negb (bool_decide (b = []))
  end.

End Script.

(* ===================================================================== *)
(** * types/hydra_utxos.py                                                *)
(* ===================================================================== *)

Module Utxos.

Section WithInt.

(** The builtin [int] applied to text. *)
Variable int : string -> outcome Z.

Definition invalid_tx_id : exn := ValueError "Invalid TxId Format".

(** [isinstance(e, (ValueError, TypeError))]. *)
Definition is_ValueError_or_TypeError (e : exn) : bool :=
  match e with
  | ValueError _ | JSONDecodeError _ | TypeError _ => true
  | _ => false
  end.

(** [transaction_id, index = tx_id.split("#")]. *)
Definition unpack_two (pieces : list string) : outcome (string * string) :=
  match pieces with
  | [a; b] => Return (a, b)
  | _ :: _ :: _ :: _ => Raise (ValueError "too many values to unpack (expected 2)")
  | _ => Raise (ValueError "not enough values to unpack (expected 2)")
  end.

(** The [try] block that opens [to_utxo], with its [except] clause: the
    reference is split at ["#"] into a transaction id and an index. *)
Definition to_utxo_reference (tx_id : string) : outcome (string * Z) :=
  try_except
    ('(transaction_id, index) ← unpack_two (Text.split "#" tx_id);
     index ← int index;
     mret (transaction_id, index))
    is_ValueError_or_TypeError
    (fun _ => Raise invalid_tx_id).

End WithInt.

(** [f"{transaction_id}#{index}"], the reference [hydra_utxos] builds. *)
Definition tx_ref (transaction_id : string) (index : Z) : string :=
  transaction_id +:+ "#" +:+ pretty index.

Section WithOutputs.

(** pycardano's [UTxO] and the package's [HydraUTxO] are kept abstract:
    [hydra_utxos] uses [hydra_utxo] and the text and the index of the
    input. *)
Variables UTxO HydraUTxO : Type.
Variable hydra_utxo : UTxO -> outcome HydraUTxO.
Variable transaction_id : UTxO -> string.
Variable index : UTxO -> Z.

(** [await hydra_utxo(utxo)]: [hydra_utxo] is a plain function, and the
    dataclass instance it returns is no awaitable. *)
Definition await_hydra_utxo (v : HydraUTxO) : outcome HydraUTxO :=
  Raise (TypeError "object HydraUTxO can't be used in 'await' expression").

(** The [for] loop of [hydra_utxos]. *)
Fixpoint hydra_utxos_loop (utxos : list UTxO)
    (entries : list (string * HydraUTxO)) : outcome (list (string * HydraUTxO)) :=
  match utxos with
  | [] => Return entries
  | utxo :: rest =>
      let tx_ref := tx_ref (transaction_id utxo) (index utxo) in
      v ← hydra_utxo utxo;
      hydra_utxo_obj ← await_hydra_utxo v;
      hydra_utxos_loop rest (entries ++ [(tx_ref, hydra_utxo_obj)])
  end.

(** [hydra_utxos]: [dict(entries)] keeps the last entry of a key. *)
Definition hydra_utxos (utxos : list UTxO) : outcome (list (string * HydraUTxO)) :=
  entries ← hydra_utxos_loop utxos [];
  mret (foldl (fun d e => dict_set d (fst e) (snd e)) [] entries).

End WithOutputs.

End Utxos.

(* ===================================================================== *)
(** * providers/blockfrost_provider.py                                    *)
(* ===================================================================== *)

Module Blockfrost.

Section WithInt.

Variable int : string -> outcome Z.

(** [__to_assets]: the amounts of an output, each a unit and a quantity
    given as text. *)
Fixpoint __to_assets_loop (assets : list (string * string)) (result : Assets.Value)
    : outcome Assets.Value :=
  match assets with
  | [] => Return result
  | (unit, quantity) :: rest =>
      quantity ← int quantity;
      if quantity =? 0 then __to_assets_loop rest result
      else if quantity <? 0 then
        Raise (ValueError ("Negative quantity for unit " +:+ unit +:+ ": "
                             +:+ pretty quantity))
      else if String.eqb unit "lovelace" then
        __to_assets_loop rest
          {| Assets.coin := quantity;
             Assets.multi_asset := Assets.multi_asset result |}
      else if len unit <? 56 then
        Raise (ValueError ("Invalid unit length: " +:+ unit))
      else
        ma ← Assets.add_asset unit (prefix 56 unit) (suffix 56 unit) quantity
               (Assets.multi_asset result);
        __to_assets_loop rest
          {| Assets.coin := Assets.coin result; Assets.multi_asset := ma |}
  end.

Definition __to_assets (assets : list (string * string)) : outcome Assets.Value :=
  __to_assets_loop assets {| Assets.coin := 0; Assets.multi_asset := [] |}.

End WithInt.

End Blockfrost.

(* ===================================================================== *)
(** * instances/hydra_instance.py                                         *)
(* ===================================================================== *)

Module Instance.

Section WithCollaborators.

Variable str : value -> string.
Variable json_dumps : json -> string.

(** [pyhydra.utils.errors], which wraps the exception [commit_funds]
    raises when no UTxO is found. *)
Variable errors : exn -> outcome value.

(** [commit.get("cborHex")]. *)
Definition get_cborHex (commit : json) : outcome value :=
  match commit with
  | JObj d => Return (match d !! "cborHex" with
                      | Some v => VJson v
                      | None => VNone
                      end)
  | _ => Raise (AttributeError "object has no attribute 'get'")
  end.

(** [__commit_to_hydra]; [response] is the node's answer to the POST on
    [commit]. *)
Definition __commit_to_hydra (response : outcome Response) : outcome value :=
  commit ← Provider.post str json_dumps response;
  get_cborHex commit.

(** [__decommit_from_hydra]. *)
Definition __decommit_from_hydra (response : outcome Response) : outcome value :=
  decommit ← Provider.post str json_dumps response;
  mret (VJson decommit).

(** [commit_funds]; [utxos] is what the fetcher gives for the reference. *)
Definition commit_funds {UTxO : Type} (utxos : outcome (list UTxO))
    (response : outcome Response) : outcome value :=
  utxos ← utxos;
  match utxos with
  | [] => e ← errors (Exception "UTxO not found!"); raise_ e
  | utxo :: _ => __commit_to_hydra response
  end.

(** [incremental_commit_funds]: it awaits what [commit_funds] returned. *)
Definition incremental_commit_funds {UTxO : Type} (utxos : outcome (list UTxO))
    (response : outcome Response) : outcome value :=
  r ← commit_funds utxos response;
  await_non_awaitable r.

(** [decommit] and [incremental_decommit]: coroutines that are awaited as
    such. *)
Definition decommit (response : outcome Response) : outcome value :=
  __decommit_from_hydra response.

Definition incremental_decommit (response : outcome Response) : outcome value :=
  decommit response.

End WithCollaborators.

End Instance.

(* ===================================================================== *)
(** * Vocabulary of the statements, and example data                      *)
(* ===================================================================== *)

(** ** Connections *)

(** Whether the transport is open at instant [t]. *)
Definition open_at (c : Connection.HydraConnection) (t : Z) : bool :=
  Connection.transport_open (Connection.with_clock t c).

(** The connection after [k] rounds of [time.sleep(1)]. *)
Definition polls (c : Connection.HydraConnection) (k : nat)
    : Connection.HydraConnection :=
  Nat.iter k (Connection.sleep 1) c.

(** A connection that has been opened and is [CONNECTED]. *)
Definition connected_example : Connection.HydraConnection :=
  Connection._on_open
    (Connection.connect (fun _ => true)
       (Connection.init "ws://node:4001/?history=no" 0)).

(** A connection whose transport opens [ready_at] milliseconds after it
    was created. *)
Definition cold_start (ready_at : Z) : Connection.HydraConnection :=
  Connection.connect (fun t => ready_at <=? t)
    (Connection.init "ws://node:4001/?history=no" 0).

(** A fresh provider. *)
Definition provider_example : Provider.HydraProvider :=
  Provider.init "http://node:4001" "ws://node:4001/?history=no" 0.

(** What can happen to a connection: the calls of its user and the
    callbacks of its transport. *)
Inductive operation :=
| OpConnect (net : Z -> bool)
| OpSend (data : json)
| OpDisconnect
| OpOpen
| OpMessage (parsed : option json)
| OpError
| OpClose (close_status_code : option Z) (close_msg : option string).

Definition step (c : Connection.HydraConnection) (o : operation)
    : Connection.HydraConnection :=
  match o with
  | OpConnect net => Connection.connect net c
  | OpSend data => (Connection.send data c).2
  | OpDisconnect => Connection.disconnect c
  | OpOpen => Connection._on_open c
  | OpMessage parsed => (Connection._on_message parsed c).2
  | OpError => Connection._on_error c
  | OpClose code msg => Connection._on_close code msg c
  end.

Definition run (ops : list operation) (c : Connection.HydraConnection)
    : Connection.HydraConnection :=
  foldl step c ops.

(** The tags of the life cycle with the status each announces. *)
Definition tag_table : list (string * HydraStatus) :=
  [("HeadIsInitializing", INITIALIZING); ("HeadIsOpen", OPEN);
   ("HeadIsClosed", CLOSED); ("ReadyToFanout", FANOUT_POSSIBLE);
   ("HeadIsFinalized", FINAL)].

(** The statuses a protocol message can announce. *)
Definition head_statuses : list HydraStatus :=
  [INITIALIZING; OPEN; CLOSED; FANOUT_POSSIBLE; FINAL].

(** The statuses the connection announces: the two it sets on a
    disconnect or a close, and those a message can carry. *)
Definition publishable (s : HydraStatus) : Prop :=
  s = IDLE \/ s = DISCONNECTED \/ s ∈ head_statuses.

(** The messages published on ["onmessage"]. *)
Definition message_events (l : list Connection.effect) : list json :=
  omap (fun e => match e with
                 | Connection.Emit (Connection.OnMessage m) => Some m
                 | _ => None
                 end) l.

(** The message that opens the head. *)
Definition head_is_open : gmap string json :=
  <["tag" := JStr "HeadIsOpen"]> ∅.

(** ** Requests and messages *)

(** A message that says [headStatus: "Open"] under the tag
    ["HeadIsClosed"], and a greeting. *)
Definition open_under_closed_tag : gmap string json :=
  <["headStatus" := JStr "Open"]> (<["tag" := JStr "HeadIsClosed"]> ∅).

Definition greetings : gmap string json :=
  <["headStatus" := JStr "Idle"]> (<["tag" := JStr "Greetings"]> ∅).

(** What [raise] makes of the text [parse_error] returns. *)
Definition not_an_exception : exn :=
  TypeError "exceptions must derive from BaseException".

(** A 404 answer with a JSON body. *)
Definition not_found : Response :=
  {| status_code := 404; text := "{}";
     headers := [("Content-Type", "application/json")];
     body := Some (JObj ∅) |}.

(** A [TxValid] or [TxInvalid] message about the transaction [cbor_hex]. *)
Definition tx_message (tag cbor_hex : string) (fields : list (string * json))
    : gmap string json :=
  <["tag" := JStr tag]>
    (<["validationError" := JObj (<["reason" := JStr "bad input"]> ∅)]>
       (<["transaction" :=
            JObj (list_to_map (("cborHex", JStr cbor_hex) :: fields))]> ∅)).

(** ** Assets *)

(** The entries the specification speaks of: pairs of a unit and a
    quantity. *)
Definition pairs (entries : list (string * Z)) : list Assets.entry :=
  (fun e => Assets.Pair (fst e) (snd e)) <$> entries.

(** The unit an entry counts under: the empty unit is ["lovelace"]. *)
Definition canonical_unit (unit : string) : string :=
  if String.eqb unit "" then "lovelace" else unit.

(** The sum of the quantities given for a canonical unit. *)
Fixpoint total (entries : list (string * Z)) (unit : string) : Z :=
  match entries with
  | [] => 0
  | (u, q) :: rest =>
      (if decide (canonical_unit u = unit) then q else 0) + total rest unit
  end.

Definition quantity_of (d : list (string * Z)) (unit : string) : Z :=
  default 0 (dict_get d unit).

(** The shape of what [hydra_assets] returns: distinct units, positive
    quantities, no empty unit, and ["lovelace"] nowhere but in front. *)
Definition canonical (d : list (string * Z)) : Prop :=
  NoDup (dict_keys d) /\
  Forall (fun e => 0 < snd e) d /\
  ("" ∉ dict_keys d) /\
  ("lovelace" ∉ dict_keys (tail d)).

(** The digit [bytes.fromhex] holds while it reads a pair counts for one
    character. *)
Definition pending (top : option N) : nat :=
  match top with Some _ => 1 | None => 0 end.

(** Text made of hexadecimal digits only. *)
Fixpoint all_hex (s : string) : bool :=
  match s with
  | EmptyString => true
  | String c s' => bool_decide (is_Some (hex_digit c)) && all_hex s'
  end.

(** A unit [to_assets] can convert: ["lovelace"], or 56 hexadecimal digits
    followed by a name of at most 32 bytes. *)
Definition well_formed_unit (unit : string) : bool :=
  String.eqb unit "lovelace" ||
  ((56 <=? len unit) && all_hex (prefix 56 unit)
   && bool_decide (length (encode_utf8 (suffix 56 unit)) <= 32)%nat).

(** An entry [to_assets] accepts: a zero quantity under any unit, or a
    positive quantity under a well-formed unit. *)
Definition acceptable (e : string * Z) : Prop :=
  snd e = 0 \/ (0 < snd e /\ well_formed_unit (fst e) = true).

(** A policy id: 56 hexadecimal characters. *)
Definition policy_example : string :=
  "00112233445566778899aabbccddeeff00112233445566778899aabb".

(** The error of [for unit, quantity in assets] on a tuple of three. *)
Definition unpack_error : exn :=
  ValueError "too many values to unpack (expected 2)".

Definition is_triple (e : Assets.entry) : bool :=
  match e with Assets.Triple _ _ _ => true | Assets.Pair _ _ => false end.

(** ** Providers *)

(** What can happen to a provider: the calls of its user ([connect], the
    commands, [new_tx]) and the callbacks of the transport it owns. *)
Inductive provider_operation :=
| PConnect (net : Z -> bool)
| PCommand (payload : json)
| PNewTx (cbor_hex type description : string) (tx_id : option string)
| PTransportOpen
| PTransportMessage (parsed : option json)
| PTransportError
| PTransportClose (close_status_code : option Z) (close_msg : option string).

Definition provider_step (p : Provider.HydraProvider) (o : provider_operation)
    : Provider.HydraProvider :=
  match o with
  | PConnect net => Provider.connect net p
  | PCommand payload => (Provider.send_command payload p).2
  | PNewTx cbor_hex type description tx_id =>
      (Provider.new_tx cbor_hex type description tx_id p).2
  | PTransportOpen =>
      Provider.with_connection (Connection._on_open (Provider._connection p)) p
  | PTransportMessage parsed =>
      Provider.with_connection
        (Connection._on_message parsed (Provider._connection p)).2 p
  | PTransportError =>
      Provider.with_connection (Connection._on_error (Provider._connection p)) p
  | PTransportClose code msg =>
      Provider.with_connection
        (Connection._on_close code msg (Provider._connection p)) p
  end.

Definition provider_run (ops : list provider_operation)
    (p : Provider.HydraProvider) : Provider.HydraProvider :=
  foldl provider_step p ops.


(** ** References *)

(** An [int] for the examples: it reads the plain decimal numerals. *)
Definition digit (c : ascii) : option Z :=
  let n := N_of_ascii c in
  if ((48 <=? n) && (n <=? 57))%N then Some (Z.of_N n - 48) else None.

Fixpoint digits (acc : Z) (s : string) : option Z :=
  match s with
  | EmptyString => Some acc
  | String c s' =>
      match digit c with
      | Some d => digits (10 * acc + d) s'
      | None => None
      end
  end.

Definition decimal (s : string) : outcome Z :=
  match s with
  | EmptyString => Raise (ValueError "invalid literal for int() with base 10")
  | _ =>
      match digits 0 s with
      | Some n => Return n
      | None => Raise (ValueError "invalid literal for int() with base 10")
      end
  end.

(** The amounts of a Blockfrost output and the assets of a Hydra output
    that say the same: the same units, each quantity the text of the
    other. *)
Definition same_amounts (int : string -> outcome Z)
    (assets : list (string * string)) (h : list (string * Z)) : Prop :=
  Forall2 (fun a e => fst a = fst e /\ int (snd a) = Return (snd e)) assets h.

(* ===================================================================== *)
(** * Status extraction and the connection's life cycle                   *)
(* ===================================================================== *)

Section ConnectionFacts.
Import Connection.

Lemma get_is_true (d : gmap string json) (k s : string) :
  get_is d k s = true <-> d !! k = Some (JStr s).
Proof.
  unfold get_is. destruct (d !! k) as [[| | |v| |]|] eqn:E; split;
    try discriminate; try congruence.
  - intros H%String.eqb_eq. by subst.
  - intros [= ->]. apply String.eqb_refl.
Qed.

Lemma get_is_false (d : gmap string json) (k s : string) :
  get_is d k s = false <-> d !! k <> Some (JStr s).
Proof.
  rewrite <- get_is_true. destruct (get_is d k s); split; congruence.
Qed.

Lemma hydra_status_open (m : gmap string json) :
  m !! "headStatus" = Some (JStr "Open") -> hydra_status m = Some OPEN.
Proof.
  intros H%get_is_true. unfold hydra_status. by rewrite H.
Qed.

Lemma hydra_status_none (m : gmap string json) :
  m !! "headStatus" <> Some (JStr "Open") ->
  (forall tag, m !! "tag" = Some (JStr tag) -> tag ∉ lifecycle_tags) ->
  hydra_status m = None.
Proof.
  intros Hh Ht. unfold hydra_status.
  apply get_is_false in Hh. rewrite Hh.
  assert (forall t, t ∈ lifecycle_tags -> get_is m "tag" t = false) as Hno.
  { intros t Hin. apply get_is_false. intros E. by apply (Ht t). }
  rewrite !Hno; [done | | | | |]; unfold lifecycle_tags; set_solver.
Qed.

(** C10.  In status extraction the [headStatus] field takes precedence
    over the tag: a message whose [headStatus] is ["Open"] yields [OPEN]
    whatever its tag, and [process_status] then records [OPEN] and
    publishes it; when [headStatus] is not ["Open"] and the tag is none of
    the five life-cycle tags, no status is extracted, and [process_status]
    leaves the connection as it was, so no status-change event is
    published. *)
Theorem headStatus_takes_precedence
    (message : gmap string json) (c : HydraConnection) :
  (message !! "headStatus" = Some (JStr "Open") ->
     hydra_status message = Some OPEN /\
     process_status message c = emit (OnStatusChange OPEN) (with_status OPEN c)) /\
  (message !! "headStatus" <> Some (JStr "Open") ->
   (forall tag, message !! "tag" = Some (JStr tag) -> tag ∉ lifecycle_tags) ->
     hydra_status message = None /\
     process_status message c = c /\
     status_events (trace (process_status message c)) = status_events (trace c)).
Proof.
  split.
  - intros H. pose proof (hydra_status_open _ H) as E.
    split; [exact E |]. unfold process_status. by rewrite E.
  - intros Hh Ht. pose proof (hydra_status_none _ Hh Ht) as E.
    unfold process_status. by rewrite E.
Qed.

Lemma headStatus_takes_precedence_witness :
  (hydra_status open_under_closed_tag = Some OPEN /\
   process_status open_under_closed_tag connected_example
     = emit (OnStatusChange OPEN) (with_status OPEN connected_example)) /\
  (hydra_status greetings = None /\
   process_status greetings connected_example = connected_example /\
   status_events (trace (process_status greetings connected_example))
     = status_events (trace connected_example)).
Proof.
  split.
  - apply (proj1 (headStatus_takes_precedence open_under_closed_tag connected_example)).
    reflexivity.
  - apply (proj2 (headStatus_takes_precedence greetings connected_example)).
    + discriminate.
    + intros tag H. vm_compute in H. injection H as <-.
      rewrite list_elem_of_In. simpl. intuition discriminate.
Defined.

Lemma status_events_app (l1 l2 : list effect) :
  status_events (l1 ++ l2) = status_events l1 ++ status_events l2.
Proof. unfold status_events. apply omap_app. Qed.

Lemma closes_app (l1 l2 : list effect) :
  closes (l1 ++ l2) = closes l1 ++ closes l2.
Proof. unfold closes. apply omap_app. Qed.

Lemma transport_open_close (c : HydraConnection) (code : Z) :
  transport_open (close_websocket code c) = false.
Proof.
  unfold close_websocket, transport_open.
  destruct (_websocket c) eqn:E; simpl; [done | by rewrite E].
Qed.

(** C6, as the code has it.  [disconnect] from [IDLE] changes nothing and
    publishes nothing.  From any other status it closes the transport with
    code 1007 when the transport is open (and has nothing to close
    otherwise), sets the status to [IDLE] and the connected flag to false,
    and publishes exactly one status-change event, which carries [IDLE]. *)
Theorem disconnect_resets_to_idle (c : HydraConnection) :
  (_status c = IDLE -> disconnect c = c) /\
  (_status c <> IDLE ->
     _status (disconnect c) = IDLE /\
     _connected (disconnect c) = false /\
     transport_open (disconnect c) = false /\
     closes (trace (disconnect c))
       = closes (trace c) ++ (if transport_open c then [1007] else []) /\
     status_events (trace (disconnect c)) = status_events (trace c) ++ [IDLE]).
Proof.
  unfold disconnect. split; intros H.
  - by rewrite decide_True.
  - rewrite decide_False by done.
    destruct (transport_open c) eqn:Eo.
    + repeat split.
      * pose proof (transport_open_close c 1007) as Hc.
        unfold transport_open in *. exact Hc.
      * unfold close_websocket, transport_open in *.
        destruct (_websocket c); [| discriminate]. simpl.
        rewrite !closes_app. simpl. by rewrite app_nil_r.
      * unfold close_websocket, transport_open in *.
        destruct (_websocket c); [| discriminate]. simpl.
        rewrite !status_events_app. simpl. by rewrite app_nil_r.
    + repeat split.
      * exact Eo.
      * simpl. rewrite closes_app. simpl. by rewrite !app_nil_r.
      * simpl. by rewrite status_events_app.
Qed.

Lemma disconnect_resets_to_idle_witness :
  disconnect (init "ws://node:4001/?history=no" 0)
    = init "ws://node:4001/?history=no" 0 /\
  (_status (disconnect connected_example) = IDLE /\
   _connected (disconnect connected_example) = false /\
   transport_open (disconnect connected_example) = false /\
   closes (trace (disconnect connected_example))
     = closes (trace connected_example)
         ++ (if transport_open connected_example then [1007] else []) /\
   status_events (trace (disconnect connected_example))
     = status_events (trace connected_example) ++ [IDLE]).
Proof.
  split.
  - apply (proj1 (disconnect_resets_to_idle (init "ws://node:4001/?history=no" 0))).
    reflexivity.
  - apply (proj2 (disconnect_resets_to_idle connected_example)). discriminate.
Defined.

(** C6, as the claim words it, fails: after [disconnect] from [CONNECTED]
    the status is [IDLE], not [DISCONNECTED], and the one event published
    carries [IDLE]. *)
Lemma disconnect_does_not_set_disconnected :
  _status connected_example = CONNECTED /\
  _status (disconnect connected_example) = IDLE /\
  _status (disconnect connected_example) <> DISCONNECTED /\
  status_events (trace (disconnect connected_example)) = [IDLE].
Proof. repeat split; try reflexivity. discriminate. Qed.

(** The transport's own close callback is where [DISCONNECTED] is set. *)
Lemma on_close_sets_disconnected (code : option Z) (msg : option string)
    (c : HydraConnection) :
  _status (_on_close code msg c) = DISCONNECTED /\
  status_events (trace (_on_close code msg c))
    = status_events (trace c) ++ [DISCONNECTED].
Proof.
  split; [reflexivity |]. simpl. rewrite !status_events_app. simpl.
  by rewrite app_nil_r.
Qed.

End ConnectionFacts.

(* ===================================================================== *)
(** * The bounded retry of [send]                                         *)
(* ===================================================================== *)

Section SendFacts.
Import Connection.

Lemma open_at_now (c : HydraConnection) : open_at c (clock c) = transport_open c.
Proof. by destruct c. Qed.

Lemma open_at_sleep (c : HydraConnection) (n t : Z) :
  open_at (sleep n c) t = open_at c t.
Proof. reflexivity. Qed.

Lemma clock_sleep (c : HydraConnection) : clock (sleep 1 c) = clock c + 1000.
Proof. simpl. lia. Qed.

Lemma polls_succ (c : HydraConnection) (k : nat) :
  polls c (S k) = polls (sleep 1 c) k.
Proof. unfold polls. apply Nat.iter_succ_r. Qed.

Lemma clock_polls (c : HydraConnection) (k : nat) :
  clock (polls c k) = clock c + 1000 * Z.of_nat k.
Proof.
  induction k as [|k IH]; [simpl; lia |].
  change (polls c (S k)) with (sleep 1 (polls c k)).
  rewrite clock_sleep, IH. lia.
Qed.

Lemma trace_polls (c : HydraConnection) (k : nat) :
  trace (polls c k) = trace c ++ replicate k (Sleep 1).
Proof.
  induction k as [|k IH]; [by rewrite app_nil_r |].
  change (polls c (S k)) with (sleep 1 (polls c k)).
  unfold sleep, perform. cbn [trace with_clock]. rewrite IH, <- app_assoc.
  f_equal. rewrite replicate_S_end. reflexivity.
Qed.

Lemma transport_error_polls (c : HydraConnection) (k : nat) :
  transport_error (polls c k) = transport_error c.
Proof. induction k as [|k IH]; [done | exact IH]. Qed.

Lemma send_loop_unfold (data : json) (start_time : Z) (c : HydraConnection) :
  send_loop data start_time c =
    if decide (clock c - start_time < 5000) then
      if transport_open c then websocket_send data c
      else send_loop data start_time (sleep 1 c)
    else (Return false, c).
Proof.
  rewrite send_loop_equation_1.
  destruct (Z_lt_dec (clock c - start_time) 5000) as [Hlt|Hge].
  - rewrite decide_True by done. simp send_loop.
    destruct (transport_open c); simp send_loop; reflexivity.
  - rewrite decide_False by done. simp send_loop. reflexivity.
Qed.

Lemma send_loop_delivers (data : json) (start_time : Z) (k : nat) :
  forall c : HydraConnection,
    clock c - start_time + 1000 * Z.of_nat k < 5000 ->
    (forall j : nat, (j < k)%nat -> open_at c (clock c + 1000 * Z.of_nat j) = false) ->
    open_at c (clock c + 1000 * Z.of_nat k) = true ->
    send_loop data start_time c = websocket_send data (polls c k).
Proof.
  induction k as [|k IH]; intros c Hwin Hclosed Hopen;
    rewrite send_loop_unfold, decide_True by lia.
  - replace (clock c + 1000 * Z.of_nat 0) with (clock c) in Hopen by lia.
    rewrite open_at_now in Hopen. by rewrite Hopen.
  - pose proof (Hclosed 0%nat ltac:(lia)) as H0.
    replace (clock c + 1000 * Z.of_nat 0) with (clock c) in H0 by lia.
    rewrite open_at_now in H0. rewrite H0, polls_succ.
    apply IH.
    + rewrite clock_sleep. lia.
    + intros j Hj. rewrite open_at_sleep, clock_sleep.
      replace (clock c + 1000 + 1000 * Z.of_nat j)
        with (clock c + 1000 * Z.of_nat (S j)) by lia.
      apply Hclosed. lia.
    + rewrite open_at_sleep, clock_sleep.
      replace (clock c + 1000 + 1000 * Z.of_nat k)
        with (clock c + 1000 * Z.of_nat (S k)) by lia.
      exact Hopen.
Qed.

Lemma send_loop_gives_up (data : json) (start_time : Z) (n : nat) :
  forall c : HydraConnection,
    clock c - start_time + 1000 * Z.of_nat n = 5000 ->
    (forall j : nat, (j < n)%nat -> open_at c (clock c + 1000 * Z.of_nat j) = false) ->
    send_loop data start_time c = (Return false, polls c n).
Proof.
  induction n as [|n IH]; intros c Hwin Hclosed; rewrite send_loop_unfold.
  - by rewrite decide_False by lia.
  - rewrite decide_True by lia.
    pose proof (Hclosed 0%nat ltac:(lia)) as H0.
    replace (clock c + 1000 * Z.of_nat 0) with (clock c) in H0 by lia.
    rewrite open_at_now in H0. rewrite H0, polls_succ.
    apply IH.
    + rewrite clock_sleep. lia.
    + intros j Hj. rewrite open_at_sleep, clock_sleep.
      replace (clock c + 1000 + 1000 * Z.of_nat j)
        with (clock c + 1000 * Z.of_nat (S j)) by lia.
      apply Hclosed. lia.
Qed.

(** [send], when the transport is open at one of the five polls. *)
Lemma send_at_poll (data : json) (c : HydraConnection) (k : nat) :
  (k < 5)%nat ->
  (forall j : nat, (j < k)%nat -> open_at c (clock c + 1000 * Z.of_nat j) = false) ->
  open_at c (clock c + 1000 * Z.of_nat k) = true ->
  send data c =
    match transport_error c (clock c + 1000 * Z.of_nat k) with
    | None => (Return VNone, perform (WsSend data) (polls c k))
    | Some e => (Raise e, polls c k)
    end.
Proof.
  intros Hk Hclosed Hopen. unfold send, send_data.
  destruct (transport_open c) eqn:E.
  - destruct k as [|k].
    + unfold websocket_send.
      replace (clock c + 1000 * Z.of_nat 0) with (clock c) by lia.
      by destruct (transport_error c (clock c)).
    + pose proof (Hclosed 0%nat ltac:(lia)) as H0.
      replace (clock c + 1000 * Z.of_nat 0) with (clock c) in H0 by lia.
      rewrite open_at_now in H0. congruence.
  - rewrite (send_loop_delivers data (clock c) k c); [| lia | done | done].
    unfold websocket_send. rewrite transport_error_polls, clock_polls.
    by destruct (transport_error c (clock c + 1000 * Z.of_nat k)).
Qed.

(** [send], when the transport is open at none of them. *)
Lemma send_at_no_poll (data : json) (c : HydraConnection) :
  (forall j : nat, (j < 5)%nat -> open_at c (clock c + 1000 * Z.of_nat j) = false) ->
  send data c = (Return VNone, perform (Print (LogSendFailed data)) (polls c 5)).
Proof.
  intros Hclosed. unfold send, send_data.
  pose proof (Hclosed 0%nat ltac:(lia)) as H0.
  replace (clock c + 1000 * Z.of_nat 0) with (clock c) in H0 by lia.
  rewrite open_at_now in H0. rewrite H0.
  by rewrite (send_loop_gives_up data (clock c) 5 c); [| lia | done].
Qed.

(** C8, as the code has it.  [send] tests the transport at the call and 1,
    2, 3 and 4 seconds after it, sleeping one second after every test that
    finds it closed.  At the first test that finds the transport open it
    hands the message to the transport: the message goes out and [send]
    returns [None], or the transport raises and [send] raises with it.
    When no test finds the transport open, [send] prints the failure five
    seconds after the call, sends nothing and returns [None] without
    raising.  A transport that becomes ready after the test at 4 seconds is
    not seen, although it is ready before the five seconds are over. *)
Theorem send_polls_for_five_seconds (data : json) (c : HydraConnection) :
  (forall k : nat, (k < 5)%nat ->
     (forall j : nat, (j < k)%nat -> open_at c (clock c + 1000 * Z.of_nat j) = false) ->
     open_at c (clock c + 1000 * Z.of_nat k) = true ->
     send data c =
       match transport_error c (clock c + 1000 * Z.of_nat k) with
       | None => (Return VNone, perform (WsSend data) (polls c k))
       | Some e => (Raise e, polls c k)
       end) /\
  ((forall j : nat, (j < 5)%nat -> open_at c (clock c + 1000 * Z.of_nat j) = false) ->
     send data c = (Return VNone, perform (Print (LogSendFailed data)) (polls c 5))) /\
  (forall ready : Z,
     clock c + 4000 < ready < clock c + 5000 ->
     (forall t, open_at c t = true <-> ready <= t) ->
     send data c = (Return VNone, perform (Print (LogSendFailed data)) (polls c 5))) /\
  (forall k : nat,
     clock (polls c k) = clock c + 1000 * Z.of_nat k /\
     trace (polls c k) = trace c ++ replicate k (Sleep 1)).
Proof.
  split; [| split; [| split]].
  - intros k Hk Hclosed Hopen. by apply send_at_poll.
  - apply send_at_no_poll.
  - intros ready Hready Hopen. apply send_at_no_poll. intros j Hj.
    destruct (open_at c (clock c + 1000 * Z.of_nat j)) eqn:E; [| done].
    apply Hopen in E. lia.
  - intros k. split; [apply clock_polls | apply trace_polls].
Qed.

Lemma send_polls_for_five_seconds_witness :
  send (JStr "Init") (cold_start 3000)
    = (Return VNone, perform (WsSend (JStr "Init")) (polls (cold_start 3000) 3)) /\
  send (JStr "Init") (cold_start 1000000)
    = (Return VNone,
       perform (Print (LogSendFailed (JStr "Init"))) (polls (cold_start 1000000) 5)) /\
  send (JStr "Init") (cold_start 4500)
    = (Return VNone,
       perform (Print (LogSendFailed (JStr "Init"))) (polls (cold_start 4500) 5)).
Proof.
  split; [| split].
  - apply (proj1 (send_polls_for_five_seconds (JStr "Init") (cold_start 3000)) 3%nat).
    + lia.
    + intros j Hj. destruct j as [|[|[|j]]]; [reflexivity | reflexivity | reflexivity | lia].
    + reflexivity.
  - apply (proj1 (proj2 (send_polls_for_five_seconds (JStr "Init") (cold_start 1000000)))).
    intros j Hj.
    destruct j as [|[|[|[|[|j]]]]]; [reflexivity .. | lia].
  - apply (proj1 (proj2 (proj2
             (send_polls_for_five_seconds (JStr "Init") (cold_start 4500)))) 4500).
    + cbn. lia.
    + intros t. unfold open_at, cold_start. cbn. apply Z.leb_le.
Defined.

(** C8, as the claim words it, fails.  This transport becomes ready four
    and a half seconds after the call, within the window of five, and
    stays ready; [send] does not succeed: it tests at 4 seconds, sleeps,
    finds the window closed at 5 seconds, prints the failure and sends
    nothing.  And a transport that is open at the call but raises when it
    is given the message delivers nothing: [send] raises with it. *)
Lemma send_misses_a_transport_ready_in_time :
  open_at (cold_start 4500) 4000 = false /\
  open_at (cold_start 4500) 4500 = true /\
  open_at (cold_start 4500) 5000 = true /\
  send (JStr "Init") (cold_start 4500)
    = (Return VNone,
       perform (Print (LogSendFailed (JStr "Init"))) (polls (cold_start 4500) 5)) /\
  sent_frames (trace (send (JStr "Init") (cold_start 4500)).2) = [] /\
  clock (send (JStr "Init") (cold_start 4500)).2 = 5000 /\
  transport_open
    (with_transport_error (fun _ => Some (Exception "Connection is already closed."))
       connected_example) = true /\
  send (JStr "Init")
    (with_transport_error (fun _ => Some (Exception "Connection is already closed."))
       connected_example)
    = (Raise (Exception "Connection is already closed."),
       with_transport_error (fun _ => Some (Exception "Connection is already closed."))
         connected_example).
Proof. do 6 (split; [vm_compute; reflexivity |]). split; reflexivity. Qed.

(** A transport that opens three seconds after the call: the message goes
    out after three sleeps.  One that never opens: five sleeps, a printed
    failure, nothing sent. *)
Example send_after_three_seconds :
  let '(r, c) := send (JStr "Init") (cold_start 3000) in
  r = Return VNone /\ clock c = 3000 /\ sent_frames (trace c) = [JStr "Init"].
Proof. vm_compute. done. Qed.

Example send_never_ready :
  let '(r, c) := send (JStr "Init") (cold_start 1000000) in
  r = Return VNone /\ clock c = 5000 /\ sent_frames (trace c) = []
  /\ last (trace c) = Some (Print (LogSendFailed (JStr "Init"))).
Proof. vm_compute. done. Qed.

(** The last poll is at four seconds: a transport that opens later than
    that is not seen, although it is open when the window closes. *)
Example send_misses_late_opening :
  let '(r, c) := send (JStr "Init") (cold_start 4500) in
  r = Return VNone /\ clock c = 5000 /\ sent_frames (trace c) = []
  /\ transport_open c = true.
Proof. vm_compute. done. Qed.

(** A transport that is open and raises when it is given the frame: the
    exception is the caller's. *)
Example send_on_a_broken_transport :
  let c := with_transport_error (fun _ => Some (Exception "Connection is already closed."))
             (cold_start 2000) in
  send (JStr "Init") c = (Raise (Exception "Connection is already closed."), polls c 2).
Proof. vm_compute. reflexivity. Qed.

End SendFacts.

(* ===================================================================== *)
(** * The provider: connect, request and response, submission             *)
(* ===================================================================== *)

Section ProviderFacts.
Import Provider.

Variable str : value -> string.
Variable json_dumps : json -> string.

(** C7, as the code has it.  The provider's [connect] decides by the
    provider's own status alone.  Whenever that status is not
    [DISCONNECTED] (as it is once a first [connect] has set it to
    [CONNECTED]) the call is a no-op, whatever connection the provider
    holds: whether or not a transport object exists, and whatever the
    status of the connection is.  Hence a second [connect] after a first
    one changes nothing.  From [DISCONNECTED] it calls the connection's
    [connect] and becomes [CONNECTED].  The connection's own [connect] has
    no test: from any state it makes a new transport, sets the status to
    [CONNECTING] and starts a thread. *)
Theorem connect_is_idempotent (net net' : Z -> bool) (p : HydraProvider)
    (c : Connection.HydraConnection) :
  (_status p <> DISCONNECTED ->
     connect net (with_connection c p) = with_connection c p) /\
  connect net' (connect net p) = connect net p /\
  (_status p = DISCONNECTED ->
     _status (connect net p) = CONNECTED /\
     _connection (connect net p) = Connection.connect net (_connection p) /\
     Connection.threads_started (Connection.trace (_connection (connect net p)))
       = Connection.threads_started (Connection.trace (_connection p))
           ++ [Connection._websocket_url (_connection p)]) /\
  (Connection._status (Connection.connect net c) = CONNECTING /\
   Connection._websocket (Connection.connect net c)
     = Some {| Connection.app_url := Connection._websocket_url c;
               Connection.sock_connected := net |} /\
   Connection.threads_started (Connection.trace (Connection.connect net c))
     = Connection.threads_started (Connection.trace c)
         ++ [Connection._websocket_url c]).
Proof.
  unfold connect. split; [| split; [| split]].
  - intros H. by rewrite decide_True.
  - destruct (decide (_status p <> DISCONNECTED)) as [H|H].
    + by rewrite decide_True.
    + by rewrite decide_True.
  - intros H. rewrite decide_False by (intros Hn; by apply Hn).
    split; [reflexivity |]. split; [reflexivity |]. simpl.
    unfold Connection.threads_started. by rewrite omap_app.
  - split; [reflexivity |]. split; [reflexivity |]. simpl.
    unfold Connection.threads_started. by rewrite omap_app.
Qed.

Lemma connect_is_idempotent_witness :
  connect (fun _ => false)
    (with_connection (Connection.init "ws://node:4001/?history=no" 0)
       (connect (fun _ => true) provider_example))
    = with_connection (Connection.init "ws://node:4001/?history=no" 0)
        (connect (fun _ => true) provider_example) /\
  (_status (connect (fun _ => true) provider_example) = CONNECTED /\
   _connection (connect (fun _ => true) provider_example)
     = Connection.connect (fun _ => true) (_connection provider_example) /\
   Connection.threads_started
     (Connection.trace (_connection (connect (fun _ => true) provider_example)))
     = Connection.threads_started (Connection.trace (_connection provider_example))
         ++ [Connection._websocket_url (_connection provider_example)]).
Proof.
  split.
  - apply (proj1 (connect_is_idempotent (fun _ => false) (fun _ => false)
                    (connect (fun _ => true) provider_example)
                    (Connection.init "ws://node:4001/?history=no" 0))).
    discriminate.
  - apply (proj1 (proj2 (proj2 (connect_is_idempotent (fun _ => true) (fun _ => true)
                           provider_example connected_example)))).
    reflexivity.
Defined.

(** C7, as the claim words it, fails for [HydraConnection.connect], which
    it cites: called on a connection that is [CONNECTED], it does not
    look at the status, sets it back to [CONNECTING], replaces the
    transport object and starts a second thread. *)
Lemma connection_connect_is_not_idempotent :
  Connection._status connected_example = CONNECTED /\
  Connection._status (Connection.connect (fun _ => true) connected_example)
    = CONNECTING /\
  Connection.connect (fun _ => true) connected_example <> connected_example /\
  Connection.threads_started
    (Connection.trace (Connection.connect (fun _ => true) connected_example))
    = ["ws://node:4001/?history=no"; "ws://node:4001/?history=no"].
Proof.
  split; [reflexivity |]. split; [reflexivity |]. split; [| reflexivity].
  intros H. apply (f_equal Connection._status) in H. discriminate.
Qed.

(** A second [connect] on a fresh provider starts no second thread. *)
Example connect_twice_opens_one_transport :
  let p := connect (fun _ => true) (connect (fun _ => true) provider_example) in
  _status p = CONNECTED /\
  Connection.threads_started (Connection.trace (_connection p))
    = ["ws://node:4001/?history=no"].
Proof. split; reflexivity. Qed.

(** The connection's own [connect] has no such test: called twice, it
    starts two threads. *)
Example connection_connect_twice :
  Connection.threads_started
    (Connection.trace
       (Connection.connect (fun _ => true)
          (Connection.connect (fun _ => true)
             (Connection.init "ws://node:4001/?history=no" 0))))
  = ["ws://node:4001/?history=no"; "ws://node:4001/?history=no"].
Proof. reflexivity. Qed.

Lemma raise_parse_error {A} (error : value) :
  @raise_ A (VStr (parse_error str json_dumps error)) = Raise not_an_exception.
Proof. reflexivity. Qed.

(** C9, on the code.  [get] and [post] return the parsed body of a
    response whose status is 200 or 202.  In every other case (another
    status, a body that is not JSON, a request that failed) the caller gets
    the [TypeError] of [raise] applied to text: it carries neither the
    response body nor the headers nor the status code. *)
Theorem request_outcome (response : outcome Response) :
  get str json_dumps response =
    match response with
    | Return r =>
        if decide (status_code r = 200 \/ status_code r = 202) then
          match body r with
          | Some j => Return j
          | None => Raise not_an_exception
          end
        else Raise not_an_exception
    | Raise _ => Raise not_an_exception
    end
  /\ post str json_dumps response = get str json_dumps response.
Proof.
  split; [| reflexivity].
  unfold get, request, try_except, response_json.
  destruct response as [r|e]; simpl; [| reflexivity].
  destruct (decide (status_code r = 200 \/ status_code r = 202));
    destruct (body r); reflexivity.
Qed.

Example get_not_found :
  get str json_dumps (Return not_found) = Raise not_an_exception.
Proof. reflexivity. Qed.

(** [new_tx] hands the command to [send] and then fails: at its [await]
    when [send] returned, with the exception of [send] otherwise. *)
Lemma new_tx_raises (cbor_hex type description : string) (tx_id : option string)
    (p : HydraProvider) :
  (exists e, (new_tx cbor_hex type description tx_id p).1 = Raise e)
  /\ listeners (new_tx cbor_hex type description tx_id p).2 = listeners p.
Proof.
  unfold new_tx.
  destruct (Connection.send _ (_connection p)) as [[v|e] c]; cbn;
    (split; [| done]); [destruct v |]; by eexists.
Qed.

(** C1, on the code.  Whatever the transaction and whatever messages the
    node delivers, [submit_tx] fails with a [TypeError]: [new_tx] awaits the
    [None] that [HydraConnection.send] returned (or lets through what
    [send] raised), and the handler raises the
    text [parse_error] made of that error.  No listener is registered, so
    neither a [TxValid] nor a [TxInvalid] message is ever looked at. *)
Theorem submit_tx_outcome (tx : string) (inbox : list (gmap string json))
    (p : HydraProvider) :
  (submit_tx str json_dumps tx inbox p).1 = Some (Raise not_an_exception) /\
  listeners (submit_tx str json_dumps tx inbox p).2 = listeners p.
Proof.
  unfold submit_tx.
  pose proof (new_tx_raises tx "Witnessed Tx ConwayEra" "" None p) as [[e Hr] Hl].
  destruct (new_tx tx "Witnessed Tx ConwayEra" "" None p) as [r p1].
  simpl in Hr, Hl. subst r. simpl. by rewrite Hl.
Qed.

(** ** The listener of [wait_for_tx_response] *)

(** A message whose transaction has other bytes leaves the future
    pending, under either tag. *)
Lemma callback_ignores_other_bytes (tx : string) (message t : gmap string json) :
  message !! "transaction" = Some (JObj t) ->
  t !! "cborHex" <> Some (JStr tx) ->
  callback json_dumps tx message = Return None.
Proof.
  intros Ht Hne. unfold callback, cbor_hex_is. rewrite Ht.
  apply get_is_false in Hne. rewrite Hne. simpl.
  by destruct (get_is message "tag" "TxValid"), (get_is message "tag" "TxInvalid").
Qed.



(** Messages that leave the future pending are passed over. *)
Lemma await_future_skips (tx : string) (message : gmap string json)
    (rest : list (gmap string json)) :
  callback json_dumps tx message = Return None ->
  await_future json_dumps tx (message :: rest) = await_future json_dumps tx rest.
Proof. intros H. simpl. by rewrite H. Qed.


End ProviderFacts.

(* ===================================================================== *)
(** * The asset model                                                     *)
(* ===================================================================== *)

Section DictFacts.
Context {K V : Type} `{EqDecision K}.
Implicit Types (d : list (K * V)) (k : K) (v : V).

Lemma dict_get_set_eq d k v : dict_get (dict_set d k v) k = Some v.
Proof.
  induction d as [|[k' v'] d IH]; simpl.
  - by rewrite decide_True.
  - destruct (decide (k = k')) as [->|Hne]; simpl.
    + by rewrite decide_True.
    + by rewrite decide_False.
Qed.

Lemma dict_get_set_ne d k k' v :
  k <> k' -> dict_get (dict_set d k v) k' = dict_get d k'.
Proof.
  intros Hne. induction d as [|[k0 v0] d IH]; simpl.
  - by rewrite decide_False.
  - destruct (decide (k = k0)) as [->|Hn0]; simpl.
    + by rewrite !decide_False.
    + destruct (decide (k' = k0)); [done | exact IH].
Qed.

Lemma dict_get_None d k : k ∉ dict_keys d -> dict_get d k = None.
Proof.
  induction d as [|[k' v'] d IH]; simpl; [done |].
  intros Hnot. rewrite decide_False by set_solver. apply IH. set_solver.
Qed.

Lemma dict_keys_set d k v :
  dict_keys (dict_set d k v)
    = if decide (k ∈ dict_keys d) then dict_keys d else dict_keys d ++ [k].
Proof.
  induction d as [|[k' v'] d IH]; [done |].
  cbn [dict_set]. destruct (decide (k = k')) as [->|Hne].
  - rewrite decide_True; [done |]. unfold dict_keys. set_solver.
  - unfold dict_keys in *. rewrite fmap_cons, IH.
    destruct (decide (k ∈ d.*1)) as [Hin|Hin].
    + rewrite decide_True; [done |]. set_solver.
    + rewrite decide_False; [done |]. set_solver.
Qed.

Lemma dict_keys_set_NoDup d k v :
  NoDup (dict_keys d) -> NoDup (dict_keys (dict_set d k v)).
Proof.
  intros Hd. rewrite dict_keys_set. case_decide; [done |].
  apply NoDup_app. split; [done |]. split; [set_solver | apply NoDup_singleton].
Qed.

Lemma dict_get_filter (P : K * V -> Prop) `{forall x, Decision (P x)} d k :
  NoDup (dict_keys d) ->
  dict_get (filter P d) k =
    match dict_get d k with
    | Some v => if decide (P (k, v)) then Some v else None
    | None => None
    end.
Proof.
  induction d as [|[k' v'] d IH]; simpl; [done |].
  intros [Hnot Hd]%NoDup_cons. rewrite filter_cons.
  destruct (decide (k = k')) as [->|Hne].
  - destruct (decide (P (k', v'))); simpl.
    + by rewrite decide_True.
    + apply dict_get_None. intros Hin. apply Hnot.
      unfold dict_keys in *. apply list_elem_of_fmap in Hin as [[k0 v0] [-> Hin]].
      apply list_elem_of_filter in Hin as [_ Hin].
      apply list_elem_of_fmap. by exists (k0, v0).
  - destruct (decide (P (k', v'))); simpl.
    + rewrite decide_False by done. by apply IH.
    + by apply IH.
Qed.

End DictFacts.

Section AssetFacts.
Import Assets.

Lemma quantity_of_initial (unit : string) :
  quantity_of [("lovelace", 0)] unit = 0.
Proof. unfold quantity_of. cbn [dict_get]. by case_decide. Qed.

Lemma hydra_assets_loop_sums (entries : list (string * Z)) :
  forall result : HydraAssets,
    Forall (fun e => 0 <= snd e) entries ->
    NoDup (dict_keys result) ->
    exists d, hydra_assets_loop (pairs entries) result = Return d /\
              NoDup (dict_keys d) /\
              forall unit, quantity_of d unit = quantity_of result unit + total entries unit.
Proof.
  induction entries as [|[u q] entries IH]; intros result Hnn Hnd.
  - exists result. repeat split; [done |]. intros unit. simpl. lia.
  - apply Forall_cons in Hnn as [Hq Hnn]. simpl in Hq. simpl.
    assert ((q <? 0) = false) as -> by lia.
    fold (canonical_unit u).
    destruct (IH (dict_set result (canonical_unit u)
                    (default 0 (dict_get result (canonical_unit u)) + q)) Hnn)
      as (d & Hd & Hnd' & Hsum).
    { by apply dict_keys_set_NoDup. }
    exists d. repeat split; [exact Hd | exact Hnd' |].
    intros unit. rewrite Hsum. unfold quantity_of.
    destruct (decide (canonical_unit u = unit)) as [<-|Hne].
    + rewrite dict_get_set_eq. simpl. lia.
    + rewrite dict_get_set_ne by done. lia.
Qed.

Lemma hydra_assets_loop_negative (pre post : list (string * Z)) (u : string) (q : Z) :
  forall result : HydraAssets,
    Forall (fun e => 0 <= snd e) pre -> q < 0 ->
    hydra_assets_loop (pairs (pre ++ (u, q) :: post)) result
      = Raise (negative_asset u q).
Proof.
  induction pre as [|[u' q'] pre IH]; intros result Hnn Hq; simpl.
  - assert ((q <? 0) = true) as -> by lia. reflexivity.
  - apply Forall_cons in Hnn as [Hq' Hnn]. simpl in Hq'.
    assert ((q' <? 0) = false) as -> by lia. apply IH; assumption.
Qed.

Lemma first_negative (entries : list (string * Z)) :
  Exists (fun e => snd e < 0) entries ->
  exists pre u q post, entries = pre ++ (u, q) :: post /\
                       Forall (fun e => 0 <= snd e) pre /\ q < 0.
Proof.
  induction entries as [|[u q] entries IH]; intros Hex.
  - by apply Exists_nil in Hex.
  - destruct (decide (q < 0)) as [Hq|Hq].
    + exists [], u, q, entries. by repeat split.
    + apply Exists_cons in Hex as [Hex|Hex]; [simpl in Hex; lia |].
      destruct (IH Hex) as (pre & u' & q' & post & -> & Hpre & Hq').
      exists ((u, q) :: pre), u', q', post. repeat split; [| done].
      apply Forall_cons. split; [simpl; lia | done].
Qed.

(** C3.  [hydra_assets] on entries [(unit, quantity)]: it raises exactly
    when some entry has a negative quantity, and the [ValueError] it raises
    is the one that names the unit and quantity of the first such entry.
    When no entry is negative it returns a dictionary with distinct keys in
    which a unit is present exactly when the sum of its entries (the
    entries of the empty unit counted under ["lovelace"]) is not zero, and
    is then mapped to that sum. *)
Theorem hydra_assets_canonical (entries : list (string * Z)) :
  (returns (hydra_assets (pairs entries)) = false
     <-> Exists (fun e => snd e < 0) entries) /\
  (forall pre u q post,
     entries = pre ++ (u, q) :: post ->
     Forall (fun e => 0 <= snd e) pre -> q < 0 ->
     hydra_assets (pairs entries)
       = Raise (ValueError ("Negative quantity for asset " +:+ u +:+ ": "
                              +:+ pretty q))) /\
  (Forall (fun e => 0 <= snd e) entries ->
     exists d, hydra_assets (pairs entries) = Return d /\
               NoDup (dict_keys d) /\
               dict_get d "" = None /\
               forall unit,
                 dict_get d unit
                   = if decide (total entries unit = 0) then None
                     else Some (total entries unit)).
Proof.
  assert (forall pre u q post,
            entries = pre ++ (u, q) :: post ->
            Forall (fun e => 0 <= snd e) pre -> q < 0 ->
            hydra_assets (pairs entries) = Raise (negative_asset u q)) as Hneg.
  { intros pre u q post -> Hpre Hq. unfold hydra_assets.
    by rewrite hydra_assets_loop_negative. }
  assert (Forall (fun e => 0 <= snd e) entries ->
          exists d, hydra_assets (pairs entries) = Return d /\
                    NoDup (dict_keys d) /\
                    forall unit,
                      dict_get d unit
                        = if decide (total entries unit = 0) then None
                          else Some (total entries unit)) as Hok.
  { intros Hnn. unfold hydra_assets.
    destruct (hydra_assets_loop_sums entries [("lovelace", 0)] Hnn)
      as (d & Hd & Hnd & Hsum).
    { apply NoDup_singleton. }
    rewrite Hd. simpl. eexists. split; [reflexivity |]. split.
    - eapply sublist_NoDup; [exact Hnd |].
      unfold dict_keys. apply fmap_sublist, sublist_filter.
    - intros unit. rewrite dict_get_filter by done.
      pose proof (Hsum unit) as Hu. rewrite quantity_of_initial in Hu.
      unfold quantity_of in Hu.
      destruct (dict_get d unit) as [v|]; simpl in Hu.
      + assert (v = total entries unit) as -> by lia.
        destruct (decide (total entries unit = 0)).
        * by rewrite decide_False by (intros Hn; by apply Hn).
        * by rewrite decide_True.
      + rewrite decide_True; [done | lia]. }
  split; [| split].
  - split.
    + intros Hret.
      destruct (Forall_Exists_dec (fun e : string * Z => 0 <= snd e)
                  (fun e => 0 > snd e)
                  (fun e => Z_le_gt_dec 0 (snd e)) entries) as [Hall|Hex].
      * destruct (Hok Hall) as (d & Hd & _). rewrite Hd in Hret. discriminate.
      * eapply Exists_impl; [exact Hex |]. intros e He. simpl in He. lia.
    + intros Hex. destruct (first_negative entries Hex)
        as (pre & u & q & post & E & Hpre & Hq).
      by rewrite (Hneg pre u q post E Hpre Hq).
  - exact Hneg.
  - intros Hnn. destruct (Hok Hnn) as (d & Hd & Hnd & Hget).
    exists d. repeat split; [done | done | | done].
    rewrite Hget. rewrite decide_True; [done |].
    clear. induction entries as [|[u q] entries IH]; [done |]. simpl.
    rewrite decide_False; [lia |].
    unfold canonical_unit. by destruct (String.eqb_spec u "").
Qed.

Lemma hydra_assets_canonical_witness :
  hydra_assets (pairs [("", 5); ("ab", -3); ("cd", -1)])
    = Raise (ValueError ("Negative quantity for asset " +:+ "ab" +:+ ": "
                           +:+ pretty (-3))) /\
  (exists d,
     hydra_assets (pairs [("", 5); ("ab", 3); ("lovelace", 2); ("cd", 0); ("ab", 4)])
       = Return d /\
     NoDup (dict_keys d) /\
     dict_get d "" = None /\
     forall unit,
       dict_get d unit
         = if decide (total [("", 5); ("ab", 3); ("lovelace", 2); ("cd", 0); ("ab", 4)]
                        unit = 0)
           then None
           else Some (total [("", 5); ("ab", 3); ("lovelace", 2); ("cd", 0); ("ab", 4)]
                        unit)).
Proof.
  split.
  - apply (proj1 (proj2 (hydra_assets_canonical [("", 5); ("ab", -3); ("cd", -1)]))
             [("", 5)] "ab" (-3) [("cd", -1)]).
    + reflexivity.
    + apply Forall_singleton. simpl. lia.
    + lia.
  - apply (proj2 (proj2 (hydra_assets_canonical
                           [("", 5); ("ab", 3); ("lovelace", 2); ("cd", 0); ("ab", 4)]))).
    repeat (apply Forall_cons; split; [simpl; lia |]). apply Forall_nil_2.
Defined.

Example hydra_assets_merges_lovelace :
  hydra_assets (pairs [("", 5); ("ab", 3); ("lovelace", 2); ("cd", 0); ("ab", 4)])
  = Return [("lovelace", 7); ("ab", 7)].
Proof. reflexivity. Qed.

Example hydra_assets_names_the_unit :
  hydra_assets (pairs [("", 5); ("ab", -3); ("cd", -1)])
  = Raise (ValueError "Negative quantity for asset ab: -3").
Proof. reflexivity. Qed.

(** ** Units that are too short *)

Lemma to_assets_loop_app (pre rest : HydraAssets) :
  forall acc : Value,
    to_assets_loop (pre ++ rest) acc
      = (acc' ← to_assets_loop pre acc; to_assets_loop rest acc').
Proof.
  induction pre as [|[u q] pre IH]; intros acc; [reflexivity |].
  cbn [app to_assets_loop].
  destruct (q =? 0); [apply IH |].
  destruct (q <? 0); [reflexivity |].
  destruct (String.eqb u "lovelace"); [apply IH |].
  destruct (len u <? 56); [reflexivity |].
  destruct (add_asset u (prefix 56 u) (suffix 56 u) q (multi_asset acc));
    [apply IH | reflexivity].
Qed.

Lemma to_assets_loop_short (unit : string) (quantity : Z) (rest : HydraAssets)
    (acc : Value) :
  unit <> "lovelace" -> len unit < 56 -> 0 < quantity ->
  to_assets_loop ((unit, quantity) :: rest) acc
    = Raise (ValueError ("Invalid unit length: " +:+ unit)).
Proof.
  intros Hu Hlen Hq. cbn [to_assets_loop].
  assert ((quantity =? 0) = false) as -> by lia.
  assert ((quantity <? 0) = false) as -> by lia.
  assert (String.eqb unit "lovelace" = false) as -> by by apply String.eqb_neq.
  by assert ((len unit <? 56) = true) as -> by lia.
Qed.

Lemma to_assets_loop_never_returns (h : HydraAssets) (unit : string) (quantity : Z) :
  forall acc : Value,
    (unit, quantity) ∈ h -> unit <> "lovelace" -> len unit < 56 ->
    quantity <> 0 ->
    returns (to_assets_loop h acc) = false.
Proof.
  induction h as [|[u q] h IH]; intros acc Hin Hu Hlen Hq.
  - by apply elem_of_nil in Hin.
  - cbn [to_assets_loop].
    apply elem_of_cons in Hin as [Heq|Hin].
    + injection Heq as <- <-.
      assert ((quantity =? 0) = false) as -> by lia.
      destruct (quantity <? 0); [reflexivity |].
      assert (String.eqb unit "lovelace" = false) as -> by by apply String.eqb_neq.
      by assert ((len unit <? 56) = true) as -> by lia.
    + destruct (q =? 0); [by apply IH |].
      destruct (q <? 0); [reflexivity |].
      destruct (String.eqb u "lovelace"); [by apply IH |].
      destruct (len u <? 56); [reflexivity |].
      destruct (add_asset u (prefix 56 u) (suffix 56 u) q (multi_asset acc));
        [by apply IH | reflexivity].
Qed.

Lemma add_asset_without_policy (unit : string) (quantity : Z) (ma : MultiAsset) :
  add_asset unit "" "" quantity ma
    = Raise (AssertionError "Invalid byte size for class ScriptHash").
Proof. reflexivity. Qed.

Lemma hydra_assets_to_value_loop_never_returns (h : HydraAssets) (unit : string)
    (quantity : Z) :
  forall acc : Value,
    (unit, quantity) ∈ h -> unit <> "lovelace" -> len unit < 56 ->
    returns (hydra_assets_to_value_loop h acc) = false.
Proof.
  induction h as [|[u q] h IH]; intros acc Hin Hu Hlen.
  - by apply elem_of_nil in Hin.
  - cbn [hydra_assets_to_value_loop].
    apply elem_of_cons in Hin as [Heq|Hin].
    + injection Heq as <- <-.
      assert (String.eqb unit "lovelace" = false) as -> by by apply String.eqb_neq.
      assert ((56 <=? len unit) = false) as -> by lia.
      assert ((56 <? len unit) = false) as -> by lia.
      by rewrite add_asset_without_policy.
    + destruct (String.eqb u "lovelace"); [by apply IH |].
      destruct (add_asset u _ _ q (multi_asset acc)); [by apply IH | reflexivity].
Qed.

(** [hydra_assets_to_value] has no rule on the length of a unit: a unit
    of fewer than 56 characters is given the empty policy id, and the
    conversion stops in the size assertion of [ScriptHash], which
    [except ValueError] does not catch. *)
Lemma hydra_assets_to_value_short_unit (unit : string) (quantity : Z)
    (rest : HydraAssets) :
  unit <> "lovelace" -> len unit < 56 ->
  hydra_assets_to_value ((unit, quantity) :: rest)
    = Raise (AssertionError "Invalid byte size for class ScriptHash").
Proof.
  intros Hu Hlen. unfold hydra_assets_to_value. cbn [hydra_assets_to_value_loop].
  assert (String.eqb unit "lovelace" = false) as -> by by apply String.eqb_neq.
  assert ((56 <=? len unit) = false) as -> by lia.
  assert ((56 <? len unit) = false) as -> by lia.
  by rewrite add_asset_without_policy.
Qed.

(** C4, as the code has it.  [to_assets] never converts a dictionary that
    holds a unit other than ["lovelace"] of fewer than 56 characters with a
    quantity that is not zero: it raises.  The entries are read in order
    and the quantity is tested before the unit, so the error is the one of
    the short unit when the entries before it are accepted, and then it is
    [ValueError("Invalid unit length: <unit>")] for a positive quantity and
    the [ValueError] for a negative quantity otherwise. *)
Theorem short_unit_is_rejected (pre post : HydraAssets) (unit : string)
    (quantity : Z) :
  unit <> "lovelace" ->
  len unit < 56 ->
  quantity <> 0 ->
  returns (to_assets (pre ++ (unit, quantity) :: post)) = false /\
  (returns (to_assets pre) = true ->
     to_assets (pre ++ (unit, quantity) :: post) =
       Raise (ValueError
                (if 0 <? quantity then "Invalid unit length: " +:+ unit
                 else "Negative quantity for unit " +:+ unit +:+ ": "
                        +:+ pretty quantity))).
Proof.
  intros Hu Hlen Hq. split.
  - apply (to_assets_loop_never_returns _ unit quantity); try done.
    apply elem_of_app. right. apply elem_of_cons. by left.
  - unfold to_assets. rewrite to_assets_loop_app.
    destruct (to_assets_loop pre _) as [acc|e]; [intros _ | discriminate].
    cbn [mbind outcome_bind Py.bind].
    destruct (0 <? quantity) eqn:Epos.
    + apply to_assets_loop_short; try done. lia.
    + cbn [to_assets_loop].
      assert ((quantity =? 0) = false) as -> by lia.
      by assert ((quantity <? 0) = true) as -> by lia.
Qed.

Lemma short_unit_is_rejected_witness :
  returns (to_assets ([("lovelace", 5); (policy_example +:+ "HYDRA", 7)]
                        ++ ("ab", 1) :: [("lovelace", 9)])) = false /\
  to_assets ([("lovelace", 5); (policy_example +:+ "HYDRA", 7)]
               ++ ("ab", 1) :: [("lovelace", 9)])
    = Raise (ValueError "Invalid unit length: ab") /\
  to_assets ([("lovelace", 5)] ++ ("ab", -3) :: [])
    = Raise (ValueError "Negative quantity for unit ab: -3").
Proof.
  split; [| split].
  - apply (short_unit_is_rejected
             [("lovelace", 5); (policy_example +:+ "HYDRA", 7)] [("lovelace", 9)]
             "ab" 1); [discriminate | vm_compute; reflexivity | lia].
  - apply (proj2 (short_unit_is_rejected
             [("lovelace", 5); (policy_example +:+ "HYDRA", 7)] [("lovelace", 9)]
             "ab" 1 ltac:(discriminate) ltac:(vm_compute; reflexivity) ltac:(lia))).
    vm_compute. reflexivity.
  - apply (proj2 (short_unit_is_rejected [("lovelace", 5)] [] "ab" (-3)
             ltac:(discriminate) ltac:(vm_compute; reflexivity) ltac:(lia))).
    vm_compute. reflexivity.
Defined.

(** C4, as the claim words it, fails.  With a negative quantity the error
    of [to_assets] is the one for negative quantities, not the one for the
    length of the unit.  And [hydra_assets_to_value], the other conversion
    the claim cites, has no test on the length: the short unit ends in the
    [AssertionError] of pycardano's [ScriptHash], which is no error of the
    package at all. *)
Lemma short_unit_is_rejected_otherwise :
  to_assets [("ab", -1)] = Raise (ValueError "Negative quantity for unit ab: -1") /\
  to_assets [("ab", -1)] <> Raise (ValueError "Invalid unit length: ab") /\
  hydra_assets_to_value [("ab", 1)]
    = Raise (AssertionError "Invalid byte size for class ScriptHash").
Proof.
  split; [vm_compute; reflexivity |]. split; [vm_compute; discriminate |].
  vm_compute. reflexivity.
Qed.

Example to_assets_short_unit :
  to_assets [("lovelace", 5); (policy_example +:+ "HYDRA", 7); ("ab", 1)]
  = Raise (ValueError "Invalid unit length: ab").
Proof. vm_compute. reflexivity. Qed.

Example to_assets_accepts_valid_units :
  returns (to_assets [("lovelace", 5); (policy_example +:+ "HYDRA", 7)]) = true.
Proof. vm_compute. reflexivity. Qed.

(** ** The round trip through a ledger value *)

Lemma value_entries_triples (value : Value) :
  Forall (fun e => is_triple e = true) (value_entries value).
Proof.
  unfold value_entries. apply Forall_app. split.
  - destruct (0 <? coin value); [by apply Forall_singleton | apply Forall_nil_2].
  - induction (multi_asset value) as [|[p a] ma IH]; [apply Forall_nil_2 |].
    cbn [mbind list_bind]. apply Forall_app. split; [| exact IH].
    apply Forall_fmap, Forall_forall. by intros [].
Qed.

(** [hydra_assets_from_value] fails at the first tuple it built, whatever
    the value, unless it built none. *)
Lemma hydra_assets_from_value_raises (value : Value) :
  value_entries value <> [] ->
  hydra_assets_from_value value = Raise unpack_error.
Proof.
  intros Hne. unfold hydra_assets_from_value, hydra_assets.
  pose proof (value_entries_triples value) as Hall.
  destruct (value_entries value) as [|e l]; [done |].
  apply Forall_cons in Hall as [He _]. by destruct e.
Qed.

Lemma hydra_assets_from_value_raises_witness :
  hydra_assets_from_value {| coin := 2000000; multi_asset := [] |}
    = Raise unpack_error.
Proof.
  apply (hydra_assets_from_value_raises {| coin := 2000000; multi_asset := [] |}).
  discriminate.
Defined.

(** C2, on the code.  One asset under a valid policy id with quantity 7,
    and two million lovelace: the dictionary converts to a ledger value,
    and converting that value back raises [ValueError]; so does the
    conversion of the ledger value itself, which is where the other order
    of the round trip starts. *)
Theorem round_trip_raises :
  let h := [("lovelace", 2000000); (policy_example +:+ "HYDRA", 7)] in
  exists v,
    hydra_assets_to_value h = Return v /\
    hydra_assets_from_value v = Raise unpack_error /\
    (h' ← hydra_assets_from_value v; hydra_assets_to_value h')
      = Raise unpack_error.
Proof.
  eexists. split; [vm_compute; reflexivity |]. split; vm_compute; reflexivity.
Qed.

End AssetFacts.

(* ===================================================================== *)
(** * The script-reference classifier                                     *)
(* ===================================================================== *)

Lemma fromhex_from_raises (s : string) :
  forall (top : option N) (e : exn),
    fromhex_from s top = Raise e -> e = fromhex_error.
Proof.
  induction s as [|a t IH]; intros top e H; simpl in H.
  - destruct top; congruence.
  - destruct top as [h|].
    + destruct (hex_digit a); [| congruence].
      destruct (fromhex_from t None) eqn:E; [discriminate |].
      injection H as <-. by apply (IH None).
    + destruct (is_space a); [by apply (IH None) |].
      destruct (hex_digit a) as [h|]; [by apply (IH (Some h)) | congruence].
Qed.

Section ScriptFacts.
Import Script.

Variable script : Type.
Variable loads : cbor -> outcome cbor.
Variable NativeScript_from_primitive : cbor -> outcome script.
Variable PlutusScript_from_version : cbor -> cbor -> outcome script.

Let info := get_reference_script_info script loads NativeScript_from_primitive
              PlutusScript_from_version.
Let classify' := classify script loads NativeScript_from_primitive
                   PlutusScript_from_version.

(** An absent or empty reference is [Unknown]. *)
Lemma info_absent : info None = Return (unknown script)
                    /\ info (Some "") = Return (unknown script).
Proof. split; reflexivity. Qed.

(** What the [try] block lets through is what [get_reference_script_info]
    raises; what it catches becomes [Unknown]. *)
Lemma info_of_classify (c : ascii) (s : string) :
  info (Some (String c s)) =
    match classify' (String c s) with
    | Return i => Return i
    | Raise e =>
        if is_ValueError e || is_CBORError e then Return (unknown script)
        else Raise e
    end.
Proof. reflexivity. Qed.

(** Text that is not hexadecimal is caught. *)
Lemma info_bad_hex (c : ascii) (s : string) (e : exn) :
  fromhex (String c s) = Raise e ->
  info (Some (String c s)) = Return (unknown script).
Proof.
  intros H. rewrite info_of_classify. subst classify'. unfold classify.
  rewrite H. simpl. apply fromhex_from_raises in H. by subst e.
Qed.

(** A decode error of the envelope, or of what the tag wraps, is caught. *)
Lemma info_malformed_cbor (c : ascii) (s : string) (b : bytes) (msg : string) :
  fromhex (String c s) = Return b ->
  loads (CBytes b) = Raise (CBORDecodeError msg) ->
  info (Some (String c s)) = Return (unknown script).
Proof.
  intros Hb Hl. rewrite info_of_classify. subst classify'. unfold classify.
  rewrite Hb. simpl. by rewrite Hl.
Qed.

(** A structure that is not a tag 24 is [Unknown]. *)
Lemma info_not_tag_24 (c : ascii) (s : string) (b : bytes) (v : cbor) :
  fromhex (String c s) = Return b ->
  loads (CBytes b) = Return v ->
  (forall w, v <> CTag 24 w) ->
  info (Some (String c s)) = Return (unknown script).
Proof.
  intros Hb Hl Hv. rewrite info_of_classify. subst classify'. unfold classify.
  rewrite Hb. simpl. rewrite Hl. simpl.
  destruct v as [| | | | |tag w| | |]; try reflexivity.
  destruct (decide (tag = 24)) as [->|Hne]; [by destruct (Hv w) |].
  destruct tag as [|p|p]; try reflexivity.
  repeat (destruct p as [p|p|]; try reflexivity). by destruct Hne.
Qed.

(** A tag 24 that wraps [[0, content]]: a native script, when pycardano
    accepts the content. *)
Lemma info_native (c : ascii) (s : string) (b : bytes) (v content : cbor)
    (instance : script) :
  fromhex (String c s) = Return b ->
  loads (CBytes b) = Return (CTag 24 v) ->
  loads v = Return (CList [CInt 0; content]) ->
  NativeScript_from_primitive content = Return instance ->
  info (Some (String c s)) =
    Return {| script_instance := Some instance;
              script_type := "SimpleScript";
              script_language := Some "NativeScriptLanguage SimpleScript" |}.
Proof.
  intros Hb Hl Hv Hn. rewrite info_of_classify. subst classify'. unfold classify.
  rewrite Hb. simpl. rewrite Hl. simpl. rewrite Hv. simpl. by rewrite Hn.
Qed.

(** A tag 24 that wraps [[n, content]] with [n] one of 1, 2, 3: a Plutus
    script of that version. *)
Lemma info_plutus (c : ascii) (s : string) (b : bytes) (v content : cbor)
    (n : Z) (instance : script) :
  fromhex (String c s) = Return b ->
  loads (CBytes b) = Return (CTag 24 v) ->
  loads v = Return (CList [CInt n; content]) ->
  n = 1 \/ n = 2 \/ n = 3 ->
  PlutusScript_from_version (CInt n) content = Return instance ->
  info (Some (String c s)) =
    Return {| script_instance := Some instance;
              script_type := "PlutusScriptV" +:+ pretty n;
              script_language :=
                Some ("PlutusScriptLanguage PlutusScriptV" +:+ pretty n) |}.
Proof.
  intros Hb Hl Hv Hn Hp. rewrite info_of_classify. subst classify'. unfold classify.
  rewrite Hb. simpl. rewrite Hl. simpl. rewrite Hv.
  destruct Hn as [-> | [-> | ->]]; simpl; by rewrite Hp.
Qed.

(** An error that is neither a [ValueError] nor a [cbor2.CBORError] goes
    through: here the one [loads] raises on what the tag wraps. *)
Lemma info_lets_other_errors_through (c : ascii) (s : string) (b : bytes)
    (v : cbor) (e : exn) :
  fromhex (String c s) = Return b ->
  loads (CBytes b) = Return (CTag 24 v) ->
  loads v = Raise e ->
  is_ValueError e || is_CBORError e = false ->
  info (Some (String c s)) = Raise e.
Proof.
  intros Hb Hl Hv He. rewrite info_of_classify. subst classify'. unfold classify.
  rewrite Hb. simpl. rewrite Hl. simpl. rewrite Hv. simpl. by rewrite He.
Qed.

(** The classification proper.  Absent and empty references, text that is
    not hexadecimal, bytes that do not decode, a structure that is no tag
    24, a wrapped payload that does not decode or is no list of two items,
    and a wrapped list whose integer type id is none of 0, 1, 2, 3 are all
    [Unknown]; a wrapped [[0, content]] is a ["SimpleScript"]
    in the native language and a wrapped [[n, content]] with [n] among 1, 2
    and 3 is a Plutus script of version [n], provided pycardano builds the
    script instance. *)
Theorem classifier_results (c : ascii) (s : string) :
  info None = Return (unknown script) /\
  info (Some "") = Return (unknown script) /\
  (forall e, fromhex (String c s) = Raise e ->
             info (Some (String c s)) = Return (unknown script)) /\
  (forall b, fromhex (String c s) = Return b ->
     (forall msg, loads (CBytes b) = Raise (CBORDecodeError msg) ->
                  info (Some (String c s)) = Return (unknown script)) /\
     (forall v, loads (CBytes b) = Return v -> (forall w, v <> CTag 24 w) ->
                info (Some (String c s)) = Return (unknown script)) /\
     (forall v, loads (CBytes b) = Return (CTag 24 v) ->
        (forall msg, loads v = Raise (CBORDecodeError msg) ->
                     info (Some (String c s)) = Return (unknown script)) /\
        (forall d, loads v = Return d -> (forall x y, d <> CList [x; y]) ->
                   info (Some (String c s)) = Return (unknown script)) /\
        (forall n content,
           loads v = Return (CList [CInt n; content]) ->
           n < 0 \/ 3 < n ->
           info (Some (String c s)) = Return (unknown script)) /\
        (forall content instance,
           loads v = Return (CList [CInt 0; content]) ->
           NativeScript_from_primitive content = Return instance ->
           info (Some (String c s)) =
             Return {| script_instance := Some instance;
                       script_type := "SimpleScript";
                       script_language := Some "NativeScriptLanguage SimpleScript" |}) /\
        (forall n content instance,
           loads v = Return (CList [CInt n; content]) ->
           n = 1 \/ n = 2 \/ n = 3 ->
           PlutusScript_from_version (CInt n) content = Return instance ->
           info (Some (String c s)) =
             Return {| script_instance := Some instance;
                       script_type := "PlutusScriptV" +:+ pretty n;
                       script_language :=
                         Some ("PlutusScriptLanguage PlutusScriptV" +:+ pretty n) |}))).
Proof.
  split; [reflexivity |]. split; [reflexivity |]. split.
  { intros e He. by apply (info_bad_hex c s e). }
  intros b Hb. split; [| split].
  - intros msg Hl. by apply (info_malformed_cbor c s b msg).
  - intros v Hl Hv. by apply (info_not_tag_24 c s b v).
  - intros v Hl. split; [| split; [| split; [| split]]].
    + intros msg Hv. rewrite info_of_classify. subst classify'. unfold classify.
      rewrite Hb. simpl. rewrite Hl. simpl. by rewrite Hv.
    + intros d Hv Hd. rewrite info_of_classify. subst classify'. unfold classify.
      rewrite Hb. simpl. rewrite Hl. simpl. rewrite Hv. simpl.
      destruct d as [| | |l| | | | |]; try reflexivity.
      destruct l as [|x [|y [|z l]]]; try reflexivity. by destruct (Hd x y).
    + intros n content Hv Hn. rewrite info_of_classify. subst classify'.
      unfold classify. rewrite Hb. simpl. rewrite Hl. simpl. rewrite Hv. simpl.
      assert ((n =? 0) = false) as -> by lia.
      assert ((n =? 1) = false) as -> by lia.
      assert ((n =? 2) = false) as -> by lia.
      by assert ((n =? 3) = false) as -> by lia.
    + intros content instance Hv Hn. by apply (info_native c s b v content instance).
    + intros n content instance Hv Hn Hp.
      by apply (info_plutus c s b v content n instance).
Qed.


End ScriptFacts.

Section ScriptExamples.
Import Script.

Let info := get_reference_script_info script_model cbor2_loads from_primitive
              from_version.

(** C5, on the code.  The reference ["d81805"] is a tag 24 that wraps the
    integer 5 instead of a byte string: [cbor2.loads] is then called on an
    integer and raises [TypeError], which [get_reference_script_info] does
    not catch.  The classifier raises; so does [hydra_reference_script]. *)
Theorem classifier_raises_on_wrapped_integer :
  fromhex "d81805" = Return ["216"; "024"; "005"]%char /\
  cbor2_loads (CBytes ["216"; "024"; "005"]%char) = Return (CTag 24 (CInt 5)) /\
  info (Some "d81805") = Raise (TypeError "a bytes-like object is required") /\
  hydra_reference_script script_model cbor2_loads from_primitive from_version
    script_truthy (Some "d81805")
    = Raise (TypeError "a bytes-like object is required").
Proof. repeat split; vm_compute; reflexivity. Qed.

(** The envelopes of the specification's examples. *)
Example info_native_script :
  info (Some "d818582282008200581c00000000000000000000000000000000000000000000000000000000")
  = Return {| script_instance :=
                Some (Native [CInt 0; CBytes (replicate 28 Ascii.zero)]);
              script_type := "SimpleScript";
              script_language := Some "NativeScriptLanguage SimpleScript" |}.
Proof. vm_compute. reflexivity. Qed.

Example info_plutus_v2 :
  info (Some "d81846820243010203")
  = Return {| script_instance := Some (Plutus 2 ["001"; "002"; "003"]%char);
              script_type := "PlutusScriptV2";
              script_language := Some "PlutusScriptLanguage PlutusScriptV2" |}.
Proof. vm_compute. reflexivity. Qed.

Example info_not_an_envelope :
  info (Some "8200") = Return (unknown script_model)
  /\ info (Some "zz") = Return (unknown script_model)
  /\ info (Some "d818428200") = Return (unknown script_model)
  /\ info (Some "d8184100") = Return (unknown script_model).
Proof. repeat split; vm_compute; reflexivity. Qed.

End ScriptExamples.

(* ===================================================================== *)
(** * More on the connection                                              *)
(* ===================================================================== *)

(** One round of the loop of [send]. *)
Lemma send_loop_step (data : json) (start_time : Z)
    (c : Connection.HydraConnection) :
  Connection.send_loop data start_time c =
    if decide (Connection.clock c - start_time < 5000) then
      if Connection.transport_open c
      then Connection.websocket_send data c
      else Connection.send_loop data start_time (Connection.sleep 1 c)
    else (Return false, c).
Proof. apply send_loop_unfold. Qed.

Section ConnectionInvariants.
Import Connection.


Lemma message_events_app (l1 l2 : list effect) :
  message_events (l1 ++ l2) = message_events l1 ++ message_events l2.
Proof. unfold message_events. apply omap_app. Qed.

Lemma status_events_replicate_sleep (k : nat) :
  status_events (replicate k (Sleep 1)) = [].
Proof. induction k as [|k IH]; [done | exact IH]. Qed.


Lemma message_events_replicate_sleep (k : nat) :
  message_events (replicate k (Sleep 1)) = [].
Proof. induction k as [|k IH]; [done | exact IH]. Qed.

(** Sleeping touches the clock and the trace only. *)
Lemma polls_frame (c : HydraConnection) (k : nat) :
  _status (polls c k) = _status c /\
  _connected (polls c k) = _connected c /\
  _websocket (polls c k) = _websocket c /\
  _websocket_url (polls c k) = _websocket_url c.
Proof. induction k as [|k IH]; [done | exact IH]. Qed.

Lemma polls_event_emitter (c : HydraConnection) (k : nat) :
  _event_emitter (polls c k) = _event_emitter c.
Proof. induction k as [|k IH]; [done | exact IH]. Qed.

(** The shape of every run of the loop of [send]: some number [k] of
    failed polls, each followed by a sleep, and then either the frame is
    handed to the transport within the window, or the window is over. *)
Lemma send_loop_shape (data : json) (start_time : Z) (n : nat) :
  forall c : HydraConnection,
    5000 - (clock c - start_time) <= 1000 * Z.of_nat n ->
    exists k : nat,
      (send_loop data start_time c = websocket_send data (polls c k) /\
       clock (polls c k) - start_time < 5000)
      \/
      (send_loop data start_time c = (Return false, polls c k) /\
       5000 <= clock (polls c k) - start_time /\
       (k = 0%nat \/ clock (polls c k) - start_time < 6000)).
Proof.
  induction n as [|n IH]; intros c Hn; rewrite send_loop_step.
  - rewrite decide_False by lia. exists 0%nat. right. simpl. split; [done | lia].
  - destruct (decide (clock c - start_time < 5000)) as [Hlt|Hge].
    + destruct (transport_open c) eqn:Eo.
      * exists 0%nat. left. by split.
      * destruct (IH (sleep 1 c)) as [k [[Hs Hc]|[Hs [Hc Hk]]]].
        { rewrite clock_sleep. lia. }
        { exists (S k). left. rewrite polls_succ. by split. }
        { exists (S k). right. rewrite polls_succ. split; [done |].
          split; [done |]. right.
          destruct Hk as [->|Hk]; [| done].
          simpl. simpl in Hc. lia. }
    + exists 0%nat. right. simpl. split; [done | lia].
Qed.

(** The three ways a call of [send] can go, after [k] failed polls, each
    followed by a sleep of one second: the frame goes out (after at most
    four sleeps), the transport raises when it is given the frame (after at
    most four sleeps), or the failure is printed (after five). *)
Lemma send_shape (data : json) (c : HydraConnection) :
  exists k : nat,
    ((k <= 4)%nat /\
     transport_error c (clock c + 1000 * Z.of_nat k) = None /\
     send data c = (Return VNone, perform (WsSend data) (polls c k)))
    \/ ((k <= 4)%nat /\
        exists e, transport_error c (clock c + 1000 * Z.of_nat k) = Some e /\
                  send data c = (Raise e, polls c k))
    \/ (k = 5%nat /\
        send data c = (Return VNone, perform (Print (LogSendFailed data)) (polls c k))).
Proof.
  assert (forall k, (k <= 4)%nat ->
            forall r c', (r, c') = websocket_send data (polls c k) ->
            (transport_error c (clock c + 1000 * Z.of_nat k) = None /\
             r = Return true /\ c' = perform (WsSend data) (polls c k))
            \/ (exists e, transport_error c (clock c + 1000 * Z.of_nat k) = Some e /\
                          r = Raise e /\ c' = polls c k)) as Hws.
  { intros k _ r c'. unfold websocket_send.
    rewrite transport_error_polls, clock_polls.
    destruct (transport_error c (clock c + 1000 * Z.of_nat k)) as [e|];
      intros [= -> ->]; [right; by exists e | by left]. }
  unfold send, send_data.
  destruct (transport_open c) eqn:Eo.
  - exists 0%nat.
    destruct (websocket_send data c) as [r c'] eqn:E.
    destruct (Hws 0%nat ltac:(lia) r c' (eq_sym E)) as [(Hn & -> & ->)|(e & He & -> & ->)].
    + left. split; [lia |]. by split.
    + right. left. split; [lia |]. by exists e.
  - destruct (send_loop_shape data (clock c) 5 c ltac:(lia))
      as [k [[Hs Hc]|[Hs [Hc Hk]]]]; rewrite Hs;
      pose proof (clock_polls c k) as Hclock; exists k.
    + destruct (websocket_send data (polls c k)) as [r c'] eqn:E.
      destruct (Hws k ltac:(lia) r c' (eq_sym E)) as [(Hn & -> & ->)|(e & He & -> & ->)].
      * left. split; [lia |]. by split.
      * right. left. split; [lia |]. by exists e.
    + right. right. split; [| done].
      destruct Hk as [->|Hk]; [simpl in Hc; lia | lia].
Qed.

Lemma send_status_events (data : json) (c : HydraConnection) :
  status_events (trace (send data c).2) = status_events (trace c).
Proof.
  destruct (send_shape data c) as [k [(_ & _ & ->)|[(_ & e & _ & ->)|(_ & ->)]]]; cbn;
    rewrite trace_polls, !status_events_app, status_events_replicate_sleep;
    cbn; by rewrite !app_nil_r.
Qed.


Lemma send_frame (data : json) (c : HydraConnection) :
  _status (send data c).2 = _status c /\
  _connected (send data c).2 = _connected c /\
  _websocket (send data c).2 = _websocket c /\
  _websocket_url (send data c).2 = _websocket_url c /\
  _event_emitter (send data c).2 = _event_emitter c.
Proof.
  destruct (send_shape data c) as [k [(_ & _ & ->)|[(_ & e & _ & ->)|(_ & ->)]]]; cbn;
    pose proof (polls_frame c k) as (H1 & H2 & H3 & H4);
    pose proof (polls_event_emitter c k) as H5; done.
Qed.


(** ** Status extraction, in full *)

(** [hydra_status] is the table of the five life-cycle tags, read after the
    test on [headStatus]: it returns a status exactly when [headStatus] is
    ["Open"] (and then [OPEN]) or the tag is in the table (and then the
    status the table gives). *)
Theorem hydra_status_table (m : gmap string json) (s : HydraStatus) :
  hydra_status m = Some s <->
    (m !! "headStatus" = Some (JStr "Open") /\ s = OPEN) \/
    (m !! "headStatus" <> Some (JStr "Open") /\
     exists tag, m !! "tag" = Some (JStr tag) /\ (tag, s) ∈ tag_table).
Proof.
  unfold hydra_status, tag_table.
  destruct (get_is m "headStatus" "Open") eqn:Eh.
  { apply get_is_true in Eh. split.
    - intros [= <-]. by left.
    - intros [[_ ->]|[Hn _]]; [done | by destruct Hn]. }
  apply get_is_false in Eh.
  destruct (get_is m "tag" "HeadIsInitializing") eqn:E1;
    [| destruct (get_is m "tag" "HeadIsOpen") eqn:E2;
       [| destruct (get_is m "tag" "HeadIsClosed") eqn:E3;
          [| destruct (get_is m "tag" "ReadyToFanout") eqn:E4;
             [| destruct (get_is m "tag" "HeadIsFinalized") eqn:E5]]]].
  all: repeat match goal with
         | H : get_is _ _ _ = true |- _ => apply get_is_true in H
         | H : get_is _ _ _ = false |- _ => apply get_is_false in H
         end.
  all: split.
  all: try (intros [= <-]; right; split; [done |]; eexists; split;
            [eassumption | set_solver]).
  all: try (intros [[Hh _]|[_ (tag & Htag & Hin)]]; [by destruct Eh |];
            repeat (apply elem_of_cons in Hin as [Hin|Hin];
                    [injection Hin as -> ->; congruence |]);
            by apply elem_of_nil in Hin).
  discriminate.
Qed.

(** A message never announces a status of the transport. *)
Lemma hydra_status_range (m : gmap string json) (s : HydraStatus) :
  hydra_status m = Some s -> s ∈ head_statuses.
Proof.
  unfold hydra_status, head_statuses.
  repeat (case_match; [intros [= <-]; set_solver |]). discriminate.
Qed.

(** ** What the connection publishes *)

Lemma process_status_events (m : gmap string json) (c : HydraConnection) :
  exists l, status_events (trace (process_status m c)) = status_events (trace c) ++ l
            /\ Forall publishable l /\ (length l <= 1)%nat.
Proof.
  unfold process_status. destruct (hydra_status m) as [s|] eqn:E.
  - exists [s]. cbn [emit perform trace with_status].
    rewrite status_events_app. split; [done |]. split; [| done].
    apply Forall_singleton. right. right. by apply (hydra_status_range m).
  - exists []. rewrite app_nil_r. split; [done |]. split; [apply Forall_nil_2 | simpl; lia].
Qed.

(** The connection after a frame that parses: the frame is logged and
    published; then the status is processed or not; then the parse
    failure is printed or not. *)
Lemma on_message_state (j : json) (c : HydraConnection) :
  let c1 := emit (OnMessage j) (perform (Print (LogReceived j)) c) in
  exists c2,
    (c2 = c1 \/ exists m, j = JObj m /\ c2 = process_status m c1) /\
    ((_on_message (Some j) c).2 = c2 \/
     (_on_message (Some j) c).2 = perform (Print LogParseFailure) c2).
Proof.
  cbn zeta. cbn [_on_message]. unfold except_JSONDecodeError.
  destruct (emit_outcome (OnMessage j) c) as [u|e].
  - destruct j as [| | | | |m]; try (eexists; split; [by left | by left]).
    destruct (process_status_outcome m _) as [u'|e].
    + eexists. split; [right; by eexists | by left].
    + destruct (is_JSONDecodeError e);
        (eexists; split; [right; by eexists |]); [by right | by left].
  - destruct (is_JSONDecodeError e); (eexists; split; [by left |]);
      [by right | by left].
Qed.

Lemma step_status_events (o : operation) (c : HydraConnection) :
  exists l, status_events (trace (step c o)) = status_events (trace c) ++ l
            /\ Forall publishable l /\ (length l <= 1)%nat.
Proof.
  destruct o as [net|data| | |parsed| |code msg]; cbn [step].
  - exists []. split; [| split; [apply Forall_nil_2 | simpl; lia]].
    cbn. rewrite status_events_app. done.
  - exists []. split; [| split; [apply Forall_nil_2 | simpl; lia]].
    rewrite app_nil_r. apply send_status_events.
  - unfold disconnect. destruct (decide (_status c = IDLE)).
    + exists []. rewrite app_nil_r. split; [done |]. split; [apply Forall_nil_2 | simpl; lia].
    + exists [IDLE]. split; [| split; [apply Forall_singleton; by left | done]].
      destruct (transport_open c) eqn:Eo.
      * unfold close_websocket, transport_open in *.
        destruct (_websocket c); [| discriminate]. cbn.
        rewrite !status_events_app. cbn. by rewrite app_nil_r.
      * cbn. by rewrite status_events_app.
  - exists []. split; [| split; [apply Forall_nil_2 | simpl; lia]].
    cbn. rewrite status_events_app. done.
  - destruct parsed as [j|].
    + assert (status_events
                (trace (emit (OnMessage j) (perform (Print (LogReceived j)) c)))
              = status_events (trace c)) as H1.
      { cbn. rewrite !status_events_app. cbn. by rewrite !app_nil_r. }
      destruct (on_message_state j c) as (c2 & Hc2 & Hs).
      assert (exists l, status_events (trace c2) = status_events (trace c) ++ l
                        /\ Forall publishable l /\ (length l <= 1)%nat)
        as (l & Hl & Hp & Hlen).
      { destruct Hc2 as [->|(m & -> & ->)].
        - exists []. rewrite app_nil_r. split; [done |].
          split; [apply Forall_nil_2 | simpl; lia].
        - destruct (process_status_events m
                      (emit (OnMessage (JObj m))
                         (perform (Print (LogReceived (JObj m))) c)))
            as (l & Hl & Hp & Hlen).
          exists l. by rewrite Hl, H1. }
      exists l. split; [| done].
      destruct Hs as [-> | ->]; [done |].
      cbn. rewrite status_events_app, Hl. cbn. by rewrite app_nil_r.
    + exists []. split; [| split; [apply Forall_nil_2 | simpl; lia]].
      cbn. rewrite status_events_app. done.
  - exists []. split; [| split; [apply Forall_nil_2 | simpl; lia]].
    cbn. rewrite status_events_app. done.
  - exists [DISCONNECTED]. split; [| split; [apply Forall_singleton; right; by left | done]].
    cbn. rewrite !status_events_app. cbn. by rewrite app_nil_r.
Qed.

(** Whatever is done to a connection, in whatever order, it publishes at
    most one status change per operation, and never [CONNECTING] nor
    [CONNECTED]: the statuses that [connect] and the open callback set are
    not announced to subscribers. *)
Theorem published_statuses (ops : list operation) (c : HydraConnection) :
  exists l,
    status_events (trace (run ops c)) = status_events (trace c) ++ l /\
    Forall (fun s => s <> CONNECTING /\ s <> CONNECTED) l /\
    (length l <= length ops)%nat.
Proof.
  revert c. induction ops as [|o ops IH]; intros c.
  - exists []. rewrite app_nil_r. split; [done |]. split; [apply Forall_nil_2 | done].
  - cbn [run foldl]. destruct (step_status_events o c) as (l1 & H1 & Hp & Hlen).
    destruct (IH (step c o)) as (l2 & H2 & Hn & Hlen2).
    exists (l1 ++ l2). unfold run in H2. rewrite H2, H1, app_assoc.
    split; [done |]. split.
    + apply Forall_app. split; [| done].
      eapply Forall_impl; [exact Hp |]. intros s [->|[->|Hs]]; [done | done |].
      unfold head_statuses in Hs. split; intros ->; set_solver.
    + rewrite length_app. simpl. lia.
Qed.

(** ** The life cycle, step by step *)

(** From any connection whose subscribers do not raise on the message nor
    on the status change it brings: [connect] sets [CONNECTING], the open
    callback [CONNECTED], a [HeadIsOpen] message is handled without error
    and sets [OPEN], and the close callback sets [DISCONNECTED]; of these
    four changes only the last two are published, and the message itself
    is published once. *)
Theorem life_cycle (net : Z -> bool) (m : gmap string json)
    (code : option Z) (msg : option string) (c : HydraConnection) :
  m !! "tag" = Some (JStr "HeadIsOpen") ->
  _event_emitter c (OnMessage (JObj m)) = Return tt ->
  _event_emitter c (OnStatusChange OPEN) = Return tt ->
  let c1 := connect net c in
  let c2 := _on_open c1 in
  let c3 := (_on_message (Some (JObj m)) c2).2 in
  let c4 := _on_close code msg c3 in
  _status c1 = CONNECTING /\ _status c2 = CONNECTED /\
  (_on_message (Some (JObj m)) c2).1 = Return tt /\
  _status c3 = OPEN /\ _status c4 = DISCONNECTED /\
  _connected c2 = true /\ _connected c4 = false /\
  status_events (trace c4) = status_events (trace c) ++ [OPEN; DISCONNECTED] /\
  message_events (trace c4) = message_events (trace c) ++ [JObj m].
Proof.
  intros Htag Hmessage Hstatus. cbn zeta.
  assert (hydra_status m = Some OPEN) as Hs.
  { apply get_is_true in Htag. unfold hydra_status.
    destruct (get_is m "headStatus" "Open"); [done |].
    assert (get_is m "tag" "HeadIsInitializing" = false) as ->.
    { apply get_is_false. apply get_is_true in Htag. rewrite Htag. by intros [=]. }
    by rewrite Htag. }
  unfold _on_message, process_status_outcome, process_status, emit_outcome.
  rewrite Hs. cbn. rewrite Hmessage, Hstatus. cbn.
  repeat split.
  - rewrite !status_events_app. cbn. by rewrite !app_nil_r, <- !app_assoc.
  - rewrite !message_events_app. cbn. by rewrite !app_nil_r.
Qed.

Lemma life_cycle_witness :
  let c := init "ws://node:4001/?history=no" 0 in
  let c1 := connect (fun _ => true) c in
  let c2 := _on_open c1 in
  let c3 := (_on_message (Some (JObj head_is_open)) c2).2 in
  let c4 := _on_close (Some 1000) None c3 in
  _status c1 = CONNECTING /\ _status c2 = CONNECTED /\
  (_on_message (Some (JObj head_is_open)) c2).1 = Return tt /\
  _status c3 = OPEN /\ _status c4 = DISCONNECTED /\
  _connected c2 = true /\ _connected c4 = false /\
  status_events (trace c4) = status_events (trace c) ++ [OPEN; DISCONNECTED] /\
  message_events (trace c4) = message_events (trace c) ++ [JObj head_is_open].
Proof.
  apply (life_cycle (fun _ => true) head_is_open (Some 1000) None
           (init "ws://node:4001/?history=no" 0)); reflexivity.
Defined.

(** ** Frames *)



(** A subscriber that fails on the message keeps the status from being
    processed: the head is open, the connection still says [CONNECTED],
    and the handler has raised the subscriber's [KeyError]. *)
Example on_message_with_a_failing_subscriber :
  let c := with_event_emitter
             (fun e => match e with
                       | OnMessage _ => Raise (KeyError "txId")
                       | OnStatusChange _ => Return tt
                       end) connected_example in
  (_on_message (Some (JObj head_is_open)) c).1 = Raise (KeyError "txId") /\
  _status (_on_message (Some (JObj head_is_open)) c).2 = CONNECTED /\
  hydra_status head_is_open = Some OPEN.
Proof. repeat split; reflexivity. Qed.

End ConnectionInvariants.

(* ===================================================================== *)
(** * The websocket URL                                                   *)
(* ===================================================================== *)

Section UrlFacts.
Import Text.

(** Passing over the rest of an occurrence is dropping its characters. *)
Lemma replace_from_skip (old new : string) (k : nat) :
  forall s : string,
    replace_from old new k s = replace_from old new O (suffix k s).
Proof.
  induction k as [|k IH]; intros s; [by destruct s |].
  destruct s as [|c s]; [reflexivity |]. cbn [replace_from suffix]. apply IH.
Qed.

(** The two cases of [replace] for ["http"]. *)
Lemma replace_http_step (c : ascii) (s : string) :
  replace "http" "ws" (String c s) =
    if String.prefix "http" (String c s)
    then "ws" +:+ replace "http" "ws" (suffix 3 s)
    else String c (replace "http" "ws" s).
Proof.
  unfold replace. cbn [replace_from].
  destruct (String.prefix "http" (String c s)); [| reflexivity].
  f_equal. change (String.length "http" - 1)%nat with 3%nat.
  apply replace_from_skip.
Qed.

Lemma contains_cons (old : string) (c : ascii) (s : string) :
  contains old (String c s) = String.prefix old (String c s) || contains old s.
Proof. reflexivity. Qed.

(** Text without ["http"] is left as it is. *)
Lemma replace_http_absent (s : string) :
  contains "http" s = false -> replace "http" "ws" s = s.
Proof.
  induction s as [|c s IH]; [reflexivity |].
  rewrite contains_cons. intros [Hp Hc]%orb_false_elim.
  rewrite replace_http_step, Hp. f_equal. by apply IH.
Qed.

Lemma suffix_length (k : nat) (s : string) :
  (String.length (suffix k s) <= String.length s)%nat.
Proof.
  revert s. induction k as [|k IH]; intros s; [by destruct s |].
  destruct s as [|c s]; [done |]. simpl. specialize (IH s). lia.
Qed.

(** What [replace] returns starts with ["ttp"] only if its argument does. *)
Lemma replace_http_ttp (s : string) :
  String.prefix "ttp" (replace "http" "ws" s) = true ->
  String.prefix "ttp" s = true.
Proof.
  destruct s as [|c1 s]; [done |]. rewrite replace_http_step.
  destruct (String.prefix "http" (String c1 s)) eqn:E1; [cbn; discriminate |].
  cbn [String.prefix]. destruct (ascii_dec "t" c1) as [<-|]; [| done].
  destruct s as [|c2 s]; [done |]. rewrite replace_http_step.
  destruct (String.prefix "http" (String c2 s)) eqn:E2; [cbn; discriminate |].
  cbn [String.prefix]. destruct (ascii_dec "t" c2) as [<-|]; [| done].
  destruct s as [|c3 s]; [done |]. rewrite replace_http_step.
  destruct (String.prefix "http" (String c3 s)) eqn:E3; [cbn; discriminate |].
  cbn [String.prefix]. destruct (ascii_dec "p" c3) as [<-|]; [| done].
  intros _. by destruct s.
Qed.

Lemma replace_http_clean_aux (n : nat) :
  forall s : string,
    (String.length s <= n)%nat -> contains "http" (replace "http" "ws" s) = false.
Proof.
  induction n as [|n IH]; intros s Hn.
  - destruct s; [reflexivity | simpl in Hn; lia].
  - destruct s as [|c s]; [reflexivity |].
    rewrite replace_http_step.
    destruct (String.prefix "http" (String c s)) eqn:Ep.
    + change ("ws" +:+ replace "http" "ws" (suffix 3 s))
        with (String "w" (String "s" (replace "http" "ws" (suffix 3 s)))).
      rewrite !contains_cons. cbn [String.prefix].
      destruct (ascii_dec "h" "w"); [discriminate |].
      destruct (ascii_dec "h" "s"); [discriminate |]. cbn [orb].
      apply IH. pose proof (suffix_length 3 s). simpl in Hn. lia.
    + rewrite contains_cons. rewrite (IH s) by (simpl in Hn; lia).
      rewrite orb_false_r.
      destruct (String.prefix "http" (String c (replace "http" "ws" s))) eqn:Eq;
        [| reflexivity].
      exfalso. cbn [String.prefix] in Ep, Eq.
      destruct (ascii_dec "h" c) as [<-|]; [| discriminate].
      apply replace_http_ttp in Eq. congruence.
Qed.

(** The derivation of the websocket URL.  An explicit websocket URL is
    taken as it is and the HTTP URL is ignored.  Otherwise every
    occurrence of ["http"] in the HTTP URL becomes ["ws"], wherever it
    stands: a URL that starts with ["http"] and has no other occurrence gets
    the scheme changed and nothing else, and what comes out never contains
    ["http"].  The query always carries the history parameter, and the
    address parameter exactly when a non-empty address is given. *)
Theorem websocket_url_derivation (http_url : string) (history : bool)
    (address ws_url : option string) :
  let query :=
    "/?history=" +:+ (if history then "yes" else "no") +:+
    match address with
    | Some (String c a) => "&address=" +:+ String c a
    | _ => ""
    end in
  (forall c w, ws_url = Some (String c w) ->
     Connection.websocket_url http_url history address ws_url
       = String c w +:+ query) /\
  (ws_url = None \/ ws_url = Some "" ->
     Connection.websocket_url http_url history address ws_url
       = replace "http" "ws" http_url +:+ query) /\
  (forall rest, http_url = "http" +:+ rest -> contains "http" rest = false ->
     replace "http" "ws" http_url = "ws" +:+ rest) /\
  contains "http" (replace "http" "ws" http_url) = false.
Proof.
  cbn zeta. split; [| split; [| split]].
  - intros c w ->. unfold Connection.websocket_url.
    by destruct history, address as [[|]|].
  - intros [->| ->]; unfold Connection.websocket_url;
      by destruct history, address as [[|]|].
  - intros rest -> Hrest.
    change ("http" +:+ rest) with (String "h" ("ttp" +:+ rest)).
    rewrite replace_http_step.
    assert (String.prefix "http" (String "h" ("ttp" +:+ rest)) = true) as ->
      by (cbn; by destruct rest).
    change (suffix 3 ("ttp" +:+ rest)) with rest.
    by rewrite replace_http_absent.
  - by apply (replace_http_clean_aux (String.length http_url)).
Qed.

End UrlFacts.

Example websocket_url_plain :
  Connection.websocket_url "http://123.45.67.890:4001" false None None
  = "ws://123.45.67.890:4001/?history=no".
Proof. reflexivity. Qed.

(** A secure URL gets the secure scheme, and a host name that contains
    ["http"] is rewritten with it. *)
Example websocket_url_secure_and_mangled :
  Connection.websocket_url "https://node.example" true (Some "addr1") None
    = "wss://node.example/?history=yes&address=addr1" /\
  Connection.websocket_url "http://httpbin.org" true None None
    = "ws://wsbin.org/?history=yes".
Proof. split; reflexivity. Qed.

(* ===================================================================== *)
(** * More on the asset model                                             *)
(* ===================================================================== *)

Section MoreAssetFacts.
Import Assets.

(** ** Entries with quantity zero *)

Lemma to_assets_loop_zero (h : HydraAssets) :
  forall acc : Value,
    to_assets_loop (filter (fun e => snd e <> 0) h) acc = to_assets_loop h acc.
Proof.
  induction h as [|[u q] h IH]; intros acc; [reflexivity |].
  rewrite filter_cons. cbn [snd to_assets_loop].
  destruct (decide (q <> 0)) as [Hq|Hq].
  - cbn [to_assets_loop].
    assert ((q =? 0) = false) as -> by lia.
    destruct (q <? 0); [reflexivity |].
    destruct (String.eqb u "lovelace"); [apply IH |].
    destruct (len u <? 56); [reflexivity |].
    destruct (add_asset u (prefix 56 u) (suffix 56 u) q (multi_asset acc));
      [apply IH | reflexivity].
  - assert ((q =? 0) = true) as -> by lia. apply IH.
Qed.

(** [to_assets] does not look at an entry whose quantity is zero: such
    entries can be removed without changing the result, even when their
    unit is malformed.  [hydra_assets_to_value] has no such rule: it
    converts the unit of every entry. *)
Theorem to_assets_ignores_zero (h : HydraAssets) :
  to_assets (filter (fun e => snd e <> 0) h) = to_assets h /\
  (forall unit rest, unit <> "lovelace" -> len unit < 56 ->
     to_assets ((unit, 0) :: rest) = to_assets rest /\
     returns (hydra_assets_to_value ((unit, 0) :: rest)) = false).
Proof.
  split; [apply to_assets_loop_zero |].
  intros unit rest Hu Hlen. split; [reflexivity |].
  apply (hydra_assets_to_value_loop_never_returns _ unit 0); [| done | done].
  apply elem_of_cons. by left.
Qed.

(** ** The two conversions side by side *)

Lemma suffix_all (n : nat) (s : string) :
  (String.length s <= n)%nat -> suffix n s = "".
Proof.
  revert s. induction n as [|n IH]; intros [|c s] Hs; try reflexivity.
  - simpl in Hs. lia.
  - simpl. apply IH. simpl in Hs. lia.
Qed.

Lemma to_value_names (unit : string) :
  56 <= len unit ->
  (if 56 <=? len unit then prefix 56 unit else "") = prefix 56 unit /\
  (if 56 <? len unit then suffix 56 unit else "") = suffix 56 unit.
Proof.
  intros H. assert ((56 <=? len unit) = true) as -> by lia. split; [done |].
  destruct (56 <? len unit) eqn:E; [done |].
  symmetry. apply suffix_all. unfold len in *. lia.
Qed.

Lemma conversions_agree_loop (h : HydraAssets) :
  forall acc : Value,
    Forall (fun e => 0 < snd e /\ (fst e = "lovelace" \/ 56 <= len (fst e))) h ->
    to_assets_loop h acc = hydra_assets_to_value_loop h acc.
Proof.
  induction h as [|[u q] h IH]; intros acc Hall; [reflexivity |].
  apply Forall_cons in Hall as [[Hq Hu] Hall]. cbn [fst snd] in Hq, Hu.
  cbn [to_assets_loop hydra_assets_to_value_loop].
  assert ((q =? 0) = false) as -> by lia.
  assert ((q <? 0) = false) as -> by lia.
  destruct (String.eqb_spec u "lovelace") as [->|Hne]; [by apply IH |].
  destruct Hu as [Hu|Hu]; [done |].
  assert ((len u <? 56) = false) as -> by lia.
  destruct (to_value_names u Hu) as [-> ->].
  destruct (add_asset u (prefix 56 u) (suffix 56 u) q (multi_asset acc));
    [by apply IH | reflexivity].
Qed.

(** On a dictionary whose quantities are all positive and whose units
    other than ["lovelace"] have at least 56 characters, [to_assets] and
    [hydra_assets_to_value] do the same: the same coin and multi-asset, or
    the same error. *)
Theorem conversions_agree (h : HydraAssets) :
  Forall (fun e => 0 < snd e /\ (fst e = "lovelace" \/ 56 <= len (fst e))) h ->
  to_assets h = hydra_assets_to_value h.
Proof. apply conversions_agree_loop. Qed.

Lemma conversions_agree_witness :
  to_assets [("lovelace", 5); (policy_example +:+ "HYDRA", 7)]
  = hydra_assets_to_value [("lovelace", 5); (policy_example +:+ "HYDRA", 7)].
Proof.
  apply (conversions_agree [("lovelace", 5); (policy_example +:+ "HYDRA", 7)]).
  apply Forall_cons. split; [simpl; split; [lia | by left] |].
  apply Forall_cons. split; [| apply Forall_nil_2].
  simpl. split; [lia |]. right. vm_compute. discriminate.
Defined.

(** ** What [hydra_assets] returns *)

Lemma dict_set_fresh {K V : Type} `{EqDecision K} (d : list (K * V)) (k : K) (v : V) :
  k ∉ dict_keys d -> dict_set d k v = d ++ [(k, v)].
Proof.
  induction d as [|[k' v'] d IH]; [reflexivity |].
  intros Hk. cbn [dict_set]. unfold dict_keys in *. rewrite fmap_cons in Hk.
  apply not_elem_of_cons in Hk as [Hne Hk].
  rewrite decide_False by done. cbn [app]. f_equal. by apply IH.
Qed.

Lemma dict_set_Forall {K V : Type} `{EqDecision K} (P : K * V -> Prop)
    (d : list (K * V)) (k : K) (v : V) :
  Forall P d -> P (k, v) -> Forall P (dict_set d k v).
Proof.
  intros Hd Hv. induction d as [|[k' v'] d IH]; [by apply Forall_singleton |].
  apply Forall_cons in Hd as [Hh Hd]. cbn [dict_set].
  destruct (decide (k = k')); apply Forall_cons; split; auto.
Qed.

Lemma dict_get_Forall {K V : Type} `{EqDecision K} (P : K * V -> Prop)
    (d : list (K * V)) (k : K) (v : V) :
  Forall P d -> dict_get d k = Some v -> P (k, v).
Proof.
  intros Hd. induction d as [|[k' v'] d IH]; [done |].
  apply Forall_cons in Hd as [Hh Hd]. cbn [dict_get].
  destruct (decide (k = k')) as [->|]; [by intros [= <-] | by apply IH].
Qed.

Lemma dict_get_elem_of {K V : Type} `{EqDecision K} (d : list (K * V)) (k : K) (v : V) :
  NoDup (dict_keys d) -> (k, v) ∈ d <-> dict_get d k = Some v.
Proof.
  induction d as [|[k' v'] d IH]; intros Hnd.
  - split; [by intros ?%elem_of_nil | done].
  - unfold dict_keys in *. rewrite fmap_cons in Hnd.
    apply NoDup_cons in Hnd as [Hnot Hnd]. cbn [dict_get]. rewrite elem_of_cons.
    destruct (decide (k = k')) as [->|Hne].
    + split.
      * intros [[= ->]|Hin]; [done |]. exfalso. apply Hnot.
        apply list_elem_of_fmap. by exists (k', v).
      * intros [= ->]. by left.
    + rewrite <- (IH Hnd). split; [intros [[= -> ->]|]; [done | done] | by right].
Qed.

Lemma canonical_unit_not_empty (u : string) : canonical_unit u <> "".
Proof. unfold canonical_unit. by destruct (String.eqb_spec u ""). Qed.

(** The loop keeps ["lovelace"] in front, and only there. *)
Lemma hydra_assets_loop_front (entries : list (string * Z)) :
  forall (v0 : Z) (r0 d : HydraAssets),
    Forall (fun e => 0 <= snd e) entries ->
    0 <= v0 -> Forall (fun e => 0 <= snd e) r0 ->
    "lovelace" ∉ dict_keys r0 -> "" ∉ dict_keys r0 ->
    hydra_assets_loop (pairs entries) (("lovelace", v0) :: r0) = Return d ->
    exists v r, d = ("lovelace", v) :: r /\ 0 <= v /\
                Forall (fun e => 0 <= snd e) r /\
                ("lovelace" ∉ dict_keys r) /\ ("" ∉ dict_keys r).
Proof.
  induction entries as [|[u q] entries IH]; intros v0 r0 d Hnn Hv0 Hr0 Hl He.
  - intros [= <-]. by exists v0, r0.
  - apply Forall_cons in Hnn as [Hq Hnn]. cbn [snd] in Hq.
    cbn [pairs fmap list_fmap fst snd hydra_assets_loop].
    assert ((q <? 0) = false) as -> by lia.
    fold (canonical_unit u). fold (pairs entries).
    cbn [dict_get dict_set].
    destruct (decide (canonical_unit u = "lovelace")) as [Hu|Hu].
    + rewrite Hu. unfold default. cbn [from_option id].
      apply IH; try done. lia.
    + apply IH; try done.
      * apply dict_set_Forall; [done |]. cbn [snd].
        destruct (dict_get r0 (canonical_unit u)) as [x|] eqn:Ex;
          unfold default; cbn [from_option id]; [| lia].
        pose proof (dict_get_Forall (fun e => 0 <= snd e) r0 _ x Hr0 Ex) as Hx.
        simpl in Hx. lia.
      * rewrite dict_keys_set. case_decide; [done |].
        intros [Hin|Hin%list_elem_of_singleton]%elem_of_app; [done | congruence].
      * rewrite dict_keys_set. case_decide; [done |].
        intros [Hin|Hin%list_elem_of_singleton]%elem_of_app; [done |].
        by apply (canonical_unit_not_empty u).
Qed.

(** [hydra_assets] returns exactly when no quantity is negative. *)
Lemma hydra_assets_returns (entries : list (string * Z)) :
  returns (hydra_assets (pairs entries)) = true <->
  Forall (fun e => 0 <= snd e) entries.
Proof.
  split.
  - intros Hret.
    destruct (Forall_Exists_dec (fun e : string * Z => 0 <= snd e)
                (fun e => 0 > snd e)
                (fun e => Z_le_gt_dec 0 (snd e)) entries) as [Hall|Hex]; [done |].
    { exfalso.
      assert (Exists (fun e : string * Z => snd e < 0) entries) as Hex'.
      { eapply Exists_impl; [exact Hex |]. intros e He. simpl in He. lia. }
      apply first_negative in Hex' as (pre & u & q & post & -> & Hpre & Hq).
      unfold hydra_assets in Hret.
      by rewrite (hydra_assets_loop_negative pre post u q _ Hpre Hq) in Hret. }
  - intros Hnn. unfold hydra_assets.
    destruct (hydra_assets_loop_sums entries [("lovelace", 0)] Hnn)
      as (d & Hd & _); [apply NoDup_singleton |]. by rewrite Hd.
Qed.

(** The quantities [hydra_assets] returns are the sums per unit. *)
Lemma hydra_assets_lookup (entries : list (string * Z)) (d : HydraAssets) :
  hydra_assets (pairs entries) = Return d ->
  NoDup (dict_keys d) /\
  forall unit, dict_get d unit
               = if decide (total entries unit = 0) then None
                 else Some (total entries unit).
Proof.
  intros Hd.
  assert (Forall (fun e => 0 <= snd e) entries) as Hnn.
  { apply hydra_assets_returns. by rewrite Hd. }
  unfold hydra_assets in Hd.
  destruct (hydra_assets_loop_sums entries [("lovelace", 0)] Hnn)
    as (d0 & Hd0 & Hnd & Hsum); [apply NoDup_singleton |].
  rewrite Hd0 in Hd. injection Hd as <-. split.
  - eapply sublist_NoDup; [exact Hnd |].
    unfold dict_keys. apply fmap_sublist, sublist_filter.
  - intros unit. rewrite dict_get_filter by done.
    pose proof (Hsum unit) as Hu. rewrite quantity_of_initial in Hu.
    unfold quantity_of in Hu.
    destruct (dict_get d0 unit) as [v|]; simpl in Hu.
    + assert (v = total entries unit) as -> by lia.
      destruct (decide (total entries unit = 0)).
      * by rewrite decide_False by (intros Hn; by apply Hn).
      * by rewrite decide_True.
    + rewrite decide_True; [done | lia].
Qed.

Lemma hydra_assets_canonical_form (entries : list (string * Z)) (d : HydraAssets) :
  hydra_assets (pairs entries) = Return d -> canonical d.
Proof.
  intros Hd. pose proof (hydra_assets_lookup entries d Hd) as [Hnd _].
  assert (Forall (fun e => 0 <= snd e) entries) as Hnn.
  { apply hydra_assets_returns. by rewrite Hd. }
  unfold hydra_assets in Hd.
  destruct (hydra_assets_loop (pairs entries) [("lovelace", 0)]) as [d0|] eqn:E;
    [| discriminate].
  assert (exists v r, d0 = ("lovelace", v) :: r /\ 0 <= v /\
                      Forall (fun e => 0 <= snd e) r /\
                      ("lovelace" ∉ dict_keys r) /\ ("" ∉ dict_keys r))
    as (v & r & -> & Hv & Hr & Hl & He).
  { apply (hydra_assets_loop_front entries 0 [] d0);
      [done | lia | apply Forall_nil_2 | apply not_elem_of_nil
      | apply not_elem_of_nil | done]. }
  injection Hd as <-.
  assert (forall k, k ∈ dict_keys (filter (fun kv : string * Z => snd kv <> 0) r) ->
                    k ∈ dict_keys r) as Hsub.
  { intros k [[k' v'] [-> [_ Hin]%list_elem_of_filter]]%list_elem_of_fmap.
    apply list_elem_of_fmap. by exists (k', v'). }
  assert (Forall (fun e : string * Z => 0 < snd e)
            (filter (fun kv : string * Z => snd kv <> 0) r)) as Hpos.
  { apply Forall_forall. intros [k x] [Hx Hin]%list_elem_of_filter.
    rewrite Forall_forall in Hr. specialize (Hr _ Hin). simpl in *. lia. }
  split; [done |]. rewrite filter_cons. cbn [snd].
  destruct (decide (v <> 0)) as [Hv0|Hv0].
  - split; [apply Forall_cons; split; [simpl; lia | done] |]. split.
    + unfold dict_keys. rewrite fmap_cons. intros [Habs|Hin]%elem_of_cons; [done |].
      by apply He, Hsub.
    + cbn [tail]. intros Hin. by apply Hl, Hsub.
  - split; [done |]. split; [intros Hin; by apply He, Hsub |].
    intros Hin. apply Hl, Hsub.
    destruct (filter _ r) as [|x t]; [done |]. cbn [tail] in Hin.
    unfold dict_keys. rewrite fmap_cons. by apply elem_of_cons; right.
Qed.

(** Entries with fresh, distinct units are appended in order. *)
Lemma hydra_assets_loop_fresh (l : HydraAssets) :
  forall acc : HydraAssets,
    NoDup (dict_keys l) -> Forall (fun e => 0 <= snd e) l ->
    "" ∉ dict_keys l ->
    (forall k, k ∈ dict_keys l -> k ∉ dict_keys acc) ->
    hydra_assets_loop (pairs l) acc = Return (acc ++ l).
Proof.
  induction l as [|[u q] l IH]; intros acc Hnd Hnn He Hfresh.
  - by rewrite app_nil_r.
  - unfold dict_keys in Hnd, He. rewrite fmap_cons in Hnd, He.
    apply NoDup_cons in Hnd as [Hnot Hnd].
    apply Forall_cons in Hnn as [Hq Hnn]. cbn [fst snd] in *.
    apply not_elem_of_cons in He as [Hu He].
    cbn [pairs fmap list_fmap fst snd hydra_assets_loop].
    assert ((q <? 0) = false) as -> by lia.
    assert (String.eqb u "" = false) as -> by (apply String.eqb_neq; congruence).
    fold (pairs l).
    assert (u ∉ dict_keys acc) as Hacc.
    { apply Hfresh. unfold dict_keys. rewrite fmap_cons. apply elem_of_cons. by left. }
    rewrite (dict_get_None acc u Hacc), (dict_set_fresh acc u _ Hacc).
    unfold default; cbn [from_option id].
    rewrite IH; try done.
    + by rewrite <- app_assoc.
    + intros k Hk. unfold dict_keys. rewrite fmap_app.
      intros [Hin|Hin%list_elem_of_singleton]%elem_of_app.
      * apply (Hfresh k); [| done]. unfold dict_keys. rewrite fmap_cons.
        apply elem_of_cons. by right.
      * simpl in Hin. subst k. by apply Hnot.
Qed.

Lemma filter_all {A : Type} (P : A -> Prop) `{forall x, Decision (P x)} (l : list A) :
  Forall P l -> filter P l = l.
Proof.
  induction l as [|x l IH]; [done |]. intros [Hx Hl]%Forall_cons.
  rewrite filter_cons, decide_True by done. f_equal. by apply IH.
Qed.

Lemma canonical_fixed (d : HydraAssets) :
  canonical d -> hydra_assets (pairs d) = Return d.
Proof.
  intros (Hnd & Hpos & He & Hl). unfold hydra_assets.
  assert (Forall (fun e : string * Z => snd e <> 0) d) as Hnz.
  { eapply Forall_impl; [exact Hpos |]. intros e Hp. simpl in *. lia. }
  assert (Forall (fun e : string * Z => 0 <= snd e) d) as Hnn.
  { eapply Forall_impl; [exact Hpos |]. intros e Hp. simpl in *. lia. }
  destruct d as [|[u q] t]; [reflexivity |].
  destruct (String.eqb_spec u "lovelace") as [->|Hu].
  - cbn [tail] in Hl.
    unfold dict_keys in Hnd, He. rewrite fmap_cons in Hnd, He.
    apply NoDup_cons in Hnd as [_ Hnd].
    apply not_elem_of_cons in He as [_ He].
    apply Forall_cons in Hnn as [Hq Hnn]. cbn [snd] in Hq.
    cbn [pairs fmap list_fmap fst snd hydra_assets_loop].
    assert ((q <? 0) = false) as -> by lia. fold (pairs t).
    change (String.eqb "lovelace" "") with false. cbv iota.
    cbn [dict_get dict_set]. rewrite !decide_True by done.
    unfold default; cbn [from_option id].
    rewrite (hydra_assets_loop_fresh t [("lovelace", 0 + q)]); try done.
    + cbn [mbind outcome_bind Py.bind mret outcome_ret app].
      f_equal. replace (0 + q) with q by lia. by apply filter_all.
    + intros k Hk. intros Hin%list_elem_of_singleton. simpl in Hin. by subst k.
  - rewrite (hydra_assets_loop_fresh _ [("lovelace", 0)]); try done.
    + cbn [mbind outcome_bind Py.bind mret outcome_ret app].
      f_equal. rewrite filter_cons, decide_False by (cbn; lia).
      by apply filter_all.
    + intros k Hk Hin%list_elem_of_singleton. simpl in Hin. subst k.
      unfold dict_keys in Hk. rewrite fmap_cons in Hk.
      apply elem_of_cons in Hk as [Hk|Hk]; [simpl in Hk; congruence |].
      by apply Hl.
Qed.

(** [hydra_assets] is idempotent, and its results are the canonical
    dictionaries: what it returns is canonical (distinct units, positive
    quantities, no empty unit, ["lovelace"] in front when present), and on
    the entries of a canonical dictionary it returns that very dictionary,
    in the same order. *)
Theorem hydra_assets_idempotent (entries : list (string * Z)) (d : HydraAssets) :
  hydra_assets (pairs entries) = Return d ->
  canonical d /\
  hydra_assets (pairs d) = Return d /\
  (forall d', canonical d' <-> hydra_assets (pairs d') = Return d').
Proof.
  intros Hd. pose proof (hydra_assets_canonical_form entries d Hd) as Hc.
  split; [done |]. split; [by apply canonical_fixed |].
  intros d'. split; [apply canonical_fixed | apply hydra_assets_canonical_form].
Qed.

Lemma hydra_assets_idempotent_witness :
  canonical [("lovelace", 7); ("ab", 7)] /\
  hydra_assets (pairs [("lovelace", 7); ("ab", 7)])
    = Return [("lovelace", 7); ("ab", 7)] /\
  (forall d', canonical d' <-> hydra_assets (pairs d') = Return d').
Proof.
  apply (hydra_assets_idempotent
           [("", 5); ("ab", 3); ("lovelace", 2); ("cd", 0); ("ab", 4)]).
  reflexivity.
Defined.

Lemma total_Permutation (es es' : list (string * Z)) (unit : string) :
  es ≡ₚ es' -> total es unit = total es' unit.
Proof.
  induction 1 as [|[u q] l l' _ IH|[u q] [u' q'] l|l1 l2 l3 _ IH1 _ IH2];
    simpl; lia.
Qed.

(** The order of the entries does not matter to [hydra_assets]: on a
    rearrangement of its entries it returns or raises alike, and what it
    returns has the same quantity under every unit (the two dictionaries
    hold the same items, possibly in another order). *)
Theorem hydra_assets_order_insensitive (es es' : list (string * Z)) :
  es ≡ₚ es' ->
  returns (hydra_assets (pairs es)) = returns (hydra_assets (pairs es')) /\
  (forall d d',
     hydra_assets (pairs es) = Return d ->
     hydra_assets (pairs es') = Return d' ->
     (forall unit, dict_get d unit = dict_get d' unit) /\ d ≡ₚ d').
Proof.
  intros Hp. split.
  - destruct (returns (hydra_assets (pairs es))) eqn:E1;
      destruct (returns (hydra_assets (pairs es'))) eqn:E2; try done.
    + apply hydra_assets_returns in E1. rewrite Hp in E1.
      apply hydra_assets_returns in E1. congruence.
    + apply hydra_assets_returns in E2. rewrite <- Hp in E2.
      apply hydra_assets_returns in E2. congruence.
  - intros d d' Hd Hd'.
    apply hydra_assets_lookup in Hd as [Hnd Hget].
    apply hydra_assets_lookup in Hd' as [Hnd' Hget'].
    assert (forall unit, dict_get d unit = dict_get d' unit) as Heq.
    { intros unit. by rewrite Hget, Hget', (total_Permutation es es' unit Hp). }
    split; [done |].
    apply NoDup_Permutation.
    + by apply (NoDup_fmap_1 fst).
    + by apply (NoDup_fmap_1 fst).
    + intros [k v]. by rewrite !dict_get_elem_of, Heq.
Qed.

Lemma hydra_assets_order_insensitive_witness :
  returns (hydra_assets (pairs [("ab", 3); ("", 5); ("ab", 4)]))
    = returns (hydra_assets (pairs [("", 5); ("ab", 4); ("ab", 3)])) /\
  (forall d d',
     hydra_assets (pairs [("ab", 3); ("", 5); ("ab", 4)]) = Return d ->
     hydra_assets (pairs [("", 5); ("ab", 4); ("ab", 3)]) = Return d' ->
     (forall unit, dict_get d unit = dict_get d' unit) /\ d ≡ₚ d').
Proof.
  apply (hydra_assets_order_insensitive
           [("ab", 3); ("", 5); ("ab", 4)] [("", 5); ("ab", 4); ("ab", 3)]).
  etrans; [apply perm_swap |]. apply perm_skip. apply perm_swap.
Defined.

End MoreAssetFacts.

(* ===================================================================== *)
(** * What [to_assets] accepts                                            *)
(* ===================================================================== *)

Section AcceptanceFacts.
Import Assets.

Lemma hex_digit_not_space (c : ascii) :
  is_Some (hex_digit c) -> is_space c = false.
Proof.
  unfold hex_digit, is_space. intros [h Hh].
  destruct (N_of_ascii c =? 32)%N eqn:E32;
    destruct ((9 <=? N_of_ascii c) && (N_of_ascii c <=? 13))%N eqn:E9; try done.
  - apply N.eqb_eq in E32. rewrite E32 in Hh. vm_compute in Hh. discriminate.
  - apply N.eqb_eq in E32. rewrite E32 in Hh. vm_compute in Hh. discriminate.
  - apply andb_true_iff in E9 as [H9 H13].
    apply N.leb_le in H9. apply N.leb_le in H13.
    assert ((48 <=? N_of_ascii c)%N = false) as E1 by (apply N.leb_gt; lia).
    assert ((97 <=? N_of_ascii c)%N = false) as E2 by (apply N.leb_gt; lia).
    assert ((65 <=? N_of_ascii c)%N = false) as E3 by (apply N.leb_gt; lia).
    rewrite E1, E2, E3 in Hh. discriminate.
Qed.

(** Hexadecimal digits decode, two to a byte. *)
Lemma fromhex_from_all_hex (s : string) :
  forall (top : option N) (n : nat),
    all_hex s = true ->
    String.length s = (2 * n + pending top)%nat ->
    exists b, fromhex_from s top = Return b /\
              length b = (n + pending top)%nat.
Proof.
  induction s as [|c s IH]; intros top n Hall Hlen.
  - destruct top; simpl in Hlen; [lia |]. exists []. split; [done |]. simpl. lia.
  - cbn [all_hex] in Hall. apply andb_true_iff in Hall as [Hc Hall].
    apply bool_decide_eq_true in Hc.
    pose proof (hex_digit_not_space c Hc) as Hsp. destruct Hc as [x Hx].
    cbn [fromhex_from String.length] in *. rewrite Hx.
    destruct top as [h|]; cbn [pending] in *.
    + destruct (IH None n Hall) as (b & Hb & Hl); [cbn [pending]; lia |].
      rewrite Hb. eexists. split; [done |]. cbn [pending length] in *. lia.
    + rewrite Hsp. destruct n as [|n]; [lia |].
      destruct (IH (Some x) n Hall) as (b & Hb & Hl); [cbn [pending]; lia |].
      exists b. split; [done |]. cbn [pending] in *. lia.
Qed.

(** Conversely, text that decodes to half as many bytes as it has
    characters is made of hexadecimal digits. *)
Lemma fromhex_from_length (s : string) :
  forall (top : option N) (b : bytes),
    fromhex_from s top = Return b ->
    (2 * length b <= String.length s + pending top)%nat /\
    ((2 * length b = String.length s + pending top)%nat ->
     all_hex s = true).
Proof.
  induction s as [|c s IH]; intros top b Hb; cbn [fromhex_from] in Hb.
  - destruct top; [discriminate |]. injection Hb as <-. simpl. split; [lia | done].
  - cbn [String.length all_hex]. destruct top as [h|]; cbn [pending].
    + destruct (hex_digit c) as [l|] eqn:Hc; [| discriminate].
      destruct (fromhex_from s None) as [b'|] eqn:Hb'; [| discriminate].
      injection Hb as <-. destruct (IH None b' Hb') as [H1 H2].
      cbn [length pending] in *. split; [lia |]. intros Heq.
      rewrite H2 by lia. rewrite bool_decide_eq_true_2; [done | by eexists].
    + destruct (is_space c).
      * destruct (IH None b Hb) as [H1 H2]. cbn [pending] in *. split; lia.
      * destruct (hex_digit c) as [x|] eqn:Hc; [| discriminate].
        destruct (IH (Some x) b Hb) as [H1 H2]. cbn [pending] in *.
        split; [lia |]. intros Heq.
        rewrite H2 by lia. rewrite bool_decide_eq_true_2; [done | by eexists].
Qed.

Lemma prefix_length (n : nat) (s : string) :
  (n <= String.length s)%nat -> String.length (prefix n s) = n.
Proof.
  revert s. induction n as [|n IH]; intros [|c s] Hs; simpl in *; try lia.
  rewrite IH; lia.
Qed.

(** The [try] block accepts a policy id of 56 characters exactly when
    these are hexadecimal digits and the name fits in 32 bytes. *)
Lemma add_asset_returns (unit policy_id asset_name : string) (quantity : Z)
    (ma : MultiAsset) :
  String.length policy_id = 56%nat ->
  returns (add_asset unit policy_id asset_name quantity ma) = true <->
  all_hex policy_id = true /\ (length (encode_utf8 asset_name) <= 32)%nat.
Proof.
  intros Hlen. unfold add_asset.
  assert (String.eqb policy_id "" = false) as ->.
  { apply String.eqb_neq. intros ->. simpl in Hlen. lia. }
  assert ((if String.eqb asset_name "" then AssetName []
           else AssetName (encode_utf8 asset_name))
          = AssetName (encode_utf8 asset_name)) as ->.
  { destruct (String.eqb_spec asset_name "") as [->|]; reflexivity. }
  unfold fromhex.
  destruct (fromhex_from policy_id None) as [b|e] eqn:Hb.
  - destruct (fromhex_from_length policy_id None b Hb) as [H1 H2].
    cbn [mbind outcome_bind Py.bind]. unfold ScriptHash.
    destruct (decide (length b = 28%nat)) as [H28|H28].
    + cbn [mbind outcome_bind Py.bind]. unfold AssetName.
      destruct (decide (length (encode_utf8 asset_name) <= 32)%nat) as [Hn|Hn].
      * cbn. split; [intros _; split; [apply H2; cbn [pending]; lia | done] | done].
      * cbn. split; [done | intros [_ Hn']; lia].
    + cbn. split; [done |]. intros [Hall _].
      destruct (fromhex_from_all_hex policy_id None 28 Hall)
        as (b' & Hb'' & Hl); [cbn [pending]; lia |].
      rewrite Hb in Hb''. injection Hb'' as <-. cbn [pending] in Hl. lia.
  - cbn. split.
    + destruct (is_ValueError e); discriminate.
    + intros [Hall _].
      destruct (fromhex_from_all_hex policy_id None 28 Hall)
        as (b' & Hb'' & _); [cbn [pending]; lia |]. congruence.
Qed.

Lemma to_assets_loop_returns (h : HydraAssets) :
  forall acc : Value,
    returns (to_assets_loop h acc) = true <-> Forall acceptable h.
Proof.
  induction h as [|[u q] h IH]; intros acc.
  - split; [intros _; apply Forall_nil_2 | done].
  - rewrite Forall_cons. unfold acceptable at 1. cbn [fst snd to_assets_loop].
    destruct (q =? 0) eqn:E0.
    { rewrite IH. split; [intros H; split; [left; lia | done] | by intros [_ H]]. }
    destruct (q <? 0) eqn:En.
    { split; [done | intros [[H|[H _]] _]; lia]. }
    unfold well_formed_unit.
    destruct (String.eqb u "lovelace") eqn:El.
    { rewrite IH. cbn [orb].
      split; [intros H; split; [right; split; [lia | done] | done] | by intros [_ H]]. }
    cbn [orb]. destruct (len u <? 56) eqn:E56.
    { assert ((56 <=? len u) = false) as -> by lia. cbn [andb].
      split; [done | intros [[H|[_ H]] _]; [lia | done]]. }
    assert ((56 <=? len u) = true) as -> by lia. cbn [andb].
    pose proof (add_asset_returns u (prefix 56 u) (suffix 56 u) q (multi_asset acc))
      as Hadd.
    rewrite prefix_length in Hadd by (unfold len in E56; lia).
    specialize (Hadd eq_refl).
    destruct (add_asset u (prefix 56 u) (suffix 56 u) q (multi_asset acc)) as [ma|e].
    + cbn [mbind outcome_bind Py.bind]. rewrite IH.
      destruct Hadd as [Hadd _]. destruct (Hadd eq_refl) as [Hhex Hname].
      rewrite Hhex, (bool_decide_eq_true_2 _ Hname). cbn [andb].
      split; [intros H; split; [right; split; [lia | done] | done] | by intros [_ H]].
    + cbn [mbind outcome_bind Py.bind returns]. split; [done |].
      intros [[H|[_ H]] _]; [lia |].
      apply andb_true_iff in H as [Hhex Hname%bool_decide_eq_true].
      destruct Hadd as [_ Hadd]. by specialize (Hadd (conj Hhex Hname)).
Qed.

(** [to_assets] returns a value exactly for the dictionaries in which
    every entry has quantity zero, or a positive quantity under a unit that
    is ["lovelace"] or 56 hexadecimal digits followed by a name of at most 32
    bytes; on every other dictionary it raises. *)
Theorem to_assets_accepts (h : HydraAssets) :
  returns (to_assets h) = true <-> Forall acceptable h.
Proof. apply to_assets_loop_returns. Qed.

End AcceptanceFacts.

(* ===================================================================== *)
(** * The provider's commands and its one connection                      *)
(* ===================================================================== *)

Section CommandFacts.
Import Connection Provider.

Lemma threads_started_app (l1 l2 : list effect) :
  threads_started (l1 ++ l2) = threads_started l1 ++ threads_started l2.
Proof. unfold threads_started. apply omap_app. Qed.

Lemma threads_started_replicate_sleep (k : nat) :
  threads_started (replicate k (Sleep 1)) = [].
Proof. induction k as [|k IH]; [done | exact IH]. Qed.

Lemma send_threads_started (data : json) (c : HydraConnection) :
  threads_started (trace (send data c).2) = threads_started (trace c).
Proof.
  destruct (send_shape data c) as [k [(_ & _ & ->)|[(_ & e & _ & ->)|(_ & ->)]]]; cbn;
    rewrite trace_polls, !threads_started_app, threads_started_replicate_sleep;
    cbn; by rewrite !app_nil_r.
Qed.

Lemma send_command_frame (payload : json) (p : HydraProvider) :
  (send_command payload p).1
    = match (send payload (_connection p)).1 with
      | Return _ => Return VNone
      | Raise e => Raise e
      end /\
  Provider._status (send_command payload p).2 = Provider._status p /\
  listeners (send_command payload p).2 = listeners p /\
  _http_url (send_command payload p).2 = _http_url p /\
  _connection (send_command payload p).2 = (send payload (_connection p)).2.
Proof.
  unfold send_command.
  by destruct (send payload (_connection p)) as [[v|e] c].
Qed.



(** ** One connection per provider *)

Lemma provider_step_frame (o : provider_operation) (p : HydraProvider) :
  (Provider._status p <> DISCONNECTED ->
   Provider._status (provider_step p o) = Provider._status p /\
   threads_started (trace (_connection (provider_step p o)))
     = threads_started (trace (_connection p))) /\
  (Provider._status p = DISCONNECTED ->
   (Provider._status (provider_step p o) = DISCONNECTED /\
    threads_started (trace (_connection (provider_step p o)))
      = threads_started (trace (_connection p)))
   \/ (Provider._status (provider_step p o) = CONNECTED /\
       threads_started (trace (_connection (provider_step p o)))
         = threads_started (trace (_connection p))
             ++ [_websocket_url (_connection p)])) /\
  _websocket_url (_connection (provider_step p o)) = _websocket_url (_connection p).
Proof.
  assert (forall c : HydraConnection,
            Provider._status (with_connection c p) = Provider._status p) as Hw by done.
  destruct o as [net|payload|cbor_hex type description tx_id| |parsed| |code msg];
    cbn [provider_step].
  - unfold Provider.connect.
    destruct (decide (Provider._status p <> DISCONNECTED)) as [Hn|Hd].
    + split; [done |]. split; [by intros H | done].
    + split; [by intros H |]. split; [| done]. intros _. right. split; [done |].
      cbn. by rewrite threads_started_app.
  - pose proof (send_command_frame payload p) as (_ & Hs & _ & _ & Hc).
    rewrite Hs, Hc, send_threads_started.
    destruct (send_frame payload (_connection p)) as (_ & _ & _ & -> & _).
    split; [done |]. split; [| done]. intros H. by left.
  - unfold new_tx.
    pose proof (send_threads_started
                  (new_tx_payload cbor_hex type description tx_id) (_connection p)) as Ht.
    destruct (send_frame (new_tx_payload cbor_hex type description tx_id)
                (_connection p)) as (_ & _ & _ & Hu & _).
    destruct (send _ (_connection p)) as [[v|e] c]; cbn in *; rewrite Ht, Hu;
      (split; [done |]; split; [| done]; intros H; by left).
  - cbn. rewrite threads_started_app. cbn. rewrite app_nil_r.
    split; [done |]. split; [| done]. intros H. by left.
  - assert (threads_started (trace (_on_message parsed (_connection p)).2)
            = threads_started (trace (_connection p)) /\
            _websocket_url (_on_message parsed (_connection p)).2
            = _websocket_url (_connection p)) as [Ht Hu].
    { destruct parsed as [j|].
      - destruct (on_message_state j (_connection p)) as (c2 & Hc2 & Hs).
        assert (threads_started (trace c2) = threads_started (trace (_connection p)) /\
                _websocket_url c2 = _websocket_url (_connection p)) as [Ht Hu].
        { destruct Hc2 as [->|(m & -> & ->)].
          - cbn. rewrite !threads_started_app. cbn. by rewrite !app_nil_r.
          - unfold process_status. destruct (hydra_status m); cbn;
              rewrite !threads_started_app; cbn; by rewrite !app_nil_r. }
        destruct Hs as [-> | ->]; [done |].
        cbn. rewrite threads_started_app, Ht, Hu. cbn. by rewrite app_nil_r.
      - cbn. rewrite threads_started_app. cbn. by rewrite app_nil_r. }
    cbn. rewrite Ht, Hu. split; [done |]. split; [| done]. intros H. by left.
  - cbn. rewrite threads_started_app. cbn. rewrite app_nil_r.
    split; [done |]. split; [| done]. intros H. by left.
  - cbn. rewrite !threads_started_app. cbn. rewrite !app_nil_r.
    split; [done |]. split; [| done]. intros H. by left.
Qed.

Lemma provider_run_connected (ops : list provider_operation) (p : HydraProvider) :
  Provider._status p <> DISCONNECTED ->
  Provider._status (provider_run ops p) = Provider._status p /\
  threads_started (trace (_connection (provider_run ops p)))
    = threads_started (trace (_connection p)).
Proof.
  revert p. induction ops as [|o ops IH]; intros p Hp; [done |].
  cbn [provider_run foldl].
  destruct (provider_step_frame o p) as [H _]. destruct (H Hp) as [Hs Ht].
  destruct (IH (provider_step p o)) as [Hs' Ht']; [by rewrite Hs |].
  unfold provider_run in *. rewrite Hs', Ht'. done.
Qed.

(** A provider opens one connection in its life.  Whatever its user calls
    and whatever the transport reports, a provider starts at most one
    transport thread, always for the URL it was created with; and once it
    has connected, nothing (not even the transport's close or error
    callback) brings its own status back to [DISCONNECTED], so that every
    later [connect] is a no-op: a provider whose transport has closed cannot
    reconnect. *)
Theorem provider_connects_once (ops : list provider_operation) (p : HydraProvider) :
  (Provider._status p <> DISCONNECTED ->
   Provider._status (provider_run ops p) = Provider._status p /\
   threads_started (trace (_connection (provider_run ops p)))
     = threads_started (trace (_connection p))) /\
  (Provider._status p = DISCONNECTED ->
   (Provider._status (provider_run ops p) = DISCONNECTED /\
    threads_started (trace (_connection (provider_run ops p)))
      = threads_started (trace (_connection p)))
   \/ (Provider._status (provider_run ops p) = CONNECTED /\
       threads_started (trace (_connection (provider_run ops p)))
         = threads_started (trace (_connection p))
             ++ [_websocket_url (_connection p)])).
Proof.
  split; [apply provider_run_connected |].
  revert p. induction ops as [|o ops IH]; intros p Hp; [by left |].
  cbn [provider_run foldl].
  destruct (provider_step_frame o p) as (_ & H & Hu).
  destruct (H Hp) as [[Hs Ht]|[Hs Ht]].
  - destruct (IH (provider_step p o) Hs) as [[Hs' Ht']|[Hs' Ht']];
      unfold provider_run in *; rewrite Hs', Ht', Ht, ?Hu; [by left | by right].
  - destruct (provider_run_connected ops (provider_step p o)) as [Hs' Ht'];
      [by rewrite Hs |].
    unfold provider_run in *. rewrite Hs', Ht', Hs, Ht. by right.
Qed.

Lemma provider_connects_once_witness :
  let ops := [PConnect (fun _ => true); PTransportOpen;
              PTransportClose (Some 1006) None; PConnect (fun _ => true);
              PCommand (tagged "Init")] in
  (Provider._status (provider_run ops provider_example) = DISCONNECTED /\
   threads_started (trace (_connection (provider_run ops provider_example)))
     = threads_started (trace (_connection provider_example)))
  \/ (Provider._status (provider_run ops provider_example) = CONNECTED /\
      threads_started (trace (_connection (provider_run ops provider_example)))
        = threads_started (trace (_connection provider_example))
            ++ [_websocket_url (_connection provider_example)]).
Proof.
  apply (proj2 (provider_connects_once
                  [PConnect (fun _ => true); PTransportOpen;
                   PTransportClose (Some 1006) None; PConnect (fun _ => true);
                   PCommand (tagged "Init")] provider_example)).
  reflexivity.
Defined.

(** After the transport has closed, the connection says [DISCONNECTED],
    the provider still says [CONNECTED], and its [connect] starts nothing. *)
Example no_reconnect_after_close :
  let p := provider_run
             [PConnect (fun _ => true); PTransportOpen;
              PTransportClose (Some 1006) None; PConnect (fun _ => true)]
             provider_example in
  Provider._status p = CONNECTED /\
  Connection._status (_connection p) = DISCONNECTED /\
  threads_started (trace (_connection p)) = ["ws://node:4001/?history=no"].
Proof. vm_compute. done. Qed.

End CommandFacts.

(* ===================================================================== *)
(** * Disconnecting                                                       *)
(* ===================================================================== *)

Section DisconnectFacts.
Import Connection.

Lemma open_at_disconnect_open (c : HydraConnection) (t : Z) :
  _status c <> IDLE -> transport_open c = true -> open_at (disconnect c) t = false.
Proof.
  intros Hs Ho. unfold disconnect. rewrite decide_False by done. rewrite Ho.
  unfold open_at, close_websocket, transport_open in *.
  by destruct (_websocket c).
Qed.

Lemma open_at_disconnect_closed (c : HydraConnection) (t : Z) :
  transport_open c = false -> open_at (disconnect c) t = open_at c t.
Proof.
  intros Ho. unfold disconnect. destruct (decide (_status c = IDLE)); [done |].
  by rewrite Ho.
Qed.

Lemma disconnect_twice (c : HydraConnection) :
  disconnect (disconnect c) = disconnect c.
Proof.
  unfold disconnect at 1.
  destruct (decide (_status (disconnect c) = IDLE)) as [|Hn]; [done |].
  destruct Hn. unfold disconnect. destruct (decide (_status c = IDLE)); [done |].
  by destruct (transport_open c).
Qed.

(** [disconnect] closes the transport only when it is open at the call.
    After that the transport is closed for good: a later [send] polls for
    its five seconds, puts nothing on the wire and prints its failure.  A
    connection that is disconnected while its transport is still opening
    keeps that transport: the attempt goes on, and the transport is open
    later exactly when it would have been.  A second [disconnect] changes
    nothing. *)
Theorem disconnect_closes_an_open_transport_only (c : HydraConnection) :
  _status c <> IDLE ->
  (transport_open c = true ->
     (forall t, open_at (disconnect c) t = false) /\
     (forall data,
        send data (disconnect c)
          = (Return VNone,
             perform (Print (LogSendFailed data)) (polls (disconnect c) 5)))) /\
  (transport_open c = false ->
     _websocket (disconnect c) = _websocket c /\
     closes (trace (disconnect c)) = closes (trace c) /\
     forall t, open_at (disconnect c) t = open_at c t) /\
  disconnect (disconnect c) = disconnect c.
Proof.
  intros Hs. split; [| split; [| apply disconnect_twice]].
  - intros Ho. split; [intros t; by apply open_at_disconnect_open |].
    intros data. unfold send, send_data.
    pose proof (open_at_disconnect_open c (clock (disconnect c)) Hs Ho) as H0.
    rewrite open_at_now in H0. rewrite H0.
    rewrite (send_loop_gives_up data (clock (disconnect c)) 5 (disconnect c));
      [done | lia |].
    intros j _. by apply open_at_disconnect_open.
  - intros Ho. split; [| split; [| intros t; by apply open_at_disconnect_closed]].
    + unfold disconnect. rewrite decide_False by done. by rewrite Ho.
    + unfold disconnect. rewrite decide_False by done. rewrite Ho. cbn.
      rewrite closes_app. cbn. by rewrite app_nil_r.
Qed.

Lemma disconnect_closes_an_open_transport_only_witness :
  ((forall t, open_at (disconnect connected_example) t = false) /\
   (forall data,
      send data (disconnect connected_example)
        = (Return VNone,
           perform (Print (LogSendFailed data)) (polls (disconnect connected_example) 5))))
  /\ (_websocket (disconnect (cold_start 2000)) = _websocket (cold_start 2000) /\
      closes (trace (disconnect (cold_start 2000))) = closes (trace (cold_start 2000)) /\
      forall t, open_at (disconnect (cold_start 2000)) t = open_at (cold_start 2000) t).
Proof.
  split.
  - apply (proj1 (disconnect_closes_an_open_transport_only connected_example
                    ltac:(discriminate))).
    reflexivity.
  - apply (proj1 (proj2 (disconnect_closes_an_open_transport_only (cold_start 2000)
                           ltac:(discriminate)))).
    reflexivity.
Defined.

(** A transport that opens two seconds after [connect], disconnected at
    once: the status is [IDLE], and the message sent next still goes out,
    two seconds later. *)
Example send_after_early_disconnect :
  let '(r, c) := send (JStr "Init") (disconnect (cold_start 2000)) in
  _status (disconnect (cold_start 2000)) = IDLE /\
  r = Return VNone /\ clock c = 2000 /\ sent_frames (trace c) = [JStr "Init"].
Proof. vm_compute. done. Qed.

End DisconnectFacts.

(* ===================================================================== *)
(** * The listener, case by case                                          *)
(* ===================================================================== *)

Section ListenerFacts.
Import Provider.

Variable json_dumps : json -> string.



End ListenerFacts.

(* ===================================================================== *)
(** * Committing through the instance                                     *)
(* ===================================================================== *)

Section InstanceFacts.
Import Instance.

Variable str : value -> string.
Variable json_dumps : json -> string.
Variable errors : exn -> outcome value.

Lemma post_outcome (response : outcome Response) :
  Provider.post str json_dumps response =
    match response with
    | Return r =>
        if decide (status_code r = 200 \/ status_code r = 202) then
          match body r with
          | Some j => Return j
          | None => Raise not_an_exception
          end
        else Raise not_an_exception
    | Raise _ => Raise not_an_exception
    end.
Proof.
  unfold Provider.post, Provider.request, try_except, Provider.response_json.
  destruct response as [r|e]; simpl; [| reflexivity].
  destruct (decide (status_code r = 200 \/ status_code r = 202));
    destruct (body r); reflexivity.
Qed.

(** [commit_funds] for a UTxO that was found.  The result is the
    ["cborHex"] field of the node's answer when the answer has status 200
    or 202 and a JSON object for a body; it is [None], not an error, when
    that object has no such field; a JSON body that is no object raises
    [AttributeError]; every other answer, and a request that failed, gives
    the [TypeError] of [post].  With no UTxO found the method raises,
    whatever [errors] makes of the exception. *)
Theorem commit_funds_outcome {UTxO : Type} (utxo : UTxO) (rest : list UTxO)
    (response : outcome Response) :
  commit_funds str json_dumps errors (Return (utxo :: rest)) response =
    match response with
    | Return r =>
        if decide (status_code r = 200 \/ status_code r = 202) then
          match body r with
          | Some (JObj d) =>
              Return (match d !! "cborHex" with
                      | Some v => VJson v
                      | None => VNone
                      end)
          | Some _ => Raise (AttributeError "object has no attribute 'get'")
          | None => Raise not_an_exception
          end
        else Raise not_an_exception
    | Raise _ => Raise not_an_exception
    end
  /\ returns (commit_funds str json_dumps errors (Return (@nil UTxO)) response) = false.
Proof.
  split.
  - unfold commit_funds, __commit_to_hydra. cbn. rewrite post_outcome.
    destruct response as [r|e]; [| done].
    destruct (decide (status_code r = 200 \/ status_code r = 202)); [| done].
    destruct (body r) as [[| | | | |d]|]; done.
  - unfold commit_funds. cbn. destruct (errors _) as [[| | |e]|e]; done.
Qed.

(** [incremental_commit_funds] never returns: when [commit_funds] raises,
    so does it, and when [commit_funds] returns, the [await] applied to its
    result raises [TypeError].  The decommit methods await coroutines and
    return the node's answer as [post] gives it. *)
Theorem incremental_commit_funds_never_returns {UTxO : Type}
    (utxos : outcome (list UTxO)) (response : outcome Response) :
  returns (incremental_commit_funds str json_dumps errors utxos response) = false /\
  (forall v, commit_funds str json_dumps errors utxos response = Return v ->
     exists msg,
       incremental_commit_funds str json_dumps errors utxos response
         = Raise (TypeError msg)) /\
  (forall e, commit_funds str json_dumps errors utxos response = Raise e ->
     incremental_commit_funds str json_dumps errors utxos response = Raise e) /\
  incremental_decommit str json_dumps response =
    match response with
    | Return r =>
        if decide (status_code r = 200 \/ status_code r = 202) then
          match body r with
          | Some j => Return (VJson j)
          | None => Raise not_an_exception
          end
        else Raise not_an_exception
    | Raise _ => Raise not_an_exception
    end.
Proof.
  assert (incremental_decommit str json_dumps response =
    match response with
    | Return r =>
        if decide (status_code r = 200 \/ status_code r = 202) then
          match body r with
          | Some j => Return (VJson j)
          | None => Raise not_an_exception
          end
        else Raise not_an_exception
    | Raise _ => Raise not_an_exception
    end) as Hd.
  { unfold incremental_decommit, decommit, __decommit_from_hydra.
    rewrite post_outcome. destruct response as [r|e]; [| done].
    destruct (decide (status_code r = 200 \/ status_code r = 202)); [| done].
    by destruct (body r). }
  unfold incremental_commit_funds.
  destruct (commit_funds str json_dumps errors utxos response) as [v|e].
  - split; [by destruct v |]. split; [| split; [done | exact Hd]].
    intros ? [= <-]. destruct v; by eexists.
  - split; [done |]. split; [done |]. split; [by intros ? [= <-] | exact Hd].
Qed.

End InstanceFacts.

(* ===================================================================== *)
(** * The reference script of an output                                   *)
(* ===================================================================== *)

Section ReferenceScriptFacts.
Import Script.

Variable script : Type.
Variable loads : cbor -> outcome cbor.
Variable NativeScript_from_primitive : cbor -> outcome script.
Variable PlutusScript_from_version : cbor -> cbor -> outcome script.
Variable truthy : script -> bool.

Let info := get_reference_script_info script loads NativeScript_from_primitive
              PlutusScript_from_version.
Let reference := hydra_reference_script script loads NativeScript_from_primitive
                   PlutusScript_from_version truthy.

Lemma classify_instance (ref : string) (i : HydraScriptInfomation script)
    (instance : script) :
  classify script loads NativeScript_from_primitive PlutusScript_from_version ref
    = Return i ->
  script_instance i = Some instance ->
  (script_type i = "SimpleScript" /\
   script_language i = Some "NativeScriptLanguage SimpleScript") \/
  (exists v, (eq_int v 1 || eq_int v 2 || eq_int v 3 = true) /\
             script_type i = "PlutusScriptV" +:+ format v /\
             script_language i
               = Some ("PlutusScriptLanguage PlutusScriptV" +:+ format v)).
Proof.
  unfold classify. intros H Hi.
  destruct (fromhex ref) as [b|]; [| done]. cbn in H.
  destruct (loads (CBytes b)) as [d|]; [| done]. cbn in H.
  assert (forall x : outcome (HydraScriptInfomation script),
            x = Return i -> x <> Return (unknown script)) as Hne.
  { intros x -> [= ->]. done. }
  destruct d as [| | | | |tag v| | |]; try (by destruct (Hne _ H)).
  destruct (decide (tag = 24)) as [->|Htag].
  2:{ destruct tag as [|p|p]; try (by destruct (Hne _ H)).
      repeat (destruct p as [p|p|]; try (by destruct (Hne _ H))). }
  destruct (loads v) as [d|]; [| done]. cbn in H.
  destruct d as [| | |l| | | | |]; try (by destruct (Hne _ H)).
  destruct l as [|x [|y [|z l]]]; try (by destruct (Hne _ H)).
  destruct (eq_int x 0).
  - destruct (NativeScript_from_primitive y); [| done]. injection H as <-. by left.
  - destruct (eq_int x 1 || eq_int x 2 || eq_int x 3) eqn:E;
      [| by destruct (Hne _ H)].
    destruct (PlutusScript_from_version x y); [| done]. injection H as <-.
    right. by exists x.
Qed.

(** What [hydra_reference_script] gives.  It raises exactly what
    [get_reference_script_info] raises.  It returns [None] for an absent or
    empty reference and whenever the classifier found no script.  When it
    returns a reference script, that one carries the reference itself as
    its ["cborHex"], an empty description, and as type and language either
    ["SimpleScript"] with ["NativeScriptLanguage SimpleScript"], or
    ["PlutusScriptV<n>"] with ["PlutusScriptLanguage PlutusScriptV<n>"] for
    the type id [n] (one that equals 1, 2 or 3) of the envelope. *)
Theorem hydra_reference_script_shape (script_reference : option string) :
  (forall e, reference script_reference = Raise e <-> info script_reference = Raise e) /\
  reference None = Return None /\
  reference (Some "") = Return None /\
  (forall i, info script_reference = Return i -> script_instance i = None ->
     reference script_reference = Return None) /\
  (forall r, reference script_reference = Return (Some r) ->
     script_reference = Some (ref_cborHex r) /\
     ref_description r = "" /\
     ((ref_type r = "SimpleScript" /\
       ref_script_language r = "NativeScriptLanguage SimpleScript") \/
      (exists v, (eq_int v 1 || eq_int v 2 || eq_int v 3 = true) /\
                 ref_type r = "PlutusScriptV" +:+ format v /\
                 ref_script_language r
                   = "PlutusScriptLanguage PlutusScriptV" +:+ format v))).
Proof.
  subst reference info. unfold hydra_reference_script.
  split; [| split; [done |]; split; [done |]; split].
  - intros e.
    destruct (get_reference_script_info _ _ _ _ script_reference) as [i|e'];
      cbn; [| by split; intros [= ->]].
    split; [| done].
    destruct script_reference as [[|c s]|]; [done | | done].
    destruct (script_instance i); [| done]. destruct (script_language i); [| done].
    by destruct (truthy _ && _).
  - intros i -> Hi. cbn. rewrite Hi. by destruct script_reference as [[|c s]|].
  - intros r.
    destruct script_reference as [[|c s]|]; [done | | done].
    unfold get_reference_script_info, try_except.
    destruct (classify _ _ _ _ (String c s)) as [i|e] eqn:Ec.
    2:{ destruct (is_ValueError e || is_CBORError e); done. }
    cbn. destruct (script_instance i) as [instance|] eqn:Ei; [| done].
    destruct (classify_instance _ i instance Ec Ei) as [[Ht Hl]|(v & Hv & Ht & Hl)];
      rewrite Hl; cbn.
    + destruct (truthy instance); [| done]. cbn. intros [= <-]. cbn.
      split; [done |]. split; [done |]. by left.
    + destruct (truthy instance && _); [| done]. intros [= <-]. cbn.
      split; [done |]. split; [done |]. right. by exists v.
Qed.

End ReferenceScriptFacts.

Section ReferenceScriptExamples.
Import Script.

Let reference := hydra_reference_script script_model cbor2_loads from_primitive
                   from_version script_truthy.

Example reference_plutus_v2 :
  reference (Some "d81846820243010203")
  = Return (Some {| ref_script_language := "PlutusScriptLanguage PlutusScriptV2";
                    ref_cborHex := "d81846820243010203";
                    ref_description := "";
                    ref_type := "PlutusScriptV2" |}).
Proof. vm_compute. reflexivity. Qed.

Example reference_unknown :
  reference (Some "8200") = Return None /\ reference (Some "zz") = Return None.
Proof. split; vm_compute; reflexivity. Qed.

End ReferenceScriptExamples.

(* ===================================================================== *)
(** * Output references                                                   *)
(* ===================================================================== *)

Section ReferenceFacts.
Import Text Utxos.

Variable int : string -> outcome Z.

Lemma split_length (sep : ascii) (s : string) :
  length (split sep s) = S (count sep s).
Proof.
  induction s as [|c s IH]; [done |]. cbn [split count].
  destruct (Ascii.eqb c sep); cbn [length]; [by rewrite IH |].
  destruct (split sep s) as [|piece rest]; [done |]. cbn in *. lia.
Qed.

Lemma split_without (sep : ascii) (s : string) :
  count sep s = 0%nat -> split sep s = [s].
Proof.
  induction s as [|c s IH]; [done |]. cbn [split count].
  destruct (Ascii.eqb c sep); [done |]. intros H. by rewrite IH.
Qed.

Lemma append_cons (c : ascii) (a b : string) :
  String c a +:+ b = String c (a +:+ b).
Proof. reflexivity. Qed.

Lemma split_at (sep : ascii) (a b : string) :
  count sep a = 0%nat -> split sep (a +:+ String sep b) = a :: split sep b.
Proof.
  induction a as [|c a IH].
  - intros _. change ("" +:+ String sep b) with (String sep b).
    cbn [split]. by rewrite Ascii.eqb_refl.
  - rewrite append_cons. cbn [split count].
    destruct (Ascii.eqb c sep); [done |]. intros H. by rewrite IH.
Qed.

(** Text with one separator is two pieces around it. *)
Lemma count_one (sep : ascii) (s : string) :
  count sep s = 1%nat ->
  exists a b, s = a +:+ String sep b /\ count sep a = 0%nat /\ count sep b = 0%nat.
Proof.
  induction s as [|c s IH]; [done |]. cbn [count].
  destruct (Ascii.eqb c sep) eqn:E.
  - apply Ascii.eqb_eq in E as ->. intros H. exists "", s. split; [done |].
    split; [done | lia].
  - intros H. destruct (IH H) as (a & b & -> & Ha & Hb).
    exists (String c a), b. split; [done |]. split; [| done].
    cbn [count]. by rewrite E.
Qed.

Lemma unpack_two_raises (pieces : list string) :
  length pieces <> 2%nat ->
  exists msg, unpack_two pieces = Raise (ValueError msg).
Proof.
  destruct pieces as [|a [|b [|c l]]]; intros H;
    [by eexists | by eexists | by destruct H | by eexists].
Qed.

Lemma pretty_N_go_count (x : N) :
  forall s, count "#" (pretty_N_go x s) = count "#" s.
Proof.
  induction (N.lt_wf_0 x) as [x _ IH]; intros s.
  assert (x = 0 \/ 0 < x)%N as [->|Hx] by lia.
  - by rewrite pretty_N_go_0.
  - rewrite pretty_N_go_step by done. rewrite IH by (by apply N.div_lt).
    cbn [count]. unfold pretty_N_char. by repeat case_match.
Qed.

(** A decimal numeral has no ["#"] in it. *)
Lemma pretty_Z_count (n : Z) : count "#" (pretty n) = 0%nat.
Proof.
  assert (forall p : positive, count "#" (pretty p) = 0%nat) as Hp.
  { intros p. unfold pretty, pretty_positive, pretty, pretty_N.
    rewrite decide_False by done. by rewrite pretty_N_go_count. }
  destruct n as [|p|p]; [done | apply Hp |].
  unfold pretty, pretty_Z. cbn [String.app count]. apply Hp.
Qed.

Lemma to_utxo_reference_pieces (h i : string) :
  count "#" h = 0%nat -> count "#" i = 0%nat ->
  to_utxo_reference int (h +:+ "#" +:+ i) =
    match int i with
    | Return n => Return (h, n)
    | Raise e => if is_ValueError_or_TypeError e then Raise invalid_tx_id else Raise e
    end.
Proof.
  intros Hh Hi. unfold to_utxo_reference.
  change (h +:+ "#" +:+ i) with (h +:+ String "#" i).
  rewrite (split_at "#" h i Hh), (split_without "#" i Hi). cbn.
  by destruct (int i).
Qed.

(** How [to_utxo] reads a reference.  Text with no ["#"], or with more
    than one, is rejected with [ValueError("Invalid TxId Format")].  Text
    with exactly one is a transaction id, the ["#"], and an index: the
    result is the id as it stands (it is not looked at here, and may be
    empty) and what [int] makes of the index; when [int] raises
    [ValueError] or [TypeError] the reference is rejected in the same
    way. *)
Theorem to_utxo_reference_format (tx_id : string) :
  (count "#" tx_id <> 1%nat -> to_utxo_reference int tx_id = Raise invalid_tx_id) /\
  (count "#" tx_id = 1%nat ->
     exists h i, tx_id = h +:+ "#" +:+ i /\
                 count "#" h = 0%nat /\ count "#" i = 0%nat) /\
  (forall h i,
     tx_id = h +:+ "#" +:+ i -> count "#" h = 0%nat -> count "#" i = 0%nat ->
     to_utxo_reference int tx_id =
       match int i with
       | Return n => Return (h, n)
       | Raise e =>
           if is_ValueError_or_TypeError e then Raise invalid_tx_id else Raise e
       end).
Proof.
  split; [| split].
  - intros H. unfold to_utxo_reference.
    destruct (unpack_two_raises (split "#" tx_id)) as [msg ->]; [| done].
    rewrite split_length. lia.
  - apply count_one.
  - intros h i -> Hh Hi. by apply to_utxo_reference_pieces.
Qed.

(** The key [hydra_utxos] files an output under is read back by [to_utxo]
    as the transaction id and the index it was made of, for an id without
    ["#"] and an index whose decimal numeral [int] reads back. *)
Theorem tx_ref_round_trip (transaction_id : string) (index : Z) :
  count "#" transaction_id = 0%nat ->
  int (pretty index) = Return index ->
  to_utxo_reference int (tx_ref transaction_id index)
    = Return (transaction_id, index).
Proof.
  intros Hh Hi. unfold tx_ref.
  rewrite (to_utxo_reference_pieces _ _ Hh (pretty_Z_count index)).
  by rewrite Hi.
Qed.

End ReferenceFacts.

Lemma tx_ref_round_trip_witness :
  Utxos.to_utxo_reference decimal (Utxos.tx_ref "5f20ab" 3) = Return ("5f20ab", 3).
Proof. apply (tx_ref_round_trip decimal "5f20ab" 3); reflexivity. Defined.

Example to_utxo_reference_examples :
  Utxos.to_utxo_reference decimal "5f20ab#12" = Return ("5f20ab", 12) /\
  Utxos.to_utxo_reference decimal "#0" = Return ("", 0) /\
  Utxos.to_utxo_reference decimal "5f20ab" = Raise Utxos.invalid_tx_id /\
  Utxos.to_utxo_reference decimal "5f20ab#1#2" = Raise Utxos.invalid_tx_id /\
  Utxos.to_utxo_reference decimal "5f20ab#" = Raise Utxos.invalid_tx_id /\
  Utxos.to_utxo_reference decimal "5f20ab#x" = Raise Utxos.invalid_tx_id.
Proof. repeat split; vm_compute; reflexivity. Qed.

Section OutputFacts.
Import Utxos.

Variables UTxO HydraUTxO : Type.
Variable hydra_utxo : UTxO -> outcome HydraUTxO.
Variable transaction_id : UTxO -> string.
Variable index : UTxO -> Z.

Let hydra_utxos := Utxos.hydra_utxos UTxO HydraUTxO hydra_utxo transaction_id index.

(** [hydra_utxos] converts no output.  On the empty list it returns the
    empty dictionary; on any other list it raises at the first output:
    what [hydra_utxo] raises for it, or else the [TypeError] of the [await]
    applied to the object [hydra_utxo] returned.  So the only dictionary it
    ever returns is the empty one. *)
Theorem hydra_utxos_converts_nothing (utxos : list UTxO) :
  hydra_utxos [] = Return [] /\
  (forall utxo rest,
     utxos = utxo :: rest ->
     hydra_utxos utxos =
       match hydra_utxo utxo with
       | Return _ =>
           Raise (TypeError "object HydraUTxO can't be used in 'await' expression")
       | Raise e => Raise e
       end) /\
  (forall d, hydra_utxos utxos = Return d -> utxos = [] /\ d = []).
Proof.
  subst hydra_utxos. unfold Utxos.hydra_utxos. split; [done |]. split.
  - intros utxo rest ->. cbn. by destruct (hydra_utxo utxo).
  - intros d. destruct utxos as [|utxo rest]; cbn.
    + by intros [= <-].
    + by destruct (hydra_utxo utxo).
Qed.

End OutputFacts.

(* ===================================================================== *)
(** * The amounts of a Blockfrost output                                  *)
(* ===================================================================== *)

Section BlockfrostFacts.

Variable int : string -> outcome Z.

Lemma blockfrost_loop_agrees (assets : list (string * string)) :
  forall (h : Assets.HydraAssets) (result : Assets.Value),
    same_amounts int assets h ->
    Blockfrost.__to_assets_loop int assets result = Assets.to_assets_loop h result.
Proof.
  induction assets as [|[unit quantity] assets IH]; intros h result H;
    inversion H as [|a [u q] l l' [Hu Hq] Hrest]; subst; [done |].
  cbn in Hu, Hq. subst u.
  cbn [Blockfrost.__to_assets_loop Assets.to_assets_loop]. rewrite Hq. cbn.
  destruct (q =? 0); [by apply IH |].
  destruct (q <? 0); [done |].
  destruct (String.eqb unit "lovelace"); [by apply IH |].
  destruct (len unit <? 56); [done |].
  destruct (Assets.add_asset _ _ _ _ _); [| done]. cbn. by apply IH.
Qed.

(** The Blockfrost provider and [to_assets] build the same value: for
    amounts that name the same units in the same order, with quantities
    that [int] reads as the quantities [to_assets] is given, the two
    functions return the same value or raise the same error. *)
Theorem blockfrost_amounts_agree (assets : list (string * string))
    (h : Assets.HydraAssets) :
  same_amounts int assets h ->
  Blockfrost.__to_assets int assets = Assets.to_assets h.
Proof. intros H. by apply blockfrost_loop_agrees. Qed.

(** An amount whose quantity [int] does not read stops the conversion with
    the error of [int], provided the amounts before it were accepted. *)
Lemma blockfrost_loop_bad_quantity (pre : list (string * string)) :
  forall (h : Assets.HydraAssets) (result : Assets.Value)
         (unit quantity : string) (rest : list (string * string)) (e : exn),
    same_amounts int pre h ->
    returns (Assets.to_assets_loop h result) = true ->
    int quantity = Raise e ->
    Blockfrost.__to_assets_loop int (pre ++ (unit, quantity) :: rest) result = Raise e.
Proof.
  induction pre as [|[u q] pre IH]; intros h result unit quantity rest e H Hr Hq;
    inversion H as [|a [u' q'] l l' [Hu Hq'] Hrest]; subst.
  - cbn. by rewrite Hq.
  - cbn in Hu, Hq'. subst u'.
    cbn [app Blockfrost.__to_assets_loop Assets.to_assets_loop] in *.
    rewrite Hq'. cbn.
    destruct (q' =? 0); [by apply (IH l') |].
    destruct (q' <? 0); [done |].
    destruct (String.eqb u "lovelace"); [by apply (IH l') |].
    destruct (len u <? 56); [done |].
    destruct (Assets.add_asset _ _ _ _ _); [| done]. cbn in *. by apply (IH l').
Qed.

End BlockfrostFacts.

Lemma blockfrost_amounts_agree_witness :
  Blockfrost.__to_assets decimal
    [("lovelace", "5000000"); (policy_example +:+ "token", "7")]
  = Assets.to_assets [("lovelace", 5000000); (policy_example +:+ "token", 7)].
Proof.
  apply (blockfrost_amounts_agree decimal).
  repeat apply Forall2_cons_2; try apply Forall2_nil_2; split; reflexivity.
Defined.
